(** * Remote-assistance system: mediator broker, frame protocol, client agent

    A shallow embedding of three pieces of the repository:

    - [Mediator]: the registries of [mediator_server.py] (the [clients],
      [technicians], [help_requests] and [active_sessions] dictionaries of
      [MediatorServer]) and the handlers that mutate them;
    - [Framing]: the length-prefixed screen frame written by
      [send_screenshots] of [client_with_mediator.py] and read back by
      [_recv_all] of [technician_with_mediator.py];
    - [ClientAgent]: the accept loop [accept_control_connections] of
      [client_with_mediator.py].

    The definitions come first; the modules [DictFacts], [MediatorFacts],
    [FramingFacts] and [ClientAgentFacts] hold what is proved of them.

    Python dictionaries keep insertion order and the handlers iterate over
    them, so they are modelled by insertion-ordered association lists
    ([Dict]).  A handler is a function from the broker's world to the
    broker's world; one handler runs at a time.  Socket sends may raise: the
    world carries the outcomes of the sends still to come, and records every
    attempted send and every close.  Calls to [self.log] and to the GUI are
    left out, they touch no registry. *)

From Stdlib Require Import List String Ascii Bool Arith NArith Lia.
From Stdlib Require Import Strings.Byte.
Import ListNotations.
Open Scope string_scope.

(* ================================================================== *)
(** ** Insertion-ordered dictionaries with string keys *)

Module Dict.
Section WithValue.
Context {V : Type}.

Definition t := list (string * V).

Definition empty : t := [].

(** [d.get(k)] *)
Fixpoint get (k : string) (d : t) : option V :=
  match d with
  | [] => None
  | (k', v) :: r => if String.eqb k k' then Some v else get k r
  end.

(** [k in d] *)
Definition mem (k : string) (d : t) : bool :=
  match get k d with Some _ => true | None => false end.

(** [d[k] = v]: an existing key keeps its position, a new one goes last. *)
Fixpoint set (k : string) (v : V) (d : t) : t :=
  match d with
  | [] => [(k, v)]
  | (k', v') :: r =>
      if String.eqb k k' then (k, v) :: r else (k', v') :: set k v r
  end.

(** [del d[k]]; every [del] of the source is guarded by [k in d]. *)
Fixpoint del (k : string) (d : t) : t :=
  match d with
  | [] => []
  | (k', v') :: r =>
      if String.eqb k k' then del k r else (k', v') :: del k r
  end.

(** [d[k][field] = ...]: the stored value is mutated in place. *)
Definition update (k : string) (f : V -> V) (d : t) : t :=
  match get k d with
  | Some v => set k (f v) d
  | None => d
  end.

(** [list(d.items())] and [list(d.keys())] *)
Definition items (d : t) : list (string * V) := d.
Definition keys (d : t) : list string := map fst d.

End WithValue.
Arguments t : clear implicits.
End Dict.

(* ================================================================== *)
(** ** The mediator broker *)

Module Mediator.

(** Python truthiness of a value that is [None] or a string. *)
Definition truthy (o : option string) : bool :=
  match o with
  | Some s => negb (String.eqb s "")
  | None => false
  end.

(** [key in d] where [key] may be [None]: [None] is never a stored key. *)
Definition mem_opt {V} (k : option string) (d : Dict.t V) : bool :=
  match k with
  | Some s => Dict.mem s d
  | None => false
  end.

(** *** Identifiers: [str(uuid.uuid4())[:8]] *)

Definition hex_digit (n : N) : ascii :=
  match n with
  | 0 => "0" | 1 => "1" | 2 => "2" | 3 => "3" | 4 => "4" | 5 => "5"
  | 6 => "6" | 7 => "7" | 8 => "8" | 9 => "9" | 10 => "a" | 11 => "b"
  | 12 => "c" | 13 => "d" | 14 => "e" | _ => "f"
  end%N%char.

(** [hex_digits k n]: the [k] low hexadecimal digits of [n], highest first. *)
Fixpoint hex_digits (k : nat) (n : N) : string :=
  match k with
  | O => EmptyString
  | S k' =>
      String.append (hex_digits k' (N.shiftr n 4))
                    (String (hex_digit (N.land n 15)) EmptyString)
  end.

(** The first eight characters of the text of a UUID are the hexadecimal
    digits of its 32 highest bits; [u] is the UUID's 128-bit value. *)
Definition uuid8 (u : N) : string :=
  hex_digits 8 (N.land (N.shiftr u 96) (N.ones 32)).

(** *** Registry entries *)

(** A name is the [name] of the peer's first message, which may be [null],
    or the default the broker makes from the peer's address. *)

Record client_info := mk_client {
  c_socket : nat;
  c_ip : string;
  c_name : option string;
  help_requested : bool;
  session_id : option string;
  c_connected_time : string
}.

Record tech_info := mk_tech {
  t_socket : nat;
  t_ip : string;
  t_name : option string;
  assigned_client : option string;
  t_connected_time : string
}.

Record help_request := mk_help {
  timestamp : string;
  status : string
}.

Record active_session := mk_session {
  client_id : string;
  tech_id : string;
  start_time : string
}.

Definition with_help_requested (b : bool) (c : client_info) : client_info :=
  mk_client (c_socket c) (c_ip c) (c_name c) b (session_id c)
            (c_connected_time c).

Definition with_session_id (s : option string) (c : client_info)
  : client_info :=
  mk_client (c_socket c) (c_ip c) (c_name c) (help_requested c) s
            (c_connected_time c).

Definition with_assigned_client (a : option string) (t : tech_info)
  : tech_info :=
  mk_tech (t_socket t) (t_ip t) (t_name t) a (t_connected_time t).

(** *** Signaling messages *)

(** An incoming JSON object, reduced to the keys the broker reads.  A key
    that is absent (or [null]) is [None], a key that is present holds a
    string; [approved] is the truth value of
    [message.get('approved', False)].  The broker reads [name] with a
    default, which stands for an absent key only: [msg_name] is [None] for
    an absent key, [Some None] for [null] and [Some (Some s)] for a
    string. *)
Record message := mk_message {
  msg_type : option string;
  msg_name : option (option string);
  msg_client_id : option string;
  msg_tech_id : option string;
  msg_session_id : option string;
  msg_approved : bool
}.

Record help_entry := mk_help_entry {
  he_client_id : string;
  he_name : option string;
  he_ip : string;
  he_timestamp : string
}.

(** The JSON objects the broker writes. *)
Inductive payload :=
| Welcome_client (client_id : string)
| Welcome_technician (technician_id : string) (help_list : list help_entry)
| Help_confirmed
| New_help_request (client_id : string) (name : option string)
    (ip timestamp : string)
| Help_cancelled (client_id : string)
| Control_request (technician_name : option string)
    (technician_ip tech_id : string)
| Control_approved (client_id client_ip : string)
    (client_name : option string) (session_id : string)
| Control_denied (client_id : string) (client_name : option string)
| Client_unavailable (client_id : string)
| Client_disconnected (client_id : string)
| Heartbeat.

(** The registry entry a socket operation is made for. *)
Inductive peer :=
| Client (id : string)
| Technician (id : string).

(** What the broker does to its sockets.  [Send to s p ok]: a [send] of [p]
    on [s], the socket stored for [to], was attempted and returned
    ([ok = true]) or raised. *)
Inductive event :=
| Send (to : peer) (sock : nat) (p : payload) (ok : bool)
| Close (sock : nat).

(** *** The broker's world *)

Record world := mk_world {
  clients : Dict.t client_info;
  technicians : Dict.t tech_info;
  help_requests : Dict.t help_request;
  active_sessions : Dict.t active_session;
  (** whether each of the coming sends raises, in order; none raises once
      the list is used up *)
  raises : list bool;
  (** the socket operations performed so far, oldest first *)
  wire : list event
}.

Definition init (r : list bool) : world :=
  mk_world Dict.empty Dict.empty Dict.empty Dict.empty r [].

Definition set_clients (f : Dict.t client_info -> Dict.t client_info)
  (w : world) : world :=
  mk_world (f (clients w)) (technicians w) (help_requests w)
           (active_sessions w) (raises w) (wire w).

Definition set_technicians (f : Dict.t tech_info -> Dict.t tech_info)
  (w : world) : world :=
  mk_world (clients w) (f (technicians w)) (help_requests w)
           (active_sessions w) (raises w) (wire w).

Definition set_help_requests (f : Dict.t help_request -> Dict.t help_request)
  (w : world) : world :=
  mk_world (clients w) (technicians w) (f (help_requests w))
           (active_sessions w) (raises w) (wire w).

Definition set_active_sessions
  (f : Dict.t active_session -> Dict.t active_session) (w : world) : world :=
  mk_world (clients w) (technicians w) (help_requests w)
           (f (active_sessions w)) (raises w) (wire w).

(** [sock.send(json.dumps(p).encode('utf-8'))]; the result tells whether the
    call returned normally. *)
Definition send (to : peer) (sock : nat) (p : payload) (w : world)
  : bool * world :=
  let ok := negb (hd false (raises w)) in
  (ok, mk_world (clients w) (technicians w) (help_requests w)
                (active_sessions w) (tl (raises w))
                (wire w ++ [Send to sock p ok])).

(** [try: sock.close() except: pass] *)
Definition close (sock : nat) (w : world) : world :=
  mk_world (clients w) (technicians w) (help_requests w)
           (active_sessions w) (raises w) (wire w ++ [Close sock]).

(** *** Handlers *)

(** The first session of [active_sessions] whose technician is [t]. *)
Definition session_of_tech (t : string) (d : Dict.t active_session)
  : option (string * active_session) :=
  find (fun kv => String.eqb (tech_id (snd kv)) t) (Dict.items d).

(** [MediatorServer.disconnect_technician] *)
Definition disconnect_technician (t : string) (w : world) : world :=
  match Dict.get t (technicians w) with
  | None => w
  | Some tech =>
      let assigned := assigned_client tech in
      let w1 :=
        if truthy assigned && mem_opt assigned (clients w) then
          match assigned, session_of_tech t (active_sessions w) with
          | Some c, Some (sid, _) =>
              set_clients (Dict.update c (with_session_id None))
                (set_active_sessions (Dict.del sid) w)
          | _, _ => w
          end
        else w in
      let w2 := close (t_socket tech) w1 in
      set_technicians (Dict.del t) w2
  end.

(** [exclude_tech and tech_id == exclude_tech] *)
Definition excluded (exclude_tech : option string) (t : string) : bool :=
  truthy exclude_tech
  && match exclude_tech with Some x => String.eqb t x | None => false end.

(** One turn of the loop of [broadcast_to_technicians], for the entry
    [(t, tech)] of the snapshot. *)
Definition broadcast_one (p : payload) (exclude_tech : option string)
  (w : world) (entry : string * tech_info) : world :=
  let (t, tech) := entry in
  if excluded exclude_tech t then w
  else
    let (ok, w1) := send (Technician t) (t_socket tech) p w in
    if ok then w1 else disconnect_technician t w1.

(** [MediatorServer.broadcast_to_technicians]: the loop runs over a snapshot
    of the registry taken on entry. *)
Definition broadcast_to_technicians (p : payload)
  (exclude_tech : option string) (w : world) : world :=
  fold_left (broadcast_one p exclude_tech) (Dict.items (technicians w)) w.

(** [MediatorServer.disconnect_client] *)
Definition disconnect_client (c : string) (w : world) : world :=
  match Dict.get c (clients w) with
  | None => w
  | Some info =>
      let sid := session_id info in
      let w1 :=
        match sid with
        | Some s =>
            if truthy sid && Dict.mem s (active_sessions w) then
              let w' := set_active_sessions (Dict.del s) w in
              (* the session is read after it has been deleted *)
              let session := Dict.get s (active_sessions w') in
              let tech := option_map tech_id session in
              match tech with
              | Some t =>
                  if Dict.mem t (technicians w') then
                    set_technicians
                      (Dict.update t (with_assigned_client None)) w'
                  else w'
              | None => w'
              end
            else w
        | None => w
        end in
      let w2 :=
        if Dict.mem c (help_requests w1)
        then set_help_requests (Dict.del c) w1 else w1 in
      let w3 := close (c_socket info) w2 in
      let w4 := set_clients (Dict.del c) w3 in
      broadcast_to_technicians (Client_disconnected c) None w4
  end.

(** [MediatorServer.handle_help_request]; [now] is the formatted clock. *)
Definition handle_help_request (c : string) (now : string) (w : world)
  : world :=
  if negb (Dict.mem c (clients w)) then w
  else
    let w1 := set_clients (Dict.update c (with_help_requested true)) w in
    let w2 := set_help_requests (Dict.set c (mk_help now "pending")) w1 in
    match Dict.get c (clients w2) with
    | None => w2
    | Some info =>
        let w3 :=
          broadcast_to_technicians
            (New_help_request c (c_name info) (c_ip info) now) None w2 in
        match Dict.get c (clients w3) with
        | Some info' =>
            snd (send (Client c) (c_socket info') Help_confirmed w3)
        | None => w3
        end
    end.

(** [MediatorServer.handle_cancel_help] *)
Definition handle_cancel_help (c : string) (w : world) : world :=
  if negb (Dict.mem c (clients w)) then w
  else
    let w1 := set_clients (Dict.update c (with_help_requested false)) w in
    let w2 :=
      if Dict.mem c (help_requests w1)
      then set_help_requests (Dict.del c) w1 else w1 in
    broadcast_to_technicians (Help_cancelled c) None w2.

(** [MediatorServer.handle_control_request] *)
Definition handle_control_request (t : string) (m : message) (w : world)
  : world :=
  match msg_client_id m with
  | None => w
  | Some c =>
      match Dict.get c (clients w), Dict.get t (technicians w) with
      | Some info, Some tech =>
          snd (send (Client c) (c_socket info)
                    (Control_request (t_name tech) (t_ip tech) t) w)
      | _, _ => w
      end
  end.

(** Lines 810-824 of [handle_control_response]: the registry updates of an
    approval, with [sid] the identifier just drawn. *)
Definition start_session (c t sid now : string) (w : world) : world :=
  let w1 := set_active_sessions (Dict.set sid (mk_session c t now)) w in
  let w2 := set_clients (Dict.update c (with_session_id (Some sid))) w1 in
  let w3 := set_clients (Dict.update c (with_help_requested false)) w2 in
  let w4 :=
    set_technicians (Dict.update t (with_assigned_client (Some c))) w3 in
  if Dict.mem c (help_requests w4)
  then set_help_requests (Dict.del c) w4 else w4.

(** [MediatorServer.handle_control_response]; [rnd] is the UUID drawn for
    the session, [now] the clock. *)
Definition handle_control_response (c : string) (m : message) (rnd : N)
  (now : string) (w : world) : world :=
  match msg_tech_id m with
  | None => w
  | Some t =>
      match Dict.get t (technicians w), Dict.get c (clients w) with
      | Some tech, Some info =>
          if msg_approved m then
            let sid := uuid8 rnd in
            let w1 := start_session c t sid now w in
            let w2 :=
              snd (send (Technician t) (t_socket tech)
                        (Control_approved c (c_ip info) (c_name info) sid)
                        w1) in
            broadcast_to_technicians (Client_unavailable c) (Some t) w2
          else
            snd (send (Technician t) (t_socket tech)
                      (Control_denied c (c_name info)) w)
      | _, _ => w
      end
  end.

(** [MediatorServer.handle_end_session]; [t] is the technician whose
    connection delivered the message. *)
Definition handle_end_session (t : string) (m : message) (w : world)
  : world :=
  match msg_session_id m with
  | None => w
  | Some sid =>
      match Dict.get sid (active_sessions w) with
      | None => w
      | Some session =>
          let c := client_id session in
          let w1 := set_active_sessions (Dict.del sid) w in
          let w2 :=
            if Dict.mem c (clients w1)
            then set_clients (Dict.update c (with_session_id None)) w1
            else w1 in
          if Dict.mem t (technicians w2)
          then set_technicians
                 (Dict.update t (with_assigned_client None)) w2
          else w2
      end
  end.

(** [MediatorServer.process_client_message] *)
Definition process_client_message (c : string) (m : message) (rnd : N)
  (now : string) (w : world) : world :=
  match msg_type m with
  | Some ty =>
      if String.eqb ty "help_request" then handle_help_request c now w
      else if String.eqb ty "cancel_help" then handle_cancel_help c w
      else if String.eqb ty "control_response"
           then handle_control_response c m rnd now w
      else if String.eqb ty "heartbeat_response" then w
      else w
  | None => w
  end.

(** [MediatorServer.process_technician_message] *)
Definition process_technician_message (t : string) (m : message) (w : world)
  : world :=
  match msg_type m with
  | Some ty =>
      if String.eqb ty "request_control" then handle_control_request t m w
      else if String.eqb ty "end_session" then handle_end_session t m w
      else if String.eqb ty "heartbeat_response" then w
      else w
  | None => w
  end.

(** [MediatorServer.handle_client_connection]; [rnd] is the UUID drawn for
    the client, [ip] the peer address of [sock]. *)
Definition handle_client_connection (sock : nat) (ip : string) (m : message)
  (rnd : N) (now : string) (w : world) : world :=
  let c := uuid8 rnd in
  let name :=
    match msg_name m with
    | Some n => n
    | None => Some (String.append "Client-" ip)
    end in
  let w1 :=
    set_clients (Dict.set c (mk_client sock ip name false None now)) w in
  let (ok, w2) := send (Client c) sock (Welcome_client c) w1 in
  if ok then w2 else disconnect_client c w2.

(** The list of open help requests sent to a technician on arrival. *)
Definition help_list_of (w : world) : list help_entry :=
  flat_map
    (fun kv : string * client_info =>
       let (c, info) := kv in
       if help_requested info && negb (truthy (session_id info)) then
         [mk_help_entry c (c_name info) (c_ip info)
            match Dict.get c (help_requests w) with
            | Some h => timestamp h
            | None => ""
            end]
       else [])
    (Dict.items (clients w)).

(** [MediatorServer.handle_technician_connection] *)
Definition handle_technician_connection (sock : nat) (ip : string)
  (m : message) (rnd : N) (now : string) (w : world) : world :=
  let t := uuid8 rnd in
  let name :=
    match msg_name m with
    | Some n => n
    | None => Some (String.append "Tech-" ip)
    end in
  let w1 :=
    set_technicians (Dict.set t (mk_tech sock ip name None now)) w in
  let (ok, w2) :=
    send (Technician t) sock (Welcome_technician t (help_list_of w1)) w1 in
  if ok then w2 else disconnect_technician t w2.

(** [MediatorServer.handle_connection], once the first message [m] of a new
    connection has been read and parsed. *)
Definition handle_connection (sock : nat) (ip : string) (m : message)
  (rnd : N) (now : string) (w : world) : world :=
  match msg_type m with
  | Some ty =>
      if String.eqb ty "client_connect"
      then handle_client_connection sock ip m rnd now w
      else if String.eqb ty "technician_connect"
      then handle_technician_connection sock ip m rnd now w
      else close sock w
  | None => close sock w
  end.

(** One turn of the first loop of [heartbeat_checker]. *)
Definition heartbeat_client (w : world) (c : string) : world :=
  match Dict.get c (clients w) with
  | Some info =>
      let (ok, w1) := send (Client c) (c_socket info) Heartbeat w in
      if ok then w1 else disconnect_client c w1
  | None => disconnect_client c w
  end.

(** One turn of the second loop of [heartbeat_checker]. *)
Definition heartbeat_technician (w : world) (t : string) : world :=
  match Dict.get t (technicians w) with
  | Some tech =>
      let (ok, w1) := send (Technician t) (t_socket tech) Heartbeat w in
      if ok then w1 else disconnect_technician t w1
  | None => disconnect_technician t w
  end.

(** One round of [MediatorServer.heartbeat_checker], after its sleep. *)
Definition heartbeat_checker (w : world) : world :=
  let w1 := fold_left heartbeat_client (Dict.keys (clients w)) w in
  fold_left heartbeat_technician (Dict.keys (technicians w1)) w1.

(** [MediatorServer.stop_server] *)
Definition stop_server (w : world) : world :=
  let w1 :=
    fold_left (fun w kv => close (c_socket (snd kv)) w)
              (Dict.items (clients w)) w in
  let w2 :=
    fold_left (fun w kv => close (t_socket (snd kv)) w)
              (Dict.items (technicians w1)) w1 in
  mk_world Dict.empty Dict.empty Dict.empty Dict.empty (raises w2) (wire w2).

(** *** Operations of the broker

    What can happen to a running broker: a connection is accepted and
    identifies itself, the reading loop of a registered peer gets a message,
    times out or ends, the heartbeat timer fires, the server is stopped. *)
Inductive op :=
| Connect (sock : nat) (ip : string) (m : message) (rnd : N) (now : string)
| Client_recv (c : string) (m : message) (rnd : N) (now : string)
| Client_timeout (c : string)
| Client_closed (c : string)
| Technician_recv (t : string) (m : message)
| Technician_timeout (t : string)
| Technician_closed (t : string)
| Heartbeat_tick
| Stop.

(** The loops [handle_client_messages] and [handle_technician_messages] run
    while their peer is registered and end in the peer's disconnect. *)
Definition step (o : op) (w : world) : world :=
  match o with
  | Connect sock ip m rnd now => handle_connection sock ip m rnd now w
  | Client_recv c m rnd now =>
      if Dict.mem c (clients w) then process_client_message c m rnd now w
      else disconnect_client c w
  | Client_timeout c =>
      match Dict.get c (clients w) with
      | Some info =>
          let (ok, w1) := send (Client c) (c_socket info) Heartbeat w in
          if ok then w1 else disconnect_client c w1
      | None => disconnect_client c w
      end
  | Client_closed c => disconnect_client c w
  | Technician_recv t m =>
      if Dict.mem t (technicians w) then process_technician_message t m w
      else disconnect_technician t w
  | Technician_timeout t =>
      match Dict.get t (technicians w) with
      | Some tech =>
          let (ok, w1) := send (Technician t) (t_socket tech) Heartbeat w in
          if ok then w1 else disconnect_technician t w1
      | None => disconnect_technician t w
      end
  | Technician_closed t => disconnect_technician t w
  | Heartbeat_tick => heartbeat_checker w
  | Stop => stop_server w
  end.

Definition run (ops : list op) (w : world) : world :=
  fold_left (fun w o => step o w) ops w.

(** The states of a broker started empty, under operations each of which
    the predicate [allowed] lets through in the state it meets. *)
Inductive reachable_by (allowed : world -> op -> Prop) : world -> Prop :=
| reach_init : forall r, reachable_by allowed (init r)
| reach_step : forall w o,
    reachable_by allowed w -> allowed w o ->
    reachable_by allowed (step o w).

Definition reachable : world -> Prop := reachable_by (fun _ _ => True).

(** *** Vocabulary of the properties *)

(** The socket operations performed between [w] and a later [w']. *)
Definition emitted (w w' : world) : list event :=
  skipn (List.length (wire w)) (wire w').

(** The sends among the events [l], in order: to whom, on which socket,
    what. *)
Definition sends (l : list event) : list (peer * nat * payload) :=
  flat_map
    (fun e => match e with
              | Send to s p _ => [(to, s, p)]
              | Close _ => []
              end) l.

(** A send to technician [t] that raised is among the events [l]. *)
Definition failed_send_to (t : string) (l : list event) : Prop :=
  exists s p, In (Send (Technician t) s p false) l.

(** No registered client has both [help_requested] and a [session_id]. *)
Definition exclusive (w : world) : Prop :=
  forall c info,
    Dict.get c (clients w) = Some info ->
    ~ (help_requested info = true /\ session_id info <> None).

(** No two active sessions have the same client or the same technician. *)
Definition no_sharing (w : world) : Prop :=
  forall s1 s2 a1 a2,
    Dict.get s1 (active_sessions w) = Some a1 ->
    Dict.get s2 (active_sessions w) = Some a2 ->
    client_id a1 = client_id a2 \/ tech_id a1 = tech_id a2 ->
    s1 = s2.

(** The key of every registered technician is a non-empty string. *)
Definition technician_ids_truthy (w : world) : Prop :=
  forall t, Dict.mem t (technicians w) = true -> t <> "".

(** The keys of [active_sessions] are distinct, as those of a dictionary
    are. *)
Definition sessions_wf (w : world) : Prop :=
  NoDup (Dict.keys (active_sessions w)).

(** A help request comes only from a client that is in no session. *)
Definition help_when_free (w : world) (o : op) : Prop :=
  forall c m rnd now info,
    o = Client_recv c m rnd now ->
    msg_type m = Some "help_request" ->
    Dict.get c (clients w) = Some info ->
    session_id info = None.

(** A control request is approved only when no active session has that
    client or that technician. *)
Definition approve_when_free (w : world) (o : op) : Prop :=
  forall c m rnd now t,
    o = Client_recv c m rnd now ->
    msg_type m = Some "control_response" ->
    msg_approved m = true ->
    msg_tech_id m = Some t ->
    forall s a,
      Dict.get s (active_sessions w) = Some a ->
      client_id a <> c /\ tech_id a <> t.

(** Every operation of [ops], run from [w], is let through by [allowed]. *)
Fixpoint guarded (allowed : world -> op -> Prop) (ops : list op) (w : world)
  : Prop :=
  match ops with
  | [] => True
  | o :: rest => allowed w o /\ guarded allowed rest (step o w)
  end.

(** *** Sample data: one client, two technicians *)

Definition plain (ty : string) : message :=
  mk_message (Some ty) None None None None false.

Definition approval (t : string) : message :=
  mk_message (Some "control_response") None None (Some t) None true.

Definition end_of (sid : string) : message :=
  mk_message (Some "end_session") None None None (Some sid) false.

(** The UUID whose text starts with the eight digits of [n]. *)
Definition uuid_of (n : N) : N := N.shiftl n 96.

Definition alice : string := uuid8 (uuid_of 1).
Definition bob : string := uuid8 (uuid_of 2).
Definition carol : string := uuid8 (uuid_of 3).

Definition alice_joins : op :=
  Connect 10 "10.0.0.1" (plain "client_connect") (uuid_of 1) "09:00:00".
Definition bob_joins : op :=
  Connect 20 "10.0.0.2" (plain "technician_connect") (uuid_of 2) "09:00:01".
Definition carol_joins : op :=
  Connect 30 "10.0.0.3" (plain "technician_connect") (uuid_of 3) "09:00:02".

Definition request_for (c : string) : message :=
  mk_message (Some "request_control") None (Some c) None None false.

Definition alice_asks_help : op :=
  Client_recv alice (plain "help_request") 0%N "09:00:30".
Definition bob_asks_alice : op := Technician_recv bob (request_for alice).
Definition carol_asks_alice : op := Technician_recv carol (request_for alice).

(** Alice approves Bob: session [00000005]. *)
Definition alice_approves_bob : op :=
  Client_recv alice (approval bob) (uuid_of 5) "09:01:00".

(** Alice and Bob registered, Alice in session with Bob after the usual
    exchange. *)
Definition session_of_alice_and_bob : list op :=
  [alice_joins; bob_joins; alice_asks_help; bob_asks_alice;
   alice_approves_bob].

(** A second client, Dave, whom Carol asks for. *)
Definition dave : string := uuid8 (uuid_of 4).

Definition dave_joins : op :=
  Connect 40 "10.0.0.4" (plain "client_connect") (uuid_of 4) "09:00:03".
Definition dave_asks_help : op :=
  Client_recv dave (plain "help_request") 0%N "09:01:10".
Definition carol_asks_dave : op := Technician_recv carol (request_for dave).

(** Dave approves Carol: session [00000006]. *)
Definition dave_approves_carol : op :=
  Client_recv dave (approval carol) (uuid_of 6) "09:02:00".

(** Alice in session with Bob, Carol and Dave registered, Dave asked for
    by Carol. *)
Definition carol_has_asked_dave : list op :=
  session_of_alice_and_bob
  ++ [carol_joins; dave_joins; dave_asks_help; carol_asks_dave].


(** Properties kept by what a failed broadcast sets off: the socket
    operations and the mutations of [disconnect_technician]. *)
Class Cascade (P : world -> Prop) : Prop := {
  cl_send : forall to s p w, P w -> P (snd (send to s p w));
  cl_close : forall s w, P w -> P (close s w);
  cl_del_session : forall s w,
    P w -> P (set_active_sessions (Dict.del s) w);
  cl_clear_session_id : forall c w,
    P w -> P (set_clients (Dict.update c (with_session_id None)) w);
  cl_del_technician : forall t w,
    P w -> P (set_technicians (Dict.del t) w)
}.

(** Properties kept moreover by the mutations of [disconnect_client]. *)
Class Cleanup (P : world -> Prop) : Prop := {
  cl_cascade :: Cascade P;
  cl_del_client : forall c w, P w -> P (set_clients (Dict.del c) w);
  cl_clear_assigned : forall t w,
    P w ->
    P (set_technicians (Dict.update t (with_assigned_client None)) w);
  cl_del_help : forall c w, P w -> P (set_help_requests (Dict.del c) w)
}.

(** Properties kept moreover by registration, by the bookkeeping of help
    requests other than the raising of the flag, and by a stop. *)
Class Stable (P : world -> Prop) : Prop := {
  st_cleanup :: Cleanup P;
  st_init : forall r, P (init r);
  st_stop : forall w,
    P w ->
    P (mk_world Dict.empty Dict.empty Dict.empty Dict.empty
                (raises w) (wire w));
  st_clear_help : forall c w,
    P w -> P (set_clients (Dict.update c (with_help_requested false)) w);
  st_set_help : forall c h w,
    P w -> P (set_help_requests (Dict.set c h) w);
  st_new_client : forall rnd s ip n now w,
    P w ->
    P (set_clients
         (Dict.set (uuid8 rnd) (mk_client s ip n false None now)) w);
  st_new_technician : forall rnd s ip n now w,
    P w ->
    P (set_technicians
         (Dict.set (uuid8 rnd) (mk_tech s ip n None now)) w)
}.

(** *** Vocabulary of further properties *)

(** The four registries of the broker. *)
Definition registries (w : world)
  : Dict.t client_info * Dict.t tech_info * Dict.t help_request
    * Dict.t active_session :=
  (clients w, technicians w, help_requests w, active_sessions w).

(** One send of [p] to each registered technician, in the order of the
    registry. *)
Definition to_all_technicians (p : payload) (w : world)
  : list (peer * nat * payload) :=
  map (fun e : string * tech_info =>
         (Technician (fst e), t_socket (snd e), p))
      (Dict.items (technicians w)).

(** The keys of [clients] are distinct, as those of a dictionary are. *)
Definition clients_wf (w : world) : Prop :=
  NoDup (Dict.keys (clients w)).

(** Every registered client whose [help_requested] is set has a pending
    entry in [help_requests]. *)
Definition pending_recorded (w : world) : Prop :=
  forall c info,
    Dict.get c (clients w) = Some info -> help_requested info = true ->
    exists h, Dict.get c (help_requests w) = Some h /\ status h = "pending".

(** The heartbeats of a round in which no send raises. *)
Definition heartbeats_of (w : world) : list event :=
  (flat_map
     (fun c => match Dict.get c (clients w) with
               | Some info => [Send (Client c) (c_socket info) Heartbeat true]
               | None => []
               end)
     (Dict.keys (clients w))
   ++ flat_map
        (fun t => match Dict.get t (technicians w) with
                  | Some tech =>
                      [Send (Technician t) (t_socket tech) Heartbeat true]
                  | None => []
                  end)
        (Dict.keys (technicians w)))%list.

End Mediator.

(* ================================================================== *)
(** ** The screen-frame protocol of the control channel *)

Module Framing.
Local Open Scope nat_scope.
Local Open Scope list_scope.

Definition bytes := list byte.

(** [size.to_bytes(4, byteorder='big')]; Python raises [OverflowError] when
    [size] does not fit in four bytes. *)
Definition to_bytes4 (size : N) : option bytes :=
  if (size <? 2 ^ 32)%N then
    match Byte.of_N (size / 2 ^ 24 mod 256), Byte.of_N (size / 2 ^ 16 mod 256),
          Byte.of_N (size / 2 ^ 8 mod 256), Byte.of_N (size mod 256) with
    | Some b3, Some b2, Some b1, Some b0 => Some [b3; b2; b1; b0]
    | _, _, _, _ => None
    end
  else None.

(** [int.from_bytes(bs, byteorder='big')] *)
Definition from_bytes (bs : bytes) : N :=
  fold_left (fun acc b => (acc * 256 + Byte.to_N b)%N) bs 0%N.

(** The two [sendall] calls of [send_screenshots] for a pickled packet
    [data]: what is written to the stream, or [None] when the size does not
    fit and nothing is written. *)
Definition send_frame (data : bytes) : option bytes :=
  match to_bytes4 (N.of_nat (List.length data)) with
  | Some size_bytes => Some (size_bytes ++ data)
  | None => None
  end.

(** What the transport hands to the next [recv]: some bytes, or a timeout or
    a connection error raised instead. *)
Inductive arrival :=
| Data (chunk : bytes)
| Timed_out
| Connection_lost.

(** A receiving socket: the arrivals to come.  Once they are used up the
    peer has closed and [recv] returns no bytes. *)
Definition socket := list arrival.

Inductive received :=
| Packet (p : bytes)
| Raised.

(** [sock.recv(bufsize)]: at most [bufsize] bytes of the next chunk; what
    does not fit stays for the next call. *)
Definition recv (bufsize : nat) (s : socket) : received * socket :=
  match s with
  | [] => (Packet [], [])
  | Data chunk :: rest =>
      if List.length chunk <=? bufsize then (Packet chunk, rest)
      else (Packet (firstn bufsize chunk), Data (skipn bufsize chunk) :: rest)
  | Timed_out :: rest => (Raised, rest)
  | Connection_lost :: rest => (Raised, rest)
  end.

(** The result of [_recv_all]: the bytes, or [None] as in the source;
    [Unfinished] marks a loop cut by the bound on its turns. *)
Inductive outcome :=
| Returned (r : option bytes)
| Unfinished.

(** The loop of [_recv_all n] with [data] collected so far.  Every turn
    that goes on adds a byte at least, so [turns] bounds the loop. *)
Fixpoint recv_all_loop (turns : nat) (n : nat) (data : bytes) (s : socket)
  : outcome * socket :=
  if List.length data <? n then
    match turns with
    | O => (Unfinished, s)
    | S turns' =>
        match recv (n - List.length data) s with
        | (Packet [], s') => (Returned None, s')
        | (Packet packet, s') => recv_all_loop turns' n (data ++ packet) s'
        | (Raised, s') => (Returned None, s')
        end
    end
  else (Returned (Some data), s).

(** [RemoteControlTechnicianWithMediator._recv_all] *)
Definition recv_all (n : nat) (s : socket) : outcome * socket :=
  recv_all_loop n n [] s.

(** The reading of one frame in [_receive_screenshots]: four bytes of size,
    then that many bytes.  [None] is the [break] of the loop: [_recv_all]
    gave [None], or it gave no byte at all. *)
Definition receive_frame (s : socket) : outcome * socket :=
  match recv_all 4 s with
  | (Returned (Some size_bytes), s1) =>
      match size_bytes with
      | [] => (Returned None, s1)
      | _ =>
          let size := N.to_nat (from_bytes size_bytes) in
          match recv_all size s1 with
          | (Returned (Some []), s2) => (Returned None, s2)
          | r => r
          end
      end
  | r => r
  end.

(** A delivery of [stream] in chunks, none of them empty. *)
Definition delivery_of (stream : bytes) (chunks : list bytes) : Prop :=
  List.concat chunks = stream /\ Forall (fun c => c <> []) chunks.

(** The delivery of a stream one byte at a time. *)
Definition bytewise (stream : bytes) : list bytes :=
  map (fun b => [b]) stream.

(** The bytes a socket still has to deliver. *)
Definition pending (s : socket) : bytes :=
  flat_map (fun a => match a with Data chunk => chunk | _ => [] end) s.


(** The loop of [_receive_screenshots] over at most [count] turns, up to
    the [break]: the packets it has read and shown.  [displays data] tells
    whether the rest of the loop body, from [pickle.loads(data)] to the
    update of the canvas, runs on [data] without an exception; an exception
    there ends the loop like a failed read. *)
Fixpoint receive_frames (displays : bytes -> bool) (count : nat)
  (s : socket) : list bytes :=
  match count with
  | O => []
  | S count' =>
      match receive_frame s with
      | (Returned (Some data), s') =>
          if displays data
          then data :: receive_frames displays count' s'
          else []
      | _ => []
      end
  end.


End Framing.

(* ================================================================== *)
(** ** The client agent's control listener *)

Module ClientAgent.
Local Open Scope nat_scope.
Local Open Scope list_scope.

(** The part of [RemoteControlClientWithMediator] the accept loop touches.
    [open_sockets] are the accepted technician connections not yet closed,
    [served] those handed to [handle_technician] and [send_screenshots]. *)
Record agent := mk_agent {
  control_running : bool;
  technician_socket : option nat;
  technician_address : option string;
  open_sockets : list nat;
  served : list nat;
  closed : list nat
}.

Definition initial : agent := mk_agent false None None [] [] [].

(** What [control_server_socket.accept()] gives: a connection, or
    [socket.error]. *)
Inductive accepted :=
| Connection (tech_socket : nat) (tech_address : string)
| Accept_error.

(** [sock.close()] *)
Definition close_socket (s : nat) (a : agent) : agent :=
  mk_agent (control_running a) (technician_socket a) (technician_address a)
           (filter (fun x => negb (Nat.eqb x s)) (open_sockets a))
           (served a) (closed a ++ [s]).

(** One turn of the loop of [accept_control_connections]; the boolean tells
    whether the loop goes on. *)
Definition accept_one (x : accepted) (a : agent) : agent * bool :=
  match x with
  | Accept_error => (a, false)
  | Connection tech_socket tech_address =>
      let a1 :=
        mk_agent (control_running a) (technician_socket a)
                 (technician_address a) (open_sockets a ++ [tech_socket])
                 (served a) (closed a) in
      match technician_socket a1 with
      | Some _ => (close_socket tech_socket a1, true)
      | None =>
          (mk_agent (control_running a1) (Some tech_socket)
                    (Some tech_address) (open_sockets a1)
                    (served a1 ++ [tech_socket]) (closed a1), true)
      end
  end.

(** [accept_control_connections] over the accepts to come. *)
Fixpoint accept_control_connections (incoming : list accepted) (a : agent)
  : agent :=
  match incoming with
  | [] => a
  | x :: rest =>
      if control_running a then
        let (a1, go_on) := accept_one x a in
        if go_on then accept_control_connections rest a1 else a1
      else a
  end.

(** [RemoteControlClientWithMediator.disconnect_technician] *)
Definition disconnect_technician (a : agent) : agent :=
  match technician_socket a with
  | Some s =>
      let a1 := close_socket s a in
      mk_agent (control_running a1) None None (open_sockets a1)
               (served a1) (closed a1)
  | None => a
  end.

(** [stop_control_server] *)
Definition stop_control_server (a : agent) : agent :=
  let a1 :=
    mk_agent false (technician_socket a) (technician_address a)
             (open_sockets a) (served a) (closed a) in
  disconnect_technician a1.

(** [start_control_server], the listener being created without error. *)
Definition start_control_server (a : agent) : agent :=
  if control_running a then a
  else mk_agent true (technician_socket a) (technician_address a)
                (open_sockets a) (served a) (closed a).

Inductive action :=
| Start
| Accept (x : accepted)
| Technician_gone
| Stop_server.

Definition act (o : action) (a : agent) : agent :=
  match o with
  | Start => start_control_server a
  | Accept x =>
      if control_running a then fst (accept_one x a) else a
  | Technician_gone => disconnect_technician a
  | Stop_server => stop_control_server a
  end.

(** The states of an agent under accepts of sockets that are new. *)
Inductive reachable : agent -> Prop :=
| reach_initial : reachable initial
| reach_act : forall a o,
    reachable a ->
    (forall s addr, o = Accept (Connection s addr) ->
                    ~ In s (open_sockets a)) ->
    reachable (act o a).

(** The sockets of the connections the loop accepts, up to the first
    error. *)
Fixpoint accepted_sockets (incoming : list accepted) : list nat :=
  match incoming with
  | Connection s _ :: rest => s :: accepted_sockets rest
  | _ => []
  end.

(** The technician control sockets the agent holds. *)
Definition held (a : agent) : list nat :=
  match technician_socket a with
  | Some s => [s]
  | None => []
  end.

(** *** The sending loop of [send_screenshots] *)

(** How one turn of the loop ends: the frame is sent, or the turn raises
    [ConnectionError], [socket.timeout] or another exception. *)
Inductive attempt :=
| Frame_sent
| Connection_error
| Send_timeout
| Other_error.

Definition max_failures : nat := 5.

Definition is_failure (x : attempt) : bool :=
  match x with
  | Send_timeout | Other_error => true
  | _ => false
  end.

(** The loop of [send_screenshots] over the turns to come, the listener
    running and the technician connected: [Some k] when the loop breaks in
    turn [k] (counted from 0, after [turn] turns already run), [None] when
    it is still running after all of them. *)
Fixpoint send_screenshots_loop (consecutive_failures turn : nat)
  (attempts : list attempt) : option nat :=
  match attempts with
  | [] => None
  | Frame_sent :: rest => send_screenshots_loop 0 (S turn) rest
  | Connection_error :: _ => Some turn
  | Send_timeout :: rest | Other_error :: rest =>
      if max_failures <=? S consecutive_failures then Some turn
      else send_screenshots_loop (S consecutive_failures) (S turn) rest
  end.

(** [send_screenshots]: the loop, and the [finally] that disconnects the
    technician when the loop has ended. *)
Definition send_screenshots (attempts : list attempt) (a : agent) : agent :=
  match send_screenshots_loop 0 0 attempts with
  | Some _ => disconnect_technician a
  | None => a
  end.

(** Every socket handed to the handlers is the one in [technician_socket]
    or has been closed. *)
Definition no_leak (a : agent) : Prop :=
  forall s, In s (served a) -> technician_socket a = Some s \/ In s (closed a).

(** Some [k] turns in a row, somewhere in [attempts], all end in a timeout
    or in an exception other than [ConnectionError]. *)
Definition failures_in_a_row (k : nat) (attempts : list attempt) : Prop :=
  exists before fs after,
    attempts = before ++ fs ++ after /\
    List.length fs = k /\ forallb is_failure fs = true.

(** The number of failures [attempts] starts with. *)
Fixpoint leading_failures (attempts : list attempt) : nat :=
  match attempts with
  | x :: rest => if is_failure x then S (leading_failures rest) else 0
  | [] => 0
  end.

End ClientAgent.

(* ================================================================== *)
(** ** The technician console's side of the signaling *)

Module Console.
Import Mediator.
Local Open Scope list_scope.

(** An entry of the console's list of help requests. *)
Record request := mk_request {
  r_name : option string;
  r_ip : string;
  r_timestamp : string
}.

(** The part of [RemoteControlTechnicianWithMediator] that the messages of
    the mediator touch.  [send_raises] tells whether each coming send on the
    mediator socket raises; [outbox] holds the messages written to it. *)
Record console := mk_console {
  mediator_connected : bool;
  technician_id : option string;
  help_requests : Dict.t request;
  current_client_ip : option string;
  current_session_id : option string;
  control_connected : bool;
  control_running : bool;
  send_raises : list bool;
  outbox : list message
}.

Definition initial (r : list bool) : console :=
  mk_console false None Dict.empty None None false false r [].

Definition set_help_requests (f : Dict.t request -> Dict.t request)
  (k : console) : console :=
  mk_console (mediator_connected k) (technician_id k) (f (help_requests k))
             (current_client_ip k) (current_session_id k)
             (control_connected k) (control_running k) (send_raises k)
             (outbox k).

(** [self.mediator_socket.send(json.dumps(m).encode('utf-8'))]; the result
    tells whether the call returned normally. *)
Definition send_to_mediator (m : message) (k : console) : bool * console :=
  let raised := hd false (send_raises k) in
  (negb raised,
   mk_console (mediator_connected k) (technician_id k) (help_requests k)
              (current_client_ip k) (current_session_id k)
              (control_connected k) (control_running k)
              (tl (send_raises k))
              (if raised then outbox k else outbox k ++ [m])).

(** [add_help_request] *)
Definition add_help_request (c : string) (name : option string)
  (ip timestamp : string) (k : console) : console :=
  set_help_requests (Dict.set c (mk_request name ip timestamp)) k.

(** [remove_help_request] *)
Definition remove_help_request (c : string) (k : console) : console :=
  if Dict.mem c (help_requests k)
  then set_help_requests (Dict.del c) k else k.

(** [update_help_requests] *)
Definition update_help_requests (requests_list : list help_entry)
  (k : console) : console :=
  fold_left
    (fun k e =>
       set_help_requests
         (Dict.set (he_client_id e)
            (mk_request (he_name e) (he_ip e) (he_timestamp e))) k)
    requests_list
    (set_help_requests (fun _ => Dict.empty) k).

(** [handle_control_approved]; the direct connection is opened by a thread
    of its own, see [connect_to_client]. *)
Definition handle_control_approved (client_ip session_id : string)
  (k : console) : console :=
  mk_console (mediator_connected k) (technician_id k) (help_requests k)
             (Some client_ip) (Some session_id)
             (control_connected k) (control_running k) (send_raises k)
             (outbox k).

(** [process_mediator_message], for the objects the broker writes. *)
Definition process_mediator_message (p : payload) (k : console) : console :=
  match p with
  | New_help_request c name ip timestamp =>
      add_help_request c name ip timestamp k
  | Help_cancelled c => remove_help_request c k
  | Client_disconnected c => remove_help_request c k
  | Client_unavailable c => remove_help_request c k
  | Control_approved _ client_ip _ session_id =>
      handle_control_approved client_ip session_id k
  | Control_denied _ _ => k
  | Heartbeat => snd (send_to_mediator (plain "heartbeat_response") k)
  | _ => k
  end.

(** [request_control]; [selected] is the row selected in the list. *)
Definition request_control (selected : option string) (k : console)
  : console :=
  match selected with
  | None => k
  | Some c =>
      if negb (mediator_connected k) then k
      else match Dict.get c (help_requests k) with
           | None => k
           | Some _ => snd (send_to_mediator (request_for c) k)
           end
  end.

(** [connect_to_client], the connection being made. *)
Definition connect_to_client (k : console) : console :=
  mk_console (mediator_connected k) (technician_id k) (help_requests k)
             (current_client_ip k) (current_session_id k) true true
             (send_raises k) (outbox k).

(** [disconnect_from_client] *)
Definition disconnect_from_client (k : console) : console :=
  let k1 :=
    mk_console (mediator_connected k) (technician_id k) (help_requests k)
               (current_client_ip k) (current_session_id k) false false
               (send_raises k) (outbox k) in
  let k2 :=
    match current_session_id k1 with
    | Some sid =>
        if mediator_connected k1 && truthy (current_session_id k1)
        then snd (send_to_mediator (end_of sid) k1) else k1
    | None => k1
    end in
  mk_console (mediator_connected k2) (technician_id k2) (help_requests k2)
             None None (control_connected k2) (control_running k2)
             (send_raises k2) (outbox k2).

(** [disconnect_from_mediator] *)
Definition disconnect_from_mediator (k : console) : console :=
  mk_console false None Dict.empty (current_client_ip k)
             (current_session_id k) (control_connected k)
             (control_running k) (send_raises k) (outbox k).

(** [connect_to_mediator], once the broker's welcome has come with the
    technician's id and the open help requests. *)
Definition connect_to_mediator (id : string) (requests_list : list help_entry)
  (k : console) : console :=
  if mediator_connected k then k
  else
    update_help_requests requests_list
      (mk_console true (Some id) (help_requests k) (current_client_ip k)
                  (current_session_id k) (control_connected k)
                  (control_running k) (send_raises k) (outbox k)).

(** What happens at the console. *)
Inductive action :=
| Join (id : string) (requests_list : list help_entry)
| Receive (p : payload)
| Request (selected : option string)
| Client_reached
| Leave_client
| Leave_mediator.

(** [handle_mediator_messages] processes a message only while connected. *)
Definition act (o : action) (k : console) : console :=
  match o with
  | Join id requests_list => connect_to_mediator id requests_list k
  | Receive p =>
      if mediator_connected k then process_mediator_message p k
      else disconnect_from_mediator k
  | Request selected => request_control selected k
  | Client_reached => connect_to_client k
  | Leave_client => disconnect_from_client k
  | Leave_mediator => disconnect_from_mediator k
  end.

Definition run (ops : list action) (k : console) : console :=
  fold_left (fun k o => act o k) ops k.

(** Whether a payload adds client [c] to the list, removes it, or leaves
    the list alone. *)
Definition verdict (c : string) (p : payload) : option bool :=
  match p with
  | New_help_request c' _ _ _ => if String.eqb c' c then Some true else None
  | Help_cancelled c' | Client_disconnected c' | Client_unavailable c' =>
      if String.eqb c' c then Some false else None
  | _ => None
  end.

(** The verdict of the last payload of [ps] that has one for [c]. *)
Fixpoint last_verdict (c : string) (ps : list payload) (before : bool)
  : bool :=
  match ps with
  | [] => before
  | p :: rest =>
      last_verdict c rest
        match verdict c p with Some b => b | None => before end
  end.

(** The [end_session] messages among [ms]: their session ids. *)
Definition ended_sessions (ms : list message) : list string :=
  flat_map
    (fun m => match msg_type m, msg_session_id m with
              | Some ty, Some sid =>
                  if String.eqb ty "end_session" then [sid] else []
              | _, _ => []
              end) ms.

(** The sessions the broker has announced in the actions [ops]. *)
Definition approved_sessions (ops : list action) : list string :=
  flat_map
    (fun o => match o with
              | Receive (Control_approved _ _ _ sid) => [sid]
              | _ => []
              end) ops.

(** [l] is [l'] with some of its elements left out, the order kept. *)
Inductive subsequence : list string -> list string -> Prop :=
| sub_nil : forall l', subsequence [] l'
| sub_skip : forall x l l', subsequence l l' -> subsequence l (x :: l')
| sub_take : forall x l l',
    subsequence l l' -> subsequence (x :: l) (x :: l').

(** The [end_session] messages sent are among the approvals already
    matched, and the current session among those that follow them. *)
Definition sessions_matched (k : console) (done : list action) : Prop :=
  exists a1 a2,
    approved_sessions done = a1 ++ a2 /\
    subsequence (ended_sessions (outbox k)) a1 /\
    forall sid, current_session_id k = Some sid -> In sid a2.

End Console.

(* ================================================================== *)
(** ** The client program's side of the signaling *)

Module Desk.
Import Mediator.
Local Open Scope list_scope.

(** The part of [RemoteControlClientWithMediator] that its exchange with
    the mediator touches.  [send_raises] tells whether each coming send on
    the mediator socket raises; [outbox] holds the messages written to it
    once the client is registered. *)
Record desk := mk_desk {
  mediator_connected : bool;
  client_id : option string;
  help_requested : bool;
  current_session_id : option string;
  technician_socket : option nat;
  send_raises : list bool;
  outbox : list message
}.

Definition initial (r : list bool) : desk :=
  mk_desk false None false None None r [].

Definition set_help_requested (b : bool) (d : desk) : desk :=
  mk_desk (mediator_connected d) (client_id d) b (current_session_id d)
          (technician_socket d) (send_raises d) (outbox d).

(** [self.mediator_socket.send(json.dumps(m).encode('utf-8'))]; the result
    tells whether the call returned normally. *)
Definition send_to_mediator (m : message) (d : desk) : bool * desk :=
  let raised := hd false (send_raises d) in
  (negb raised,
   mk_desk (mediator_connected d) (client_id d) (help_requested d)
           (current_session_id d) (technician_socket d)
           (tl (send_raises d))
           (if raised then outbox d else outbox d ++ [m])).

(** [connect_to_mediator], once the broker's welcome has come with the
    client's id. *)
Definition connect_to_mediator (id : string) (d : desk) : desk :=
  if mediator_connected d then d
  else mk_desk true (Some id) (help_requested d) (current_session_id d)
               (technician_socket d) (send_raises d) (outbox d).

(** [disconnect_from_mediator] *)
Definition disconnect_from_mediator (d : desk) : desk :=
  mk_desk false None false None (technician_socket d) (send_raises d)
          (outbox d).

(** The [control_response] of [handle_control_request]. *)
Definition response_to (tech_id : option string) (result : bool) : message :=
  mk_message (Some "control_response") None None tech_id None result.

(** [handle_control_request]; [result] is the answer given in the dialog. *)
Definition handle_control_request (tech_id : option string) (result : bool)
  (d : desk) : desk :=
  let (ok, d1) := send_to_mediator (response_to tech_id result) d in
  if ok && result then set_help_requested false d1 else d1.

(** [process_mediator_message], for the objects the broker writes. *)
Definition process_mediator_message (p : payload) (result : bool) (d : desk)
  : desk :=
  match p with
  | Help_confirmed => d
  | Control_request _ _ tech_id =>
      handle_control_request (Some tech_id) result d
  | Heartbeat => snd (send_to_mediator (plain "heartbeat_response") d)
  | _ => d
  end.

(** [request_help] *)
Definition request_help (d : desk) : desk :=
  if negb (mediator_connected d) || help_requested d then d
  else
    let (ok, d1) := send_to_mediator (plain "help_request") d in
    if ok then set_help_requested true d1 else d1.

(** [cancel_help] *)
Definition cancel_help (d : desk) : desk :=
  if negb (mediator_connected d) || negb (help_requested d) then d
  else
    let (ok, d1) := send_to_mediator (plain "cancel_help") d in
    if ok then set_help_requested false d1 else d1.

(** [disconnect_technician], as far as the signaling sees it. *)
Definition disconnect_technician (d : desk) : desk :=
  mk_desk (mediator_connected d) (client_id d) (help_requested d)
          (current_session_id d) None (send_raises d) (outbox d).

(** [end_session]; [result] is the answer given in the dialog. *)
Definition end_session (result : bool) (d : desk) : desk :=
  match technician_socket d with
  | None => d
  | Some _ =>
      if result then
        let d1 :=
          match current_session_id d with
          | Some sid =>
              if mediator_connected d && truthy (current_session_id d)
              then snd (send_to_mediator (end_of sid) d) else d
          | None => d
          end in
        let d2 := disconnect_technician d1 in
        mk_desk (mediator_connected d2) (client_id d2) (help_requested d2)
                None (technician_socket d2) (send_raises d2) (outbox d2)
      else d
  end.

(** The accept loop takes a technician, see [ClientAgent.accept_one]. *)
Definition technician_arrives (s : nat) (d : desk) : desk :=
  match technician_socket d with
  | Some _ => d
  | None =>
      mk_desk (mediator_connected d) (client_id d) (help_requested d)
              (current_session_id d) (Some s) (send_raises d) (outbox d)
  end.

(** What happens at the client program. *)
Inductive action :=
| Join (id : string)
| Receive (p : payload) (result : bool)
| Ask_help
| Cancel_help
| Technician_arrives (s : nat)
| Technician_leaves
| End_session (result : bool)
| Leave.

(** [handle_mediator_messages] processes a message only while connected. *)
Definition act (o : action) (d : desk) : desk :=
  match o with
  | Join id => connect_to_mediator id d
  | Receive p result =>
      if mediator_connected d then process_mediator_message p result d
      else disconnect_from_mediator d
  | Ask_help => request_help d
  | Cancel_help => cancel_help d
  | Technician_arrives s => technician_arrives s d
  | Technician_leaves => disconnect_technician d
  | End_session result => end_session result d
  | Leave => disconnect_from_mediator d
  end.

Definition run (ops : list action) (d : desk) : desk :=
  fold_left (fun d o => act o d) ops d.

(** Whether a message the client writes opens a help request at the
    broker, closes it, or leaves it alone. *)
Definition asks (m : message) : option bool :=
  match msg_type m with
  | Some ty =>
      if String.eqb ty "help_request" then Some true
      else if String.eqb ty "cancel_help" then Some false
      else if String.eqb ty "control_response" then
        if msg_approved m then Some false else None
      else None
  | None => None
  end.

(** The help request left open by the messages [ms]. *)
Fixpoint asked (ms : list message) (before : bool) : bool :=
  match ms with
  | [] => before
  | m :: rest =>
      asked rest match asks m with Some b => b | None => before end
  end.

(** The action neither joins the broker nor leaves it. *)
Definition stays (o : action) : bool :=
  match o with
  | Join _ | Leave => false
  | _ => true
  end.

End Desk.

(* ================================================================== *)
(** ** Facts about dictionaries *)

Module DictFacts.
Section WithValue.
Context {V : Type}.
Implicit Types (d : Dict.t V) (k : string) (v : V).

Lemma get_set_eq k v d : Dict.get k (Dict.set k v d) = Some v.
Proof.
  induction d as [|[k' v'] r IH]; simpl.
  - now rewrite String.eqb_refl.
  - destruct (String.eqb k k') eqn:E; simpl.
    + now rewrite String.eqb_refl.
    + now rewrite E.
Qed.

Lemma get_set_ne k k' v d :
  k <> k' -> Dict.get k' (Dict.set k v d) = Dict.get k' d.
Proof.
  intros Hne. induction d as [|[k0 v0] r IH]; simpl.
  - destruct (String.eqb_spec k' k); congruence.
  - destruct (String.eqb_spec k k0) as [->|]; simpl.
    + destruct (String.eqb_spec k' k0); congruence.
    + destruct (String.eqb_spec k' k0); congruence.
Qed.

Lemma get_del_eq k d : Dict.get k (Dict.del k d) = None.
Proof.
  induction d as [|[k' v'] r IH]; simpl; auto.
  destruct (String.eqb k k') eqn:E; simpl; auto.
  now rewrite E.
Qed.

Lemma get_del_ne k k' d :
  k <> k' -> Dict.get k' (Dict.del k d) = Dict.get k' d.
Proof.
  intros Hne. induction d as [|[k0 v0] r IH]; simpl; auto.
  destruct (String.eqb_spec k k0) as [->|]; simpl.
  - destruct (String.eqb_spec k' k0); congruence.
  - destruct (String.eqb_spec k' k0); congruence.
Qed.

Lemma get_del_some k k' v d :
  Dict.get k' (Dict.del k d) = Some v -> k <> k' /\ Dict.get k' d = Some v.
Proof.
  intros H. destruct (String.eqb_spec k k') as [->|Hne].
  - rewrite get_del_eq in H. discriminate.
  - split; auto. now rewrite get_del_ne in H.
Qed.

Lemma get_update_eq k f d :
  Dict.get k (Dict.update k f d) = option_map f (Dict.get k d).
Proof.
  unfold Dict.update. destruct (Dict.get k d) eqn:E; simpl.
  - apply get_set_eq.
  - exact E.
Qed.

Lemma get_update_ne k k' f d :
  k <> k' -> Dict.get k' (Dict.update k f d) = Dict.get k' d.
Proof.
  intros Hne. unfold Dict.update.
  destruct (Dict.get k d); auto using get_set_ne.
Qed.

Lemma get_update_some k k' f v d :
  Dict.get k' (Dict.update k f d) = Some v ->
  exists v0, Dict.get k' d = Some v0 /\ (v = v0 \/ (k = k' /\ v = f v0)).
Proof.
  intros H. destruct (String.eqb_spec k k') as [->|Hne].
  - rewrite get_update_eq in H.
    destruct (Dict.get k' d) as [v0|]; [|discriminate].
    simpl in H. injection H as <-. eauto.
  - rewrite get_update_ne in H by assumption. eauto.
Qed.

Lemma mem_true k d : Dict.mem k d = true <-> exists v, Dict.get k d = Some v.
Proof.
  unfold Dict.mem. destruct (Dict.get k d); split; intros H; eauto.
  - discriminate.
  - destruct H; discriminate.
Qed.

Lemma mem_false k d : Dict.mem k d = false <-> Dict.get k d = None.
Proof.
  unfold Dict.mem. destruct (Dict.get k d); split; congruence.
Qed.

Lemma mem_del_eq k d : Dict.mem k (Dict.del k d) = false.
Proof. apply mem_false, get_del_eq. Qed.

Lemma mem_del_false k k' d :
  Dict.mem k' d = false -> Dict.mem k' (Dict.del k d) = false.
Proof.
  rewrite !mem_false. intros H.
  destruct (String.eqb_spec k k') as [->|Hne].
  - apply get_del_eq.
  - now rewrite get_del_ne.
Qed.

Lemma mem_update k k' f d : Dict.mem k' (Dict.update k f d) = Dict.mem k' d.
Proof.
  unfold Dict.mem. destruct (String.eqb_spec k k') as [->|Hne].
  - rewrite get_update_eq. now destruct (Dict.get k' d).
  - now rewrite get_update_ne.
Qed.

Lemma del_absent k d : Dict.get k d = None -> Dict.del k d = d.
Proof.
  induction d as [|[k' v'] r IH]; simpl; auto.
  destruct (String.eqb k k'); [discriminate|].
  intros H. now rewrite IH.
Qed.

Lemma get_in k v d : Dict.get k d = Some v -> In (k, v) (Dict.items d).
Proof.
  unfold Dict.items. induction d as [|[k' v'] r IH]; simpl; [discriminate|].
  destruct (String.eqb_spec k k') as [->|Hne]; intros H.
  - left. congruence.
  - right. auto.
Qed.

Lemma in_items_mem k v d : In (k, v) (Dict.items d) -> Dict.mem k d = true.
Proof.
  unfold Dict.items, Dict.mem.
  induction d as [|[k' v'] r IH]; simpl; [tauto|].
  intros [H|H].
  - injection H as -> ->. now rewrite String.eqb_refl.
  - destruct (String.eqb k k'); auto.
Qed.

Lemma in_keys_mem k d : In k (Dict.keys d) -> Dict.mem k d = true.
Proof.
  unfold Dict.keys. rewrite in_map_iff. intros [[k' v] [E H]].
  simpl in E. subst. eapply in_items_mem; eauto.
Qed.

Lemma in_keys_del k k' d :
  In k' (Dict.keys (Dict.del k d)) -> In k' (Dict.keys d).
Proof.
  unfold Dict.keys. induction d as [|[k0 v0] r IH]; simpl; auto.
  destruct (String.eqb k k0); simpl; intuition.
Qed.

Lemma in_keys_set k k' v d :
  In k' (Dict.keys (Dict.set k v d)) -> k' = k \/ In k' (Dict.keys d).
Proof.
  unfold Dict.keys. induction d as [|[k0 v0] r IH]; simpl.
  - intuition.
  - destruct (String.eqb_spec k k0) as [->|Hne]; simpl; intuition.
Qed.

Lemma nodup_del k d :
  NoDup (Dict.keys d) -> NoDup (Dict.keys (Dict.del k d)).
Proof.
  unfold Dict.keys. induction d as [|[k0 v0] r IH]; simpl; auto.
  intros H. inversion H as [|? ? Hn Hr]; subst.
  destruct (String.eqb k k0); auto.
  simpl. constructor; auto. intros Hin. apply Hn.
  now apply in_keys_del in Hin.
Qed.

Lemma nodup_set k v d :
  NoDup (Dict.keys d) -> NoDup (Dict.keys (Dict.set k v d)).
Proof.
  unfold Dict.keys. induction d as [|[k0 v0] r IH]; simpl.
  - intros _. constructor; [intros []|constructor].
  - intros H. inversion H as [|? ? Hn Hr]; subst.
    destruct (String.eqb_spec k k0) as [->|Hne]; simpl.
    + now constructor.
    + constructor; auto. intros Hin.
      apply in_keys_set in Hin as [->|Hin]; [congruence|auto].
Qed.

Lemma nodup_in_get k v d :
  NoDup (Dict.keys d) -> In (k, v) (Dict.items d) -> Dict.get k d = Some v.
Proof.
  unfold Dict.keys, Dict.items.
  induction d as [|[k0 v0] r IH]; simpl; [tauto|].
  intros H Hin. inversion H as [|? ? Hn Hr]; subst.
  destruct Hin as [E|Hin].
  - injection E as -> ->. now rewrite String.eqb_refl.
  - destruct (String.eqb_spec k k0) as [->|Hne]; auto.
    exfalso. apply Hn. apply in_map_iff. now exists (k0, v).
Qed.

End WithValue.
End DictFacts.

(* ================================================================== *)
(** ** Properties of the mediator broker *)

Module MediatorFacts.
Import Mediator DictFacts.
Local Open Scope list_scope.

(** *** Invariants through the cascade of disconnects *)

Lemma send_snd to s p w ok w1 :
  send to s p w = (ok, w1) -> w1 = snd (send to s p w).
Proof. intros E. now rewrite E. Qed.

Lemma fold_left_keeps {A B} (P : A -> Prop) (f : A -> B -> A) (l : list B) :
  (forall a b, P a -> P (f a b)) -> forall a, P a -> P (fold_left f l a).
Proof.
  intros Hf. induction l as [|b l IH]; simpl; auto.
Qed.

Ltac instance := try solve [typeclasses eauto].

Ltac cleanup :=
  repeat first
    [ assumption | apply cl_send | apply cl_close | apply cl_del_session
    | apply cl_clear_session_id | apply cl_del_client
    | apply cl_clear_assigned | apply cl_del_technician | apply cl_del_help ];
  instance.

Ltac split_send :=
  match goal with
  | |- context [let (_, _) := send ?to ?s ?p ?w in _] =>
      let E := fresh "E" in
      destruct (send to s p w) as [? ?] eqn:E;
      apply send_snd in E; subst
  end.

Section Cascading.
Context (P : world -> Prop) `{!Cascade P}.

Lemma disconnect_technician_keeps t w :
  P w -> P (disconnect_technician t w).
Proof.
  intros HP. unfold disconnect_technician.
  destruct (Dict.get t (technicians w)) as [tech|]; auto.
  apply cl_del_technician, cl_close.
  destruct (truthy (assigned_client tech)
            && mem_opt (assigned_client tech) (clients w)); auto.
  destruct (assigned_client tech) as [c|]; auto.
  destruct (session_of_tech t (active_sessions w)) as [[sid ?]|];
    try solve [cleanup].
Qed.

Lemma broadcast_one_keeps p ex w entry :
  P w -> P (broadcast_one p ex w entry).
Proof.
  intros HP. unfold broadcast_one. destruct entry as [t tech].
  destruct (excluded ex t); auto.
  split_send. destruct b; [|apply disconnect_technician_keeps]; cleanup.
Qed.

Lemma broadcast_keeps p ex w :
  P w -> P (broadcast_to_technicians p ex w).
Proof.
  unfold broadcast_to_technicians. apply fold_left_keeps.
  intros; now apply broadcast_one_keeps.
Qed.

End Cascading.

Section Cleaning.
Context (P : world -> Prop) `{!Cleanup P}.

Lemma disconnect_client_keeps c w :
  P w -> P (disconnect_client c w).
Proof.
  intros HP. unfold disconnect_client.
  destruct (Dict.get c (clients w)) as [info|]; auto.
  apply broadcast_keeps; instance. apply cl_del_client, cl_close; instance.
  match goal with
  | |- P (if Dict.mem c (help_requests ?w1) then _ else _) =>
      assert (H1 : P w1); [|destruct (Dict.mem c (help_requests w1));
                             try solve [cleanup]]
  end.
  destruct (session_id info) as [s|]; auto.
  destruct (truthy (Some s) && Dict.mem s (active_sessions w)); auto.
  destruct (option_map _ _) as [t|]; try solve [cleanup].
  destruct (Dict.mem t _); try solve [cleanup].
Qed.

Lemma heartbeat_client_keeps w c : P w -> P (heartbeat_client w c).
Proof.
  intros HP. unfold heartbeat_client.
  destruct (Dict.get c (clients w)); [|now apply disconnect_client_keeps].
  split_send. destruct b; [|apply disconnect_client_keeps]; cleanup.
Qed.

Lemma heartbeat_technician_keeps w t : P w -> P (heartbeat_technician w t).
Proof.
  intros HP. unfold heartbeat_technician.
  destruct (Dict.get t (technicians w));
    [|apply disconnect_technician_keeps; instance; assumption].
  split_send. destruct b; [|apply disconnect_technician_keeps]; cleanup.
Qed.

Lemma heartbeat_checker_keeps w : P w -> P (heartbeat_checker w).
Proof.
  intros HP. unfold heartbeat_checker.
  apply fold_left_keeps; [intros; now apply heartbeat_technician_keeps|].
  apply fold_left_keeps; [intros; now apply heartbeat_client_keeps|].
  assumption.
Qed.

Lemma handle_control_request_keeps t m w :
  P w -> P (handle_control_request t m w).
Proof.
  intros HP. unfold handle_control_request.
  destruct (msg_client_id m) as [c|]; auto.
  destruct (Dict.get c (clients w)); auto.
  destruct (Dict.get t (technicians w)); try solve [cleanup].
Qed.

Lemma handle_end_session_keeps t m w :
  P w -> P (handle_end_session t m w).
Proof.
  intros HP. unfold handle_end_session.
  destruct (msg_session_id m) as [sid|]; auto.
  destruct (Dict.get sid (active_sessions w)) as [a|]; auto.
  destruct (Dict.mem t _); [apply cl_clear_assigned|];
    (destruct (Dict.mem (client_id a) _); try solve [cleanup]).
Qed.

Lemma process_technician_message_keeps t m w :
  P w -> P (process_technician_message t m w).
Proof.
  intros HP. unfold process_technician_message.
  destruct (msg_type m) as [ty|]; auto.
  destruct (String.eqb ty "request_control");
    [now apply handle_control_request_keeps|].
  destruct (String.eqb ty "end_session");
    [now apply handle_end_session_keeps|].
  destruct (String.eqb ty "heartbeat_response"); auto.
Qed.

End Cleaning.

Section Steady.
Context (P : world -> Prop) `{!Stable P}.

Lemma handle_cancel_help_keeps c w : P w -> P (handle_cancel_help c w).
Proof.
  intros HP. unfold handle_cancel_help.
  destruct (negb (Dict.mem c (clients w))); auto.
  apply broadcast_keeps; [typeclasses eauto|].
  destruct (Dict.mem c _); [apply cl_del_help|]; now apply st_clear_help.
Qed.

Lemma handle_help_request_keeps c now w :
  P w ->
  (Dict.mem c (clients w) = true ->
   P (set_clients (Dict.update c (with_help_requested true)) w)) ->
  P (handle_help_request c now w).
Proof.
  intros HP Hmark. unfold handle_help_request.
  destruct (Dict.mem c (clients w)); cbv beta iota zeta delta [negb]; auto.
  specialize (Hmark eq_refl).
  match goal with
  | |- P (match Dict.get c (clients ?w2) with _ => _ end) =>
      assert (H2 : P w2) by now apply st_set_help
  end.
  destruct (Dict.get c _) as [info|]; auto.
  match goal with
  | |- P (match Dict.get c (clients ?w3) with _ => _ end) =>
      assert (H3 : P w3) by (apply broadcast_keeps; [typeclasses eauto|auto])
  end.
  destruct (Dict.get c _); auto. now apply cl_send.
Qed.

Lemma handle_control_response_keeps c m rnd now w :
  P w ->
  (forall t,
     msg_tech_id m = Some t -> msg_approved m = true ->
     Dict.mem t (technicians w) = true -> Dict.mem c (clients w) = true ->
     P (start_session c t (uuid8 rnd) now w)) ->
  P (handle_control_response c m rnd now w).
Proof.
  intros HP Hstart. unfold handle_control_response.
  destruct (msg_tech_id m) as [t|]; auto.
  specialize (Hstart t eq_refl). unfold Dict.mem in Hstart.
  destruct (Dict.get t (technicians w)) as [tech|]; auto.
  destruct (Dict.get c (clients w)) as [info|]; auto.
  destruct (msg_approved m); [|now apply cl_send].
  apply broadcast_keeps; [typeclasses eauto|]. apply cl_send. auto.
Qed.

Lemma handle_connection_keeps sock ip m rnd now w :
  P w -> P (handle_connection sock ip m rnd now w).
Proof.
  intros HP. unfold handle_connection.
  destruct (msg_type m) as [ty|]; [|now apply cl_close].
  destruct (String.eqb ty "client_connect").
  - unfold handle_client_connection. split_send.
    destruct b; [|apply disconnect_client_keeps; [typeclasses eauto|]];
      apply cl_send; now apply st_new_client.
  - destruct (String.eqb ty "technician_connect"); [|now apply cl_close].
    unfold handle_technician_connection. split_send.
    destruct b; [|apply disconnect_technician_keeps; [typeclasses eauto|]];
      apply cl_send; now apply st_new_technician.
Qed.

Lemma stop_server_keeps w : P w -> P (stop_server w).
Proof.
  intros HP. unfold stop_server. apply st_stop.
  apply fold_left_keeps; [intros; now apply cl_close|].
  apply fold_left_keeps; [intros; now apply cl_close|]. assumption.
Qed.

(** A step keeps [P] as soon as the two mutations that are not part of
    [Stable], the raising of [help_requested] and the start of a session,
    keep it where the step makes them. *)
Lemma step_keeps o w :
  P w ->
  (forall c m rnd now,
     o = Client_recv c m rnd now -> msg_type m = Some "help_request" ->
     Dict.mem c (clients w) = true ->
     P (set_clients (Dict.update c (with_help_requested true)) w)) ->
  (forall c m rnd now t,
     o = Client_recv c m rnd now -> msg_type m = Some "control_response" ->
     msg_tech_id m = Some t -> msg_approved m = true ->
     Dict.mem t (technicians w) = true -> Dict.mem c (clients w) = true ->
     P (start_session c t (uuid8 rnd) now w)) ->
  P (step o w).
Proof.
  intros HP Hhelp Hstart.
  assert (HC : Cleanup P) by typeclasses eauto.
  assert (HK : Cascade P) by typeclasses eauto.
  destruct o as [sock ip m rnd now|c m rnd now|c|c|t m|t|t| |];
    cbv beta iota delta [step].
  - now apply handle_connection_keeps.
  - destruct (Dict.mem c (clients w)) eqn:Hc;
      [|now apply disconnect_client_keeps].
    unfold process_client_message.
    destruct (msg_type m) as [ty|] eqn:Hty; auto.
    destruct (String.eqb_spec ty "help_request") as [->|_].
    { apply handle_help_request_keeps; eauto. }
    destruct (String.eqb_spec ty "cancel_help") as [->|_].
    { now apply handle_cancel_help_keeps. }
    destruct (String.eqb_spec ty "control_response") as [->|_].
    { apply handle_control_response_keeps; eauto. }
    destruct (String.eqb ty "heartbeat_response"); auto.
  - destruct (Dict.get c (clients w)); [|now apply disconnect_client_keeps].
    split_send. destruct b; [|apply disconnect_client_keeps; auto];
      now apply cl_send.
  - now apply disconnect_client_keeps.
  - destruct (Dict.mem t (technicians w));
      [now apply process_technician_message_keeps
      |now apply disconnect_technician_keeps].
  - destruct (Dict.get t (technicians w));
      [|now apply disconnect_technician_keeps].
    split_send. destruct b; [|apply disconnect_technician_keeps; auto];
      now apply cl_send.
  - now apply disconnect_technician_keeps.
  - now apply heartbeat_checker_keeps.
  - now apply stop_server_keeps.
Qed.

Theorem reachable_by_keeps (allowed : world -> op -> Prop) :
  (forall w c m rnd now,
     P w -> allowed w (Client_recv c m rnd now) ->
     msg_type m = Some "help_request" ->
     Dict.mem c (clients w) = true ->
     P (set_clients (Dict.update c (with_help_requested true)) w)) ->
  (forall w c m rnd now t,
     P w -> allowed w (Client_recv c m rnd now) ->
     msg_type m = Some "control_response" ->
     msg_tech_id m = Some t -> msg_approved m = true ->
     Dict.mem t (technicians w) = true -> Dict.mem c (clients w) = true ->
     P (start_session c t (uuid8 rnd) now w)) ->
  forall w, reachable_by allowed w -> P w.
Proof.
  intros Hhelp Hstart w Hr.
  induction Hr as [r|w o Hr IH Hal].
  - apply st_init.
  - apply step_keeps; auto.
    + intros c m rnd now ->. eauto.
    + intros c m rnd now t ->. eauto.
Qed.

End Steady.

(** *** Reaching a state by a list of operations *)

Lemma reachable_by_run allowed ops : forall w,
  reachable_by allowed w -> guarded allowed ops w ->
  reachable_by allowed (run ops w).
Proof.
  induction ops as [|o ops IH]; simpl; intros w Hr Hg; auto.
  destruct Hg as [Ho Hg]. apply IH; auto. now apply reach_step.
Defined.

Lemma reachable_run ops r : reachable (run ops (init r)).
Proof.
  apply reachable_by_run; [apply reach_init|].
  generalize (init r). induction ops; simpl; auto.
Defined.

(** *** Identifiers are never empty *)

Lemma hex_digits_nonempty k n : hex_digits (S k) n <> "".
Proof.
  cbn [hex_digits]. destruct (hex_digits k (N.shiftr n 4)); cbn; congruence.
Qed.

Lemma uuid8_nonempty u : uuid8 u <> "".
Proof. apply hex_digits_nonempty. Qed.

(** *** What a start of session changes *)

Lemma start_session_sessions c t sid now w :
  active_sessions (start_session c t sid now w)
  = Dict.set sid (mk_session c t now) (active_sessions w).
Proof.
  unfold start_session. now destruct (Dict.mem c _).
Qed.

Lemma start_session_clients c t sid now w :
  clients (start_session c t sid now w)
  = Dict.update c (with_help_requested false)
      (Dict.update c (with_session_id (Some sid)) (clients w)).
Proof.
  unfold start_session. now destruct (Dict.mem c _).
Qed.

Lemma start_session_technicians c t sid now w :
  technicians (start_session c t sid now w)
  = Dict.update t (with_assigned_client (Some c)) (technicians w).
Proof.
  unfold start_session. now destruct (Dict.mem c _).
Qed.

Lemma start_session_help_requests c t sid now w :
  Dict.get c (help_requests (start_session c t sid now w)) = None.
Proof.
  unfold start_session.
  destruct (Dict.mem c _) eqn:E.
  - apply get_del_eq.
  - now apply mem_false.
Qed.

(** *** The three invariants are stable *)

Lemma exclusive_ext w w' :
  clients w' = clients w -> exclusive w -> exclusive w'.
Proof. unfold exclusive. intros ->. auto. Qed.

Lemma exclusive_update c f w :
  (forall info,
     Dict.get c (clients w) = Some info ->
     help_requested (f info) = false \/ session_id (f info) = None) ->
  exclusive w -> exclusive (set_clients (Dict.update c f) w).
Proof.
  intros Hf Hw c' info' Hget [Hh Hs]. simpl in Hget.
  apply get_update_some in Hget as (v0 & Hv0 & [->|[-> ->]]).
  - eapply Hw; eauto.
  - destruct (Hf _ Hv0); congruence.
Qed.

Lemma exclusive_del c w :
  exclusive w -> exclusive (set_clients (Dict.del c) w).
Proof.
  intros Hw c' info' Hget. simpl in Hget.
  apply get_del_some in Hget as [_ Hget]. eapply Hw; eauto.
Qed.

Lemma exclusive_stable : Stable exclusive.
Proof.
  constructor; [constructor; [constructor|..]|..]; intros;
    try (eapply exclusive_ext; [|eassumption]; reflexivity);
    try (apply exclusive_update; [intros; simpl; auto|assumption]);
    try (now apply exclusive_del).
  - intros c info Hget. discriminate.
  - intros c info Hget. discriminate.
  - intros c info Hget [Hh Hs]. cbn [clients set_clients] in Hget.
    destruct (String.eqb_spec (uuid8 rnd) c) as [E|Hne]; [subst c|].
    + rewrite get_set_eq in Hget. injection Hget as <-. discriminate.
    + rewrite get_set_ne in Hget by assumption. eapply H; eauto.
Qed.

Lemma no_sharing_ext w w' :
  active_sessions w' = active_sessions w -> no_sharing w -> no_sharing w'.
Proof. unfold no_sharing. intros ->. auto. Qed.

Lemma no_sharing_stable : Stable no_sharing.
Proof.
  constructor; [constructor; [constructor|..]|..]; intros;
    try (eapply no_sharing_ext; [|eassumption]; reflexivity).
  - intros s1 s2 a1 a2 H1 H2. simpl in H1, H2.
    apply get_del_some in H1 as [_ H1]. apply get_del_some in H2 as [_ H2].
    eauto.
  - intros s1 s2 a1 a2 H1. discriminate.
  - intros s1 s2 a1 a2 H1. discriminate.
Qed.

Lemma technician_ids_ext w w' :
  (forall t, Dict.mem t (technicians w') = true ->
             Dict.mem t (technicians w) = true) ->
  technician_ids_truthy w -> technician_ids_truthy w'.
Proof. unfold technician_ids_truthy. auto. Qed.

Lemma technician_ids_stable : Stable technician_ids_truthy.
Proof.
  constructor; [constructor; [constructor|..]|..]; intros;
    try (eapply technician_ids_ext; [|eassumption]; intros t0; simpl;
         solve [auto | now rewrite mem_update]).
  - eapply technician_ids_ext; [|eassumption]. intros t0. simpl.
    destruct (Dict.mem t0 (technicians w)) eqn:E; auto.
    now rewrite mem_del_false.
  - intros t0. discriminate.
  - intros t0. discriminate.
  - intros t0 Hm. cbn [technicians set_technicians] in Hm.
    destruct (String.eqb_spec (uuid8 rnd) t0) as [E|Hne]; [subst t0|].
    + apply uuid8_nonempty.
    + apply H. revert Hm. unfold Dict.mem.
      now rewrite get_set_ne by assumption.
Qed.

Lemma reachable_technician_ids w :
  reachable w -> technician_ids_truthy w.
Proof.
  apply (reachable_by_keeps _ (Stable0 := technician_ids_stable)).
  - intros w0 c m rnd now H _ _ _.
    eapply technician_ids_ext; [|eassumption]. auto.
  - intros w0 c m rnd now t H _ _ _ _ _ _.
    eapply technician_ids_ext; [|eassumption]. intros t0.
    rewrite start_session_technicians. now rewrite mem_update.
Qed.

(** *** Help request and session of one client (claim C1) *)

(** C1, as the code has it: a client sends [help_request] while it is in a
    session; the broker raises [help_requested] and leaves [session_id]
    set.  Alice, in session with Bob, asks for help again: a reachable
    state in which both are set. *)
Lemma help_during_session_both_set :
  let w :=
    run (session_of_alice_and_bob
         ++ [Client_recv alice (plain "help_request") 0%N "09:02:00"])
        (init []) in
  reachable w /\
  exists info,
    Dict.get alice (clients w) = Some info /\
    help_requested info = true /\ session_id info = Some "00000005".
Proof.
  split; [apply reachable_run|].
  eexists. split; [vm_compute; reflexivity|]. split; reflexivity.
Qed.

(** C1 (amended): in every state the broker reaches by operations among
    which a help request comes only from a client whose [session_id] is
    null, no registered client has both [help_requested] and a
    [session_id]. *)
Theorem help_and_session_exclusive w :
  reachable_by help_when_free w -> exclusive w.
Proof.
  apply (reachable_by_keeps _ (Stable0 := exclusive_stable)).
  - intros w0 c m rnd now H Hal Hty _.
    apply exclusive_update; [|assumption].
    intros info Hget. right. simpl. eapply Hal; eauto.
  - intros w0 c m rnd now t H _ _ _ _ _ _ c' info' Hget [Hh Hs].
    rewrite start_session_clients in Hget.
    destruct (String.eqb_spec c c') as [<-|Hne].
    + rewrite !get_update_eq in Hget.
      destruct (Dict.get c (clients w0)); [|discriminate].
      injection Hget as <-. discriminate.
    + rewrite !get_update_ne in Hget by assumption. eapply H; eauto.
Qed.

(** Alice joins and asks for help, being in no session. *)
Lemma help_and_session_exclusive_witness :
  exclusive (run [alice_joins; alice_asks_help] (init [])).
Proof.
  apply help_and_session_exclusive.
  apply reachable_by_run; [apply reach_init|].
  cbn [guarded]. split; [|split; [|exact I]].
  - intros c m rnd now info E. discriminate E.
  - intros c m rnd now info E _ Hget. injection E as <- _ _ _.
    vm_compute in Hget. injection Hget as <-. reflexivity.
Defined.

(** *** One session per client and per technician (claim C2) *)

(** C2, as the code has it: the broker starts a session at every approval,
    whatever sessions exist.  Bob asks for Alice again and Alice approves
    again: two active sessions with the same client and the same
    technician. *)
Lemma approving_twice_shares :
  let w :=
    run (session_of_alice_and_bob
         ++ [bob_asks_alice;
             Client_recv alice (approval bob) (uuid_of 6) "09:01:30"])
        (init []) in
  reachable w /\
  exists a1 a2,
    Dict.get "00000005" (active_sessions w) = Some a1 /\
    Dict.get "00000006" (active_sessions w) = Some a2 /\
    client_id a1 = client_id a2 /\ tech_id a1 = tech_id a2.
Proof.
  split; [apply reachable_run|].
  do 2 eexists. split; [vm_compute; reflexivity|].
  split; [vm_compute; reflexivity|]. split; reflexivity.
Qed.

(** C2 (amended): in every state the broker reaches by operations among
    which a control request is approved only when no active session has
    that client or that technician, no two active sessions have the same
    client and no two have the same technician. *)
Theorem sessions_not_shared w :
  reachable_by approve_when_free w -> no_sharing w.
Proof.
  apply (reachable_by_keeps _ (Stable0 := no_sharing_stable)).
  - intros w0 c m rnd now H _ _ _.
    eapply no_sharing_ext; [|eassumption]. reflexivity.
  - intros w0 c m rnd now t H Hal Hty Ht Hap _ _ s1 s2 a1 a2 H1 H2 Hsh.
    rewrite start_session_sessions in H1, H2.
    assert (Hfree := Hal c m rnd now t eq_refl Hty Hap Ht).
    destruct (String.eqb_spec (uuid8 rnd) s1) as [E1|N1];
      destruct (String.eqb_spec (uuid8 rnd) s2) as [E2|N2];
      try congruence.
    + subst s1. rewrite get_set_eq in H1. injection H1 as <-.
      rewrite get_set_ne in H2 by assumption.
      destruct (Hfree _ _ H2). simpl in Hsh. intuition congruence.
    + subst s2. rewrite get_set_eq in H2. injection H2 as <-.
      rewrite get_set_ne in H1 by assumption.
      destruct (Hfree _ _ H1). simpl in Hsh. intuition congruence.
    + rewrite get_set_ne in H1, H2 by assumption. eauto.
Qed.

(** Alice approves Bob, then Dave approves Carol: at the second approval
    the session of Alice and Bob is active and has neither Dave nor Carol,
    and two sessions are active in the end. *)
Lemma sessions_not_shared_witness :
  let w := run (carol_has_asked_dave ++ [dave_approves_carol]) (init []) in
  no_sharing w /\
  Dict.keys (active_sessions w) = ["00000005"; "00000006"].
Proof.
  cbv zeta. split; [|vm_compute; reflexivity].
  apply sessions_not_shared.
  apply reachable_by_run; [apply reach_init|].
  cbn [guarded carol_has_asked_dave session_of_alice_and_bob app].
  repeat match goal with |- _ /\ _ => split end;
    try exact I;
    try (intros c m rnd now t E; discriminate E);
    try (intros c m rnd now t E Hty; injection E as _ <- _ _;
         discriminate Hty).
  - intros c m rnd now t E _ _ _ s a Hget.
    vm_compute in Hget. discriminate Hget.
  - intros c m rnd now t E _ _ Ht s a Hget.
    injection E as <- <- _ _. injection Ht as <-.
    apply get_in in Hget. vm_compute in Hget.
    destruct Hget as [Hget|[]]. injection Hget as _ <-.
    split; intros Heq; vm_compute in Heq; discriminate Heq.
Defined.

(** *** Disconnects (claims C3 and C10) *)

Lemma disconnect_technician_technicians t w :
  technicians (disconnect_technician t w) = Dict.del t (technicians w).
Proof.
  unfold disconnect_technician.
  destruct (Dict.get t (technicians w)) as [tech|] eqn:E.
  - cbn [technicians set_technicians close]. f_equal.
    destruct (truthy _ && _); auto.
    destruct (assigned_client tech); auto.
    now destruct (session_of_tech t (active_sessions w)) as [[sid ?]|].
  - symmetry. now apply del_absent.
Qed.

(** The cascade removes technicians and changes none of those it keeps. *)
Lemma technicians_shrink_cascade (d0 : Dict.t tech_info) :
  Cascade (fun w => forall t tech,
             Dict.get t (technicians w) = Some tech ->
             Dict.get t d0 = Some tech).
Proof.
  constructor; intros; auto.
  cbn [technicians set_technicians] in *.
  match goal with H : Dict.get _ (Dict.del _ _) = _ |- _ =>
    apply get_del_some in H as [_ H] end.
  auto.
Qed.

Lemma client_absent_cascade c :
  Cascade (fun w => Dict.mem c (clients w) = false).
Proof.
  constructor; intros; auto.
  cbn [clients set_clients]. now rewrite mem_update.
Qed.

Lemma session_absent_cascade s :
  Cascade (fun w => Dict.get s (active_sessions w) = None).
Proof.
  constructor; intros; auto.
  cbn [active_sessions set_active_sessions].
  now apply mem_false, mem_del_false, mem_false.
Qed.

(** The world [disconnect_client] hands to its broadcast: the deleted
    session is looked up after its deletion, so no technician is found and
    the registry of technicians is still the one of [w]. *)
Lemma disconnect_client_unfold c w info :
  Dict.get c (clients w) = Some info ->
  exists w4,
    disconnect_client c w
    = broadcast_to_technicians (Client_disconnected c) None w4 /\
    technicians w4 = technicians w /\
    wire w4 = (wire w ++ [Close (c_socket info)])%list /\
    Dict.mem c (clients w4) = false /\
    (forall s, session_id info = Some s -> s <> "" ->
               Dict.get s (active_sessions w4) = None).
Proof.
  intros Hc. unfold disconnect_client. rewrite Hc.
  eexists. split; [reflexivity|].
  cbn [technicians clients active_sessions wire set_clients close].
  split; [|split; [|split]].
  1-2: destruct (session_id info) as [s|];
    [destruct (truthy (Some s) && Dict.mem s (active_sessions w));
     [cbn [active_sessions set_active_sessions]; rewrite get_del_eq;
      cbn [option_map]|]|];
    now destruct (Dict.mem c _).
  - apply mem_del_eq.
  - intros s Hs Hne. rewrite Hs.
    assert (Ht : truthy (Some s) = true).
    { unfold truthy. destruct (String.eqb_spec s ""); [contradiction|auto]. }
    rewrite Ht. cbn [andb].
    destruct (Dict.mem s (active_sessions w)) eqn:Hm.
    + cbn [active_sessions set_active_sessions]. rewrite get_del_eq.
      cbn [option_map].
      destruct (Dict.mem c _); cbn; apply get_del_eq.
    + apply mem_false in Hm. now destruct (Dict.mem c _).
Qed.

(** Whatever the state, [disconnect_client] removes the client's session
    and resets no technician: an entry of the registry of technicians is
    afterwards what it was before. *)
Lemma disconnect_client_resets_no_technician c w info s t tech' :
  Dict.get c (clients w) = Some info ->
  session_id info = Some s -> s <> "" ->
  let w' := disconnect_client c w in
  Dict.get s (active_sessions w') = None /\
  (Dict.get t (technicians w') = Some tech' ->
   Dict.get t (technicians w) = Some tech').
Proof.
  intros Hc Hs Hne w'. subst w'.
  destruct (disconnect_client_unfold c w info Hc)
    as (w4 & -> & Ht & _ & _ & H4).
  split.
  - apply (broadcast_keeps _ (Cascade0 := session_absent_cascade s)). eauto.
  - revert t tech'.
    apply (broadcast_keeps _
             (Cascade0 := technicians_shrink_cascade (technicians w))).
    now rewrite Ht.
Qed.

Lemma disconnect_client_absent c w :
  Dict.mem c (clients w) = false -> disconnect_client c w = w.
Proof.
  intros H. apply mem_false in H. unfold disconnect_client. now rewrite H.
Qed.

Lemma disconnect_technician_absent t w :
  Dict.mem t (technicians w) = false -> disconnect_technician t w = w.
Proof.
  intros H. apply mem_false in H. unfold disconnect_technician.
  now rewrite H.
Qed.

(** C3, where the code departs from it: Alice is in session with Bob and
    her connection ends.  The session is removed; Bob, still registered,
    keeps [assigned_client] set to Alice. *)
Theorem disconnect_client_leaves_assignment :
  let w := run session_of_alice_and_bob (init []) in
  let w' := disconnect_client alice w in
  (exists info a,
     Dict.get alice (clients w) = Some info /\
     session_id info = Some "00000005" /\
     Dict.get "00000005" (active_sessions w) = Some a /\ tech_id a = bob) /\
  Dict.get "00000005" (active_sessions w') = None /\
  exists tech,
    Dict.get bob (technicians w') = Some tech /\
    assigned_client tech = Some alice.
Proof.
  split; [|split].
  - do 2 eexists. split; [vm_compute; reflexivity|].
    split; [reflexivity|]. split; [vm_compute; reflexivity|reflexivity].
  - vm_compute. reflexivity.
  - eexists. split; [vm_compute; reflexivity|reflexivity].
Qed.

(** C10: [disconnect_client] and [disconnect_technician] return the world
    they are given when the id is not registered, and a second call for
    the same id changes nothing after the first. *)
Theorem disconnect_unknown_is_noop w id :
  (Dict.mem id (clients w) = false -> disconnect_client id w = w) /\
  (Dict.mem id (technicians w) = false -> disconnect_technician id w = w) /\
  disconnect_client id (disconnect_client id w) = disconnect_client id w /\
  disconnect_technician id (disconnect_technician id w)
  = disconnect_technician id w.
Proof.
  assert (Hc := disconnect_client_absent id).
  assert (Ht := disconnect_technician_absent id).
  repeat split; auto.
  - apply Hc. destruct (Dict.get id (clients w)) as [info|] eqn:E.
    + destruct (disconnect_client_unfold id w info E)
        as (w4 & -> & _ & _ & Hab & _).
      now apply (broadcast_keeps _ (Cascade0 := client_absent_cascade id)).
    + unfold disconnect_client. rewrite E. now apply mem_false.
  - apply Ht. rewrite disconnect_technician_technicians. apply mem_del_eq.
Qed.

(** Carol was never a client, Alice never a technician. *)
Lemma disconnect_unknown_is_noop_witness :
  let w := run [alice_joins; bob_joins] (init []) in
  disconnect_client carol w = w /\ disconnect_technician alice w = w.
Proof.
  split.
  - apply (proj1 (disconnect_unknown_is_noop _ carol)). reflexivity.
  - apply (proj1 (proj2 (disconnect_unknown_is_noop _ alice))). reflexivity.
Defined.

(** *** End of session (claims C5 and C6) *)

(** [process_client_message] has no branch for [end_session]: the message
    falls to the branch of unknown types. *)
Lemma client_end_session_is_ignored c m rnd now w :
  msg_type m = Some "end_session" -> process_client_message c m rnd now w = w.
Proof.
  intros Hty. unfold process_client_message. rewrite Hty. reflexivity.
Qed.

(** What [handle_end_session] does for a known session: the session goes,
    its client's [session_id] is cleared, and [assigned_client] is cleared
    for [t], the technician who sent the message. *)
Lemma handle_end_session_known t m w sid a :
  msg_session_id m = Some sid ->
  Dict.get sid (active_sessions w) = Some a ->
  let w' := handle_end_session t m w in
  Dict.get sid (active_sessions w') = None /\
  Dict.get (client_id a) (clients w')
  = option_map (with_session_id None) (Dict.get (client_id a) (clients w)) /\
  Dict.get t (technicians w')
  = option_map (with_assigned_client None) (Dict.get t (technicians w)) /\
  (forall t', t' <> t ->
     Dict.get t' (technicians w') = Dict.get t' (technicians w)).
Proof.
  intros Hm Ha w'. subst w'. unfold handle_end_session. rewrite Hm, Ha.
  unfold Dict.mem. simpl.
  destruct (Dict.get (client_id a) (clients w)) as [info|] eqn:Ec; simpl;
    (destruct (Dict.get t (technicians w)) as [tech|] eqn:Et); simpl;
    rewrite ?get_del_eq, ?get_update_eq, ?Et, ?Ec; repeat split; auto;
    intros t' Hne; rewrite ?get_update_ne by congruence; reflexivity.
Qed.

(** C5, where the code departs from it: Alice, in session with Bob, sends
    [end_session] with the id of her session.  The broker takes the message
    for one of unknown type: the world is unchanged, the session stays and
    so do both pointers. *)
Theorem end_session_from_client_is_ignored :
  let w := run session_of_alice_and_bob (init []) in
  let w' := step (Client_recv alice (end_of "00000005") 0%N "09:05:00") w in
  w' = w /\
  Dict.mem "00000005" (active_sessions w') = true /\
  option_map session_id (Dict.get alice (clients w'))
  = Some (Some "00000005") /\
  option_map assigned_client (Dict.get bob (technicians w'))
  = Some (Some alice).
Proof.
  cbv zeta. repeat match goal with |- _ /\ _ => split end;
    vm_compute; reflexivity.
Qed.

(** The same message from a technician who is not the one of the session:
    Carol ends the session of Alice and Bob, and Bob keeps
    [assigned_client]. *)
Lemma end_session_by_another_technician :
  let w :=
    run [alice_joins; bob_joins; carol_joins; alice_asks_help;
         bob_asks_alice; alice_approves_bob]
        (init []) in
  let w' := step (Technician_recv carol (end_of "00000005")) w in
  Dict.mem "00000005" (active_sessions w') = false /\
  option_map session_id (Dict.get alice (clients w')) = Some None /\
  option_map assigned_client (Dict.get bob (technicians w'))
  = Some (Some alice).
Proof.
  cbv zeta. repeat match goal with |- _ /\ _ => split end;
    vm_compute; reflexivity.
Qed.

(** C6: an [end_session] whose session id is not in [active_sessions]
    leaves the world as it is: [handle_end_session] returns at once, and so
    does the step of the technician's loop that delivers the message. *)
Theorem end_session_unknown_is_noop t m w :
  mem_opt (msg_session_id m) (active_sessions w) = false ->
  handle_end_session t m w = w /\
  (msg_type m = Some "end_session" -> step (Technician_recv t m) w = w).
Proof.
  intros Hm.
  assert (H : handle_end_session t m w = w).
  { unfold handle_end_session. destruct (msg_session_id m) as [sid|]; auto.
    simpl in Hm. apply mem_false in Hm. now rewrite Hm. }
  split; [exact H|]. intros Hty. cbn [step].
  destruct (Dict.mem t (technicians w)) eqn:Et.
  - unfold process_technician_message. rewrite Hty. exact H.
  - now apply disconnect_technician_absent.
Qed.

(** Evan never joined. *)
Lemma end_session_unknown_is_noop_witness :
  let w := run session_of_alice_and_bob (init []) in
  let m := end_of "0000000e" in
  handle_end_session bob m w = w /\
  (msg_type m = Some "end_session" -> step (Technician_recv bob m) w = w).
Proof.
  apply end_session_unknown_is_noop. vm_compute. reflexivity.
Defined.

(** *** Failed sends to technicians (claim C8) *)

Lemma emitted_app w w' l : wire w' = wire w ++ l -> emitted w w' = l.
Proof.
  intros E. unfold emitted. rewrite E.
  rewrite skipn_app, skipn_all, Nat.sub_diag. reflexivity.
Qed.

Lemma failed_send_to_app t l1 l2 :
  failed_send_to t (l1 ++ l2) <-> failed_send_to t l1 \/ failed_send_to t l2.
Proof.
  unfold failed_send_to. split.
  - intros (s & p & H). apply in_app_iff in H as [H|H]; eauto.
  - intros [(s & p & H)|(s & p & H)]; exists s, p; apply in_app_iff; auto.
Qed.




Lemma wire_disconnect_technician t w :
  wire (disconnect_technician t w)
  = wire w ++ match Dict.get t (technicians w) with
              | Some tech => [Close (t_socket tech)]
              | None => []
              end.
Proof.
  unfold disconnect_technician.
  destruct (Dict.get t (technicians w)) as [tech|]; [|now rewrite app_nil_r].
  cbn [wire set_technicians close]. f_equal.
  destruct (truthy _ && _); auto.
  destruct (assigned_client tech); auto.
  now destruct (session_of_tech t (active_sessions w)) as [[sid ?]|].
Qed.












(** The sends of a broadcast: one for each entry of the snapshot that is
    not excluded, in the order of the registry. *)
Lemma sends_app l1 l2 : sends (l1 ++ l2) = sends l1 ++ sends l2.
Proof. apply flat_map_app. Qed.

Lemma broadcast_one_sends p ex w t tech :
  exists l,
    wire (broadcast_one p ex w (t, tech)) = wire w ++ l /\
    sends l = if excluded ex t then []
              else [(Technician t, t_socket tech, p)].
Proof.
  unfold broadcast_one. destruct (excluded ex t).
  - exists []. now rewrite app_nil_r.
  - destruct (send (Technician t) (t_socket tech) p w) as [ok w1] eqn:E.
    pose proof (send_snd _ _ _ _ _ _ E) as ->. destruct ok.
    + eexists [_]. split; reflexivity.
    + eexists. split.
      * rewrite wire_disconnect_technician. cbn [wire send snd].
        rewrite <- app_assoc. reflexivity.
      * cbn [technicians send snd]. rewrite sends_app.
        now destruct (Dict.get t (technicians w)).
Qed.

Lemma broadcast_fold_sends p ex entries : forall w,
  exists l,
    wire (fold_left (broadcast_one p ex) entries w) = wire w ++ l /\
    sends l
    = map (fun e : string * tech_info =>
             (Technician (fst e), t_socket (snd e), p))
          (filter (fun e => negb (excluded ex (fst e))) entries).
Proof.
  induction entries as [|[t tech] entries IH]; intros w;
    cbn [fold_left filter fst].
  - exists []. now rewrite app_nil_r.
  - destruct (broadcast_one_sends p ex w t tech) as (l1 & E1 & S1).
    destruct (IH (broadcast_one p ex w (t, tech))) as (l2 & E2 & S2).
    exists (l1 ++ l2). split; [now rewrite E2, E1, app_assoc|].
    rewrite sends_app, S1, S2. now destruct (excluded ex t).
Qed.

Lemma broadcast_sends p ex w :
  sends (emitted w (broadcast_to_technicians p ex w))
  = map (fun e : string * tech_info =>
           (Technician (fst e), t_socket (snd e), p))
        (filter (fun e => negb (excluded ex (fst e)))
                (Dict.items (technicians w))).
Proof.
  unfold broadcast_to_technicians.
  destruct (broadcast_fold_sends p ex (Dict.items (technicians w)) w)
    as (l & E & S).
  now rewrite (emitted_app _ _ _ E).
Qed.



(** *** Approval of a control request (claim C4) *)

Lemma sessions_wf_stable : Stable sessions_wf.
Proof.
  constructor; [constructor; [constructor|..]|..]; intros; auto;
    try constructor.
  now apply nodup_del.
Qed.

Lemma reachable_sessions_wf w : reachable w -> sessions_wf w.
Proof.
  apply (reachable_by_keeps _ (Stable0 := sessions_wf_stable)).
  - auto.
  - intros w0 c m rnd now t H _ _ _ _ _ _. unfold sessions_wf.
    rewrite start_session_sessions. now apply nodup_set.
Qed.

(** The cases of [disconnect_technician]: nothing but the close and the
    removal from the registry, or also the end of the first session of the
    technician, with the [session_id] of the assigned client cleared. *)
Lemma disconnect_technician_cases t w :
  let w' := disconnect_technician t w in
  help_requests w' = help_requests w /\
  ((clients w' = clients w /\ active_sessions w' = active_sessions w) \/
   exists tech c sid a,
     Dict.get t (technicians w) = Some tech /\
     assigned_client tech = Some c /\
     session_of_tech t (active_sessions w) = Some (sid, a) /\
     clients w' = Dict.update c (with_session_id None) (clients w) /\
     active_sessions w' = Dict.del sid (active_sessions w)).
Proof.
  cbv zeta. unfold disconnect_technician.
  destruct (Dict.get t (technicians w)) as [tech|]; [|now auto].
  destruct (truthy _ && _); [|now auto].
  destruct (assigned_client tech) as [c|] eqn:Ea; [|now auto].
  destruct (session_of_tech t (active_sessions w)) as [[sid a]|] eqn:E;
    [|now auto].
  split; [reflexivity|]. right. exists tech, c, sid, a.
  repeat split; auto.
Qed.

Lemma session_of_tech_some t d sid a :
  session_of_tech t d = Some (sid, a) ->
  In (sid, a) (Dict.items d) /\ tech_id a = t.
Proof.
  unfold session_of_tech. intros H. apply find_some in H as [Hin Ht].
  split; auto. now apply String.eqb_eq in Ht.
Qed.

Lemma excluded_self t : t <> "" -> excluded (Some t) t = true.
Proof.
  intros Hne. unfold excluded, truthy. rewrite String.eqb_refl.
  destruct (String.eqb_spec t ""); [contradiction|reflexivity].
Qed.

Lemma excluded_other t t' : t' <> t -> excluded (Some t) t' = false.
Proof.
  intros Hne. unfold excluded.
  destruct (String.eqb_spec t' t); [contradiction|apply andb_false_r].
Qed.

(** What a broadcast that leaves [t] out keeps: what sends keep and the
    disconnects of technicians other than [t] keep. *)
Lemma broadcast_excluding_keeps (P : world -> Prop) t p w :
  t <> "" ->
  (forall to s p0 w0, P w0 -> P (snd (send to s p0 w0))) ->
  (forall t' w0, t' <> t -> P w0 -> P (disconnect_technician t' w0)) ->
  P w -> P (broadcast_to_technicians p (Some t) w).
Proof.
  intros Hne Hsend Hdisc. unfold broadcast_to_technicians.
  apply fold_left_keeps. intros w0 [t' tech'] HP. unfold broadcast_one.
  destruct (String.eqb_spec t' t) as [->|Hd].
  - now rewrite excluded_self.
  - rewrite excluded_other by assumption.
    destruct (send (Technician t') (t_socket tech') p w0) as [ok w1] eqn:E.
    pose proof (send_snd _ _ _ _ _ _ E) as ->.
    destruct ok; auto.
Qed.

(** A broadcast that leaves [t] out keeps the sessions of [t]. *)
Lemma broadcast_excluding_keeps_session t p w sid a :
  t <> "" -> sessions_wf w ->
  Dict.get sid (active_sessions w) = Some a -> tech_id a = t ->
  Dict.get sid (active_sessions (broadcast_to_technicians p (Some t) w))
  = Some a.
Proof.
  intros Hne Hwf Hget Ht.
  apply (broadcast_excluding_keeps
           (fun w0 => sessions_wf w0 /\
                      Dict.get sid (active_sessions w0) = Some a));
    auto.
  intros t' w0 Hd [Hwf0 Hg0].
  destruct (disconnect_technician_cases t' w0)
    as [_ [[_ Es]|(tech & c & sid' & a' & _ & _ & Hs & _ & Es)]];
    unfold sessions_wf; rewrite Es; auto.
  apply session_of_tech_some in Hs as [Hin Ht'].
  split; [now apply nodup_del|].
  rewrite get_del_ne; auto. intros ->.
  apply (nodup_in_get _ _ _ Hwf0) in Hin. congruence.
Qed.

(** A broadcast that leaves [t] out keeps [t] as it is. *)
Lemma broadcast_excluding_keeps_technician t p w :
  t <> "" ->
  Dict.get t (technicians (broadcast_to_technicians p (Some t) w))
  = Dict.get t (technicians w).
Proof.
  intros Hne.
  apply (broadcast_excluding_keeps
           (fun w0 => Dict.get t (technicians w0)
                      = Dict.get t (technicians w))); auto.
  intros t' w0 Hd H0. rewrite disconnect_technician_technicians.
  now rewrite get_del_ne.
Qed.

(** The cascade keeps a registered client, and all of its entry but
    [session_id], which it may clear. *)
Lemma client_kept_cascade c info :
  Cascade (fun w => exists info',
             Dict.get c (clients w) = Some info' /\
             (info' = info \/ info' = with_session_id None info)).
Proof.
  constructor; intros; auto.
  destruct H as (info' & Hg & Hi). cbn [clients set_clients].
  destruct (String.eqb_spec c0 c) as [->|Hne].
  - rewrite get_update_eq, Hg. eexists. split; [reflexivity|].
    destruct Hi as [->| ->]; auto.
  - rewrite get_update_ne by assumption. eauto.
Qed.

Lemma help_requests_cascade h :
  Cascade (fun w => help_requests w = h).
Proof. constructor; intros; auto. Qed.

(** One turn of a broadcast leaves the entry of client [c] as it is unless
    the send raises for a technician whose assigned client is [c]. *)
Lemma broadcast_one_client c p ex w t tech :
  exists l,
    wire (broadcast_one p ex w (t, tech)) = wire w ++ l /\
    ((forall tech0,
        Dict.get t (technicians w) = Some tech0 ->
        assigned_client tech0 = Some c -> ~ failed_send_to t l) ->
     Dict.get c (clients (broadcast_one p ex w (t, tech)))
     = Dict.get c (clients w)).
Proof.
  unfold broadcast_one. destruct (excluded ex t).
  { exists []. now rewrite app_nil_r. }
  destruct (send (Technician t) (t_socket tech) p w) as [ok w1] eqn:E.
  pose proof (send_snd _ _ _ _ _ _ E) as ->. destruct ok.
  { eexists [_]. split; reflexivity. }
  eexists. split.
  { rewrite wire_disconnect_technician. cbn [wire send snd].
    rewrite <- app_assoc. reflexivity. }
  intros Hno.
  destruct (disconnect_technician_cases t
              (snd (send (Technician t) (t_socket tech) p w)))
    as [_ [[Ec _]|(tech0 & c0 & sid & a & Hg & Ha & _ & Ec & _)]];
    rewrite Ec; [reflexivity|].
  cbn [clients technicians send snd] in *.
  destruct (String.eqb_spec c0 c) as [->|Hd];
    [|now rewrite get_update_ne].
  exfalso. apply (Hno tech0 Hg Ha).
  unfold send in E. injection E as Eok. apply negb_false_iff in Eok.
  exists (t_socket tech), p. apply in_app_iff. left. left.
  now rewrite Eok.
Qed.

Lemma broadcast_fold_client c p ex entries : forall w l,
  wire (fold_left (broadcast_one p ex) entries w) = wire w ++ l ->
  (forall t tech,
     Dict.get t (technicians w) = Some tech ->
     assigned_client tech = Some c -> ~ failed_send_to t l) ->
  Dict.get c (clients (fold_left (broadcast_one p ex) entries w))
  = Dict.get c (clients w).
Proof.
  induction entries as [|[t tech] entries IH]; intros w l Hw Hno;
    cbn [fold_left] in *; [reflexivity|].
  destruct (broadcast_one_client c p ex w t tech) as (l1 & E1 & H1).
  destruct (broadcast_fold_sends p ex entries
              (broadcast_one p ex w (t, tech))) as (l2 & E2 & _).
  assert (El : l = l1 ++ l2).
  { apply (app_inv_head (wire w)). now rewrite <- Hw, E2, E1, app_assoc. }
  subst l. rewrite (IH _ l2 E2).
  - apply H1. intros tech0 Hg Ha Hf. apply (Hno _ _ Hg Ha).
    apply failed_send_to_app. now left.
  - intros t' tech' Hg Ha Hf.
    apply (broadcast_one_keeps _
             (Cascade0 := technicians_shrink_cascade (technicians w)))
      in Hg; auto.
    apply (Hno _ _ Hg Ha). apply failed_send_to_app. now right.
Qed.

Lemma start_session_wire c t sid now w :
  wire (start_session c t sid now w) = wire w.
Proof.
  unfold start_session. now destruct (Dict.mem c _).
Qed.

Lemma in_sends to s p ok l : In (Send to s p ok) l -> In (to, s, p) (sends l).
Proof.
  intros H. unfold sends. apply in_flat_map.
  exists (Send to s p ok). split; [assumption|now left].
Qed.

(** C4, as the code has it, on two counts.  The session id is drawn and
    not checked: Alice is in session [00000005] with Bob when Dave approves
    Carol and the broker draws [00000005] again; the session of Dave and
    Carol takes the place of that of Alice and Bob, which is in the map no
    more.  And the broadcast that follows an approval may undo the
    [session_id] the approval has set: Alice is in session with Bob; Carol
    asks for her and she approves; the send of [client_unavailable] to Bob,
    the twelfth send of the run, raises, Bob is disconnected, and his
    disconnect clears the [session_id] of his assigned client, Alice, whose
    new session stays. *)
Lemma approval_reuses_id_and_is_undone :
  (let w := run carol_has_asked_dave (init []) in
   let w' := handle_control_response dave (approval carol) (uuid_of 5)
               "09:02:00" w in
   reachable w /\
   Dict.mem dave (clients w) = true /\
   Dict.mem carol (technicians w) = true /\
   Dict.items (active_sessions w)
   = [("00000005", mk_session alice bob "09:01:00")] /\
   Dict.items (active_sessions w')
   = [("00000005", mk_session dave carol "09:02:00")]) /\
  (let w :=
     run [alice_joins; bob_joins; carol_joins; alice_asks_help;
          bob_asks_alice; alice_approves_bob; carol_asks_alice]
         (init (repeat false 11 ++ [true])) in
   let w' := handle_control_response alice (approval carol) (uuid_of 6)
               "09:01:30" w in
   reachable w /\
   Dict.mem alice (clients w) = true /\
   Dict.mem carol (technicians w) = true /\
   Dict.mem "00000006" (active_sessions w') = true /\
   option_map session_id (Dict.get alice (clients w')) = Some None).
Proof.
  split; (split; [apply reachable_run|]);
    cbv zeta; repeat match goal with |- _ /\ _ => split end;
    vm_compute; reflexivity.
Qed.

(** C4 (amended): for an approved control response of a registered client
    [c] for a registered technician [t], the broker draws a session id,
    which it does not check against the ids in use, and puts the session of
    [c] and [t] under it: in place of the session that had this id if there
    was one, and beside every session there was if there was none.  It
    clears [help_requested] of the client and removes its help request,
    sets [assigned_client] of the technician to [c], sends the technician
    [control_approved] with the client's ip and name and the session id,
    and sends [client_unavailable] to every other registered technician and
    not to [t].  The session of [c] and [t] is in the map when the handler
    returns.  The client's [session_id] is the id drawn in the world the
    handler broadcasts from; when the handler returns it is the id drawn
    provided no send raises for another technician whose assigned client
    is [c], and the id drawn or null in any case. *)
Theorem approval_starts_session c t m rnd now w info tech :
  reachable w ->
  Dict.get c (clients w) = Some info ->
  Dict.get t (technicians w) = Some tech ->
  msg_tech_id m = Some t -> msg_approved m = true ->
  let sid := uuid8 rnd in
  let w' := handle_control_response c m rnd now w in
  Dict.get sid (active_sessions w') = Some (mk_session c t now) /\
  (exists info',
     Dict.get c (clients w') = Some info' /\
     help_requested info' = false /\
     (session_id info' = Some sid \/ session_id info' = None)) /\
  ((forall t' tech',
      t' <> t -> Dict.get t' (technicians w) = Some tech' ->
      assigned_client tech' = Some c ->
      ~ failed_send_to t' (emitted w w')) ->
   option_map session_id (Dict.get c (clients w')) = Some (Some sid)) /\
  Dict.get c (help_requests w') = None /\
  Dict.get t (technicians w') = Some (with_assigned_client (Some c) tech) /\
  (let w1 := start_session c t sid now w in
   active_sessions w1
   = Dict.set sid (mk_session c t now) (active_sessions w) /\
   (Dict.get sid (active_sessions w) = None ->
    forall s a,
      Dict.get s (active_sessions w) = Some a ->
      Dict.get s (active_sessions w1) = Some a) /\
   option_map session_id (Dict.get c (clients w1)) = Some (Some sid) /\
   w' = broadcast_to_technicians (Client_unavailable c) (Some t)
          (snd (send (Technician t) (t_socket tech)
                  (Control_approved c (c_ip info) (c_name info) sid)
                  w1))) /\
  exists ok l,
    emitted w w'
    = Send (Technician t) (t_socket tech)
        (Control_approved c (c_ip info) (c_name info) sid) ok :: l /\
    (forall t' tech',
       t' <> t -> Dict.get t' (technicians w) = Some tech' ->
       In (Technician t', t_socket tech', Client_unavailable c) (sends l)) /\
    (forall s p, ~ In (Technician t, s, p) (sends l)).
Proof.
  intros Hr Hc Ht Hm Ha sid w'.
  assert (Hne : t <> "").
  { apply (reachable_technician_ids w Hr). apply mem_true. eauto. }
  assert (Hwf := reachable_sessions_wf w Hr).
  subst w'. unfold handle_control_response. rewrite Hm, Ht, Hc, Ha.
  fold sid.
  set (w1 := start_session c t sid now w).
  set (approved := Control_approved c (c_ip info) (c_name info) sid).
  set (w2 := snd (send (Technician t) (t_socket tech) approved w1)).
  set (info1 := with_help_requested false (with_session_id (Some sid) info)).
  assert (Hc2 : Dict.get c (clients w2) = Some info1).
  { change (clients w2) with (clients w1). unfold w1.
    rewrite start_session_clients, !get_update_eq, Hc. reflexivity. }
  assert (Ht2 : forall t', t' <> t ->
            Dict.get t' (technicians w2) = Dict.get t' (technicians w)).
  { intros t' Hd. change (technicians w2) with (technicians w1). unfold w1.
    rewrite start_session_technicians. apply get_update_ne. congruence. }
  destruct (broadcast_fold_sends (Client_unavailable c) (Some t)
              (Dict.items (technicians w2)) w2) as (lb & Eb & Sb).
  fold (broadcast_to_technicians (Client_unavailable c) (Some t) w2) in Eb.
  assert (Hnot : forall s p, ~ In (Technician t, s, p) (sends lb)).
  { intros s p Hin. rewrite Sb in Hin.
    apply in_map_iff in Hin as ([t' tech'] & E & Hin).
    injection E as -> _ _. apply filter_In in Hin as [_ Hin].
    cbn [fst] in Hin. rewrite excluded_self in Hin by assumption.
    discriminate. }
  assert (Hw2 : wire w2
                = wire w ++ [Send (Technician t) (t_socket tech) approved
                               (negb (hd false (raises w1)))]).
  { unfold w2. cbn [wire send snd]. unfold w1.
    now rewrite start_session_wire. }
  assert (Hem : emitted w
                  (broadcast_to_technicians (Client_unavailable c)
                     (Some t) w2)
                = Send (Technician t) (t_socket tech) approved
                    (negb (hd false (raises w1))) :: lb).
  { apply emitted_app. rewrite Eb, Hw2, <- app_assoc. reflexivity. }
  split; [|split; [|split; [|split; [|split; [|split]]]]].
  - apply broadcast_excluding_keeps_session; auto.
    + change (sessions_wf w1). unfold sessions_wf, w1.
      rewrite start_session_sessions. now apply nodup_set.
    + change (active_sessions w2) with (active_sessions w1). unfold w1.
      rewrite start_session_sessions. apply get_set_eq.
  - destruct (broadcast_keeps _
                (Cascade0 := client_kept_cascade c info1)
                (Client_unavailable c) (Some t) w2)
      as (info' & Hg & Hi); [eauto|].
    exists info'. split; [exact Hg|].
    destruct Hi as [->| ->]; simpl; auto.
  - intros Hno. unfold broadcast_to_technicians.
    rewrite (broadcast_fold_client c _ _ _ w2 lb Eb); [now rewrite Hc2|].
    intros t' tech' Hg Has Hf.
    destruct (String.eqb_spec t' t) as [->|Hd].
    + destruct Hf as (s & p & Hin). apply in_sends in Hin.
      now apply Hnot in Hin.
    + rewrite Ht2 in Hg by assumption.
      apply (Hno t' tech' Hd Hg Has). rewrite Hem.
      destruct Hf as (s & p & Hin). exists s, p. now right.
  - rewrite (broadcast_keeps _
               (Cascade0 := help_requests_cascade (help_requests w2))
               (Client_unavailable c) (Some t) w2 eq_refl).
    change (help_requests w2) with (help_requests w1).
    apply start_session_help_requests.
  - rewrite broadcast_excluding_keeps_technician by assumption.
    change (technicians w2) with (technicians w1). unfold w1.
    rewrite start_session_technicians, get_update_eq, Ht. reflexivity.
  - cbv zeta. fold w1.
    split; [unfold w1; apply start_session_sessions|].
    split; [|split; [|reflexivity]].
    + intros Hfresh s a Hs. unfold w1. rewrite start_session_sessions.
      rewrite get_set_ne; [exact Hs|]. intros <-. fold sid in Hfresh.
      congruence.
    + change (clients w1) with (clients w2). now rewrite Hc2.
  - exists (negb (hd false (raises w1))), lb. split; [exact Hem|].
    split; [|exact Hnot].
    intros t' tech' Hd Hg. rewrite Sb. apply in_map_iff.
    exists (t', tech'). split; [reflexivity|]. apply filter_In. split.
    + apply get_in. now rewrite Ht2.
    + cbn [fst]. now rewrite excluded_other.
Qed.

(** Dave approves Carol while Alice is in session with Bob; the id drawn,
    [00000006], is not in use and no send raises: the session of Alice and
    Bob is kept beside the new one. *)
Lemma approval_starts_session_witness :
  let w := run carol_has_asked_dave (init []) in
  let w' :=
    handle_control_response dave (approval carol) (uuid_of 6) "09:02:00" w in
  Dict.get "00000006" (active_sessions w')
  = Some (mk_session dave carol "09:02:00") /\
  option_map session_id (Dict.get dave (clients w'))
  = Some (Some "00000006") /\
  Dict.get "00000005"
    (active_sessions (start_session dave carol "00000006" "09:02:00" w))
  = Some (mk_session alice bob "09:01:00").
Proof.
  cbv zeta.
  set (w := run carol_has_asked_dave (init [])).
  assert (Hc : Dict.get dave (clients w)
               = Some (mk_client 40 "10.0.0.4" (Some "Client-10.0.0.4")
                         true None "09:00:03"))
    by (vm_compute; reflexivity).
  assert (Ht : Dict.get carol (technicians w)
               = Some (mk_tech 30 "10.0.0.3" (Some "Tech-10.0.0.3") None
                         "09:00:02"))
    by (vm_compute; reflexivity).
  assert (Hf : Dict.get (uuid8 (uuid_of 6)) (active_sessions w) = None)
    by (vm_compute; reflexivity).
  assert (Ho : Dict.get "00000005" (active_sessions w)
               = Some (mk_session alice bob "09:01:00"))
    by (vm_compute; reflexivity).
  assert (H := approval_starts_session dave carol (approval carol)
                 (uuid_of 6) "09:02:00" w _ _ (reachable_run _ _) Hc Ht
                 eq_refl eq_refl).
  assert (Hno : forall t',
            ~ failed_send_to t'
                (emitted w
                   (handle_control_response dave (approval carol)
                      (uuid_of 6) "09:02:00" w))).
  { vm_compute. intros t' (s & p & Hin).
    destruct Hin as [Hin|[Hin|[]]]; discriminate Hin. }
  cbv zeta in H. destruct H as (Hs & _ & Hid & _ & _ & (_ & Hk & _) & _).
  split; [exact Hs|]. split.
  - apply Hid. intros t' tech' _ _ _. apply Hno.
  - exact (Hk Hf _ _ Ho).
Defined.

End MediatorFacts.

(* ================================================================== *)
(** ** Properties of the screen-frame protocol (claim C7) *)

Module FramingFacts.
Import Framing.
Local Open Scope nat_scope.
Local Open Scope list_scope.

Lemma to_bytes4_some size :
  (size < 2 ^ 32)%N -> exists hdr, to_bytes4 size = Some hdr.
Proof.
  intros H. unfold to_bytes4. apply N.ltb_lt in H. rewrite H.
  assert (Hb : forall x, exists b, Byte.of_N (x mod 256) = Some b).
  { intros x. destruct (Byte.of_N (x mod 256)) as [b|] eqn:E; eauto.
    apply Byte.of_N_None_iff in E.
    pose proof (N.mod_upper_bound x 256). lia. }
  destruct (Hb (size / 2 ^ 24)%N) as [b3 ->].
  destruct (Hb (size / 2 ^ 16)%N) as [b2 ->].
  destruct (Hb (size / 2 ^ 8)%N) as [b1 ->].
  destruct (Hb size) as [b0 ->]. eauto.
Qed.

Lemma from_bytes_to_bytes4 size hdr :
  to_bytes4 size = Some hdr -> from_bytes hdr = size /\ List.length hdr = 4.
Proof.
  unfold to_bytes4. destruct (size <? 2 ^ 32)%N eqn:H; [|discriminate].
  apply N.ltb_lt in H.
  destruct (Byte.of_N (size / 2 ^ 24 mod 256)) as [b3|] eqn:E3;
    [|discriminate].
  destruct (Byte.of_N (size / 2 ^ 16 mod 256)) as [b2|] eqn:E2;
    [|discriminate].
  destruct (Byte.of_N (size / 2 ^ 8 mod 256)) as [b1|] eqn:E1;
    [|discriminate].
  destruct (Byte.of_N (size mod 256)) as [b0|] eqn:E0; [|discriminate].
  intros E. injection E as <-. split; [|reflexivity].
  apply Byte.to_of_N in E3, E2, E1, E0.
  unfold from_bytes. cbn [fold_left]. rewrite E3, E2, E1, E0.
  change (2 ^ 24)%N with 16777216%N. change (2 ^ 16)%N with 65536%N.
  change (2 ^ 8)%N with 256%N. change (2 ^ 32)%N with 4294967296%N in H.
  replace (size / 65536)%N with (size / 256 / 256)%N
    by (now rewrite N.Div0.div_div).
  replace (size / 16777216)%N with (size / 256 / 256 / 256)%N
    by (now rewrite !N.Div0.div_div).
  assert (H3 : (size / 256 / 256 / 256 < 256)%N).
  { rewrite !N.Div0.div_div. apply N.Div0.div_lt_upper_bound. lia. }
  rewrite (N.mod_small _ _ H3).
  pose proof (N.Div0.div_mod size 256).
  pose proof (N.Div0.div_mod (size / 256) 256).
  pose proof (N.Div0.div_mod (size / 256 / 256) 256).
  lia.
Qed.

(** *** The loop of [_recv_all] *)

Lemma recv_all_loop_done turns n data s :
  n <= List.length data ->
  recv_all_loop turns n data s = (Returned (Some data), s).
Proof.
  intros H. apply Nat.ltb_ge in H. destruct turns; simpl; now rewrite H.
Qed.

Lemma recv_all_loop_step turns n data ch s :
  List.length data < n -> ch <> [] ->
  recv_all_loop (S turns) n data (Data ch :: s)
  = if List.length ch <=? n - List.length data
    then recv_all_loop turns n (data ++ ch) s
    else recv_all_loop turns n
           (data ++ firstn (n - List.length data) ch)
           (Data (skipn (n - List.length data) ch) :: s).
Proof.
  intros Hlt Hne. cbn [recv_all_loop]. apply Nat.ltb_lt in Hlt as Hb.
  rewrite Hb. unfold recv.
  destruct (List.length ch <=? n - List.length data).
  - destruct ch; [contradiction|reflexivity].
  - destruct ch as [|b ch]; [contradiction|].
    destruct (n - List.length data) eqn:E; [lia|reflexivity].
Qed.

(** The loop never stops for want of turns: each turn that goes on has
    received a byte at least. *)
Lemma recv_all_loop_finishes turns : forall n data s,
  n - List.length data <= turns ->
  fst (recv_all_loop turns n data s) <> Unfinished.
Proof.
  induction turns as [|turns IH]; intros n data s H; cbn [recv_all_loop].
  - destruct (List.length data <? n) eqn:E; [|discriminate].
    apply Nat.ltb_lt in E. lia.
  - destruct (List.length data <? n) eqn:E; [|discriminate].
    apply Nat.ltb_lt in E.
    destruct (recv (n - List.length data) s) as [[[|b p]|] s'];
      try discriminate.
    apply IH. rewrite length_app. cbn [List.length]. lia.
Qed.

Lemma recv_all_finishes n s : fst (recv_all n s) <> Unfinished.
Proof. apply recv_all_loop_finishes. simpl. lia. Qed.

(** From a delivery in non-empty chunks whose bytes start with [a], the
    loop that still needs [length a] bytes collects exactly [a] and leaves
    the rest of the bytes to come, again in non-empty chunks. *)
Lemma recv_all_loop_collects chunks :
  Forall (fun c => c <> []) chunks ->
  forall turns n data a rest,
    List.concat chunks = a ++ rest ->
    List.length data + List.length a = n ->
    List.length a <= turns ->
    exists chunks',
      recv_all_loop turns n data (map Data chunks)
      = (Returned (Some (data ++ a)), map Data chunks') /\
      List.concat chunks' = rest /\
      Forall (fun c => c <> []) chunks'.
Proof.
  induction 1 as [|ch chs Hch Hchs IH];
    intros turns n data a rest Hcat Hlen Hturns.
  - symmetry in Hcat. apply app_eq_nil in Hcat as [-> ->].
    exists []. rewrite app_nil_r.
    rewrite recv_all_loop_done by (simpl in Hlen; lia). auto.
  - destruct a as [|b a].
    + exists (ch :: chs). rewrite app_nil_r.
      rewrite recv_all_loop_done by (simpl in Hlen; lia). auto.
    + destruct turns as [|turns]; [simpl in Hturns; lia|].
      cbn [map]. rewrite recv_all_loop_step
        by (try assumption; simpl in Hlen; lia).
      replace (n - List.length data) with (List.length (b :: a)) by lia.
      cbn [List.concat] in Hcat.
      apply app_eq_app in Hcat as (l & [[E1 E2]|[E1 E2]]).
      * (* the chunk holds all that is needed, and [l] more *)
        destruct l as [|x l].
        -- rewrite app_nil_r in E1. subst ch. rewrite Nat.leb_refl.
           destruct (IH turns n (data ++ b :: a) [] rest) as (cs & -> & R).
           ++ now rewrite E2.
           ++ rewrite length_app. simpl. simpl in Hlen. lia.
           ++ simpl. lia.
           ++ exists cs. now rewrite app_nil_r.
        -- subst ch.
           assert (Hgt : (List.length ((b :: a) ++ x :: l)
                          <=? List.length (b :: a)) = false).
           { apply Nat.leb_gt. rewrite length_app. simpl. lia. }
           rewrite Hgt.
           rewrite firstn_app, firstn_all, Nat.sub_diag, app_nil_r.
           rewrite skipn_app, skipn_all, Nat.sub_diag. cbn [skipn app].
           rewrite recv_all_loop_done
             by (rewrite length_app; simpl; simpl in Hlen; lia).
           exists ((x :: l) :: chs). repeat split; auto.
           constructor; [discriminate|assumption].
      * (* the chunk is a part of what is needed *)
        assert (Hle : (List.length ch <=? List.length (b :: a)) = true).
        { apply Nat.leb_le. rewrite E1, length_app. lia. }
        rewrite Hle.
        destruct (IH turns n (data ++ ch) l rest) as (cs & -> & R).
        -- exact E2.
        -- rewrite length_app. rewrite E1, length_app in Hlen. lia.
        -- rewrite E1, length_app in Hturns.
           destruct ch; [contradiction|]. simpl in Hturns. lia.
        -- exists cs. rewrite E1, <- app_assoc. auto.
Qed.

Lemma bytewise_delivery stream : delivery_of stream (bytewise stream).
Proof.
  unfold delivery_of, bytewise. split.
  - induction stream as [|b r IH]; simpl; congruence.
  - apply Forall_forall. intros c Hc.
    apply in_map_iff in Hc as (b & <- & _). discriminate.
Qed.

Lemma sent_frame_is_received (payload : bytes) :
  (N.of_nat (List.length payload) < 2 ^ 32)%N ->
  exists stream,
    send_frame payload = Some stream /\
    delivery_of stream (bytewise stream) /\
    forall chunks,
      delivery_of stream chunks ->
      exists size_bytes s1,
        recv_all 4 (map Data chunks) = (Returned (Some size_bytes), s1) /\
        N.to_nat (from_bytes size_bytes) = List.length payload /\
        fst (recv_all (N.to_nat (from_bytes size_bytes)) s1)
        = Returned (Some payload).
Proof.
  intros Hfit. unfold send_frame.
  destruct (to_bytes4_some _ Hfit) as (hdr & Hhdr). rewrite Hhdr.
  destruct (from_bytes_to_bytes4 _ _ Hhdr) as [Hfrom Hlen].
  exists (hdr ++ payload). split; [reflexivity|].
  split; [apply bytewise_delivery|].
  intros chunks [Hcat Hne].
  destruct (recv_all_loop_collects chunks Hne 4 4 [] hdr payload)
    as (cs & E1 & Hcs & Hne'); auto; try lia.
  exists hdr, (map Data cs). split; [exact E1|].
  rewrite Hfrom, Nat2N.id. split; [reflexivity|].
  destruct (recv_all_loop_collects cs Hne' (List.length payload)
              (List.length payload) [] payload [])
    as (cs' & E2 & _); auto.
  - now rewrite app_nil_r.
  - unfold recv_all. now rewrite E2.
Qed.

(** C7: a payload whose length fits in four bytes is sent as its length, big
    end first, and then its bytes.  Whatever the chunks, none empty, the
    stream arrives in (one byte at a time is such a delivery), [_recv_all]
    for four bytes returns the bytes of the length, and [_recv_all] for
    that length returns the payload, byte for byte. *)
Theorem frame_round_trip (payload : bytes) :
  (N.of_nat (List.length payload) < 2 ^ 32)%N ->
  exists stream,
    send_frame payload = Some stream /\
    delivery_of stream (bytewise stream) /\
    forall chunks,
      delivery_of stream chunks ->
      exists size_bytes s1,
        recv_all 4 (map Data chunks) = (Returned (Some size_bytes), s1) /\
        N.to_nat (from_bytes size_bytes) = List.length payload /\
        fst (recv_all (N.to_nat (from_bytes size_bytes)) s1)
        = Returned (Some payload).
Proof. exact (sent_frame_is_received payload). Qed.

(** A payload of three bytes. *)
Lemma frame_round_trip_witness :
  exists stream,
    send_frame [x01; x02; x03]%byte = Some stream /\
    delivery_of stream (bytewise stream) /\
    forall chunks,
      delivery_of stream chunks ->
      exists size_bytes s1,
        recv_all 4 (map Data chunks) = (Returned (Some size_bytes), s1) /\
        N.to_nat (from_bytes size_bytes) = 3 /\
        fst (recv_all (N.to_nat (from_bytes size_bytes)) s1)
        = Returned (Some [x01; x02; x03]%byte).
Proof.
  apply (frame_round_trip [x01; x02; x03]%byte). reflexivity.
Defined.

(** What [_receive_screenshots] makes of the two results: it goes on with
    the payload, unless the payload is empty, which it takes for the end of
    the connection. *)
Lemma receive_frame_round_trip (payload : bytes) stream chunks :
  payload <> [] ->
  send_frame payload = Some stream ->
  delivery_of stream chunks ->
  fst (receive_frame (map Data chunks)) = Returned (Some payload).
Proof.
  intros Hne Hsend Hdel.
  assert (Hfit : (N.of_nat (List.length payload) < 2 ^ 32)%N).
  { unfold send_frame, to_bytes4 in Hsend.
    destruct (N.of_nat (List.length payload) <? 2 ^ 32)%N eqn:E;
      [now apply N.ltb_lt|discriminate]. }
  destruct (sent_frame_is_received payload Hfit) as (stream' & Hs & _ & H).
  rewrite Hsend in Hs. injection Hs as <-.
  destruct (H chunks Hdel) as (size_bytes & s1 & E1 & E2 & E3).
  unfold receive_frame. rewrite E1.
  destruct size_bytes as [|b0 bs].
  { simpl in E2. destruct payload; [contradiction|discriminate]. }
  destruct (recv_all _ s1) as [r s2]. simpl in E3. subst r.
  destruct payload; [contradiction|reflexivity].
Qed.

End FramingFacts.

(* ================================================================== *)
(** ** Properties of the client agent's listener (claim C9) *)

Module ClientAgentFacts.
Import ClientAgent.
Local Open Scope nat_scope.
Local Open Scope list_scope.

(** A connection accepted while a technician is connected is closed, and
    nothing else changes. *)
Lemma accept_one_busy a s s' addr :
  technician_socket a = Some s ->
  let a' := fst (accept_one (Connection s' addr) a) in
  snd (accept_one (Connection s' addr) a) = true /\
  control_running a' = control_running a /\
  technician_socket a' = Some s /\
  technician_address a' = technician_address a /\
  served a' = served a /\
  closed a' = closed a ++ [s'].
Proof.
  intros H a'. subst a'. unfold accept_one. cbn [technician_socket].
  rewrite H. cbn. repeat split; auto.
Qed.

Lemma accept_loop_busy incoming : forall a s,
  control_running a = true -> technician_socket a = Some s ->
  let a' := accept_control_connections incoming a in
  technician_socket a' = Some s /\
  served a' = served a /\
  closed a' = closed a ++ accepted_sockets incoming.
Proof.
  induction incoming as [|x rest IH]; intros a s Hrun Hs;
    cbn [accept_control_connections accepted_sockets].
  - now rewrite app_nil_r.
  - rewrite Hrun. destruct x as [s' addr|].
    + destruct (accept_one_busy a s s' addr Hs)
        as (Hgo & Hr & Ht & _ & Hsv & Hcl).
      destruct (accept_one (Connection s' addr) a) as [a1 go_on].
      cbn [fst snd] in *. subst go_on.
      destruct (IH a1 s) as (Ht' & Hsv' & Hcl'); [congruence|assumption|].
      cbv zeta. rewrite Ht', Hsv', Hcl', Hsv, Hcl, <- app_assoc. auto.
    + cbn. now rewrite app_nil_r.
Qed.

Lemma reachable_open_sockets a :
  reachable a -> open_sockets a = held a.
Proof.
  induction 1 as [|a o Hr IH Hnew]; [reflexivity|].
  unfold held in *. destruct o as [|x| |]; cbn [act].
  - unfold start_control_server. now destruct (control_running a).
  - destruct (control_running a); [|assumption].
    destruct x as [s addr|]; [|assumption].
    specialize (Hnew s addr eq_refl). unfold accept_one.
    cbn [technician_socket]. rewrite IH in *.
    destruct (technician_socket a) as [s0|]; cbn.
    + destruct (Nat.eqb_spec s0 s) as [->|_]; [destruct Hnew; now left|].
      now rewrite Nat.eqb_refl.
    + reflexivity.
  - unfold disconnect_technician.
    destruct (technician_socket a) as [s0|] eqn:E; rewrite ?E; cbn;
      [|now rewrite IH].
    rewrite IH. cbn. now rewrite Nat.eqb_refl.
  - unfold stop_control_server, disconnect_technician.
    cbn [technician_socket].
    destruct (technician_socket a) as [s0|] eqn:E; cbn; rewrite ?E;
      [|now rewrite IH].
    rewrite IH. cbn. now rewrite Nat.eqb_refl.
Qed.

(** C9: while a technician is connected, every connection the accept loop
    takes is closed and none is served, the connected technician staying
    the one it was; and at any time the connections accepted and not closed
    are the one in [technician_socket], if any: one at most. *)
Theorem single_controller a :
  (forall s incoming,
     control_running a = true -> technician_socket a = Some s ->
     let a' := accept_control_connections incoming a in
     technician_socket a' = Some s /\
     served a' = served a /\
     closed a' = closed a ++ accepted_sockets incoming) /\
  (reachable a ->
   open_sockets a = held a /\ List.length (open_sockets a) <= 1).
Proof.
  split.
  - intros s incoming. apply accept_loop_busy.
  - intros Hr. pose proof (reachable_open_sockets a Hr) as E.
    split; [exact E|]. rewrite E. unfold held.
    destruct (technician_socket a); simpl; lia.
Qed.

(** Socket 7 is served; sockets 8 and 9 come next and are closed. *)
Lemma single_controller_witness :
  let a := act (Accept (Connection 7 "10.0.0.2")) (act Start initial) in
  let a' :=
    accept_control_connections
      [Connection 8 "10.0.0.3"; Connection 9 "10.0.0.4"] a in
  technician_socket a' = Some 7 /\
  served a' = served a /\
  closed a' = closed a ++ [8; 9].
Proof.
  apply (proj1 (single_controller _) 7); reflexivity.
Defined.

End ClientAgentFacts.

(* ================================================================== *)
(** ** Further properties of the mediator broker *)

Module MediatorMore.
Import Mediator DictFacts MediatorFacts.
Local Open Scope list_scope.

(** *** Broadcasts and the handlers built on them *)

Lemma filter_not_excluded (l : list (string * tech_info)) :
  filter (fun e => negb (excluded None (fst e))) l = l.
Proof.
  induction l as [|e l IH]; simpl; [reflexivity|]. f_equal. exact IH.
Qed.

Lemma broadcast_to_all p w :
  exists l,
    wire (broadcast_to_technicians p None w) = wire w ++ l /\
    sends l = to_all_technicians p w.
Proof.
  destruct (broadcast_fold_sends p None (Dict.items (technicians w)) w)
    as (l & E & S).
  exists l. split; [exact E|]. rewrite S, filter_not_excluded. reflexivity.
Qed.

(** A broadcast sends its message once to each technician of the registry
    it finds, but the excluded one, in the order of the registry, and
    sends nothing else; with nobody excluded it sends to all of them. *)
Theorem broadcast_reaches_each_technician p ex w :
  sends (emitted w (broadcast_to_technicians p ex w))
  = map (fun e : string * tech_info =>
           (Technician (fst e), t_socket (snd e), p))
        (filter (fun e => negb (excluded ex (fst e)))
                (Dict.items (technicians w))) /\
  sends (emitted w (broadcast_to_technicians p None w))
  = to_all_technicians p w.
Proof.
  split; [apply broadcast_sends|].
  rewrite broadcast_sends, filter_not_excluded. reflexivity.
Qed.

(** [handle_help_request] for a registered client: the client stays
    registered with [help_requested] set, its request is recorded as
    pending with the time of the call, every registered technician is sent
    one [new_help_request] with the client's name and ip, and the client is
    then sent [help_confirmed].  For an id that is not registered nothing
    happens. *)
Theorem help_request_is_announced c now w :
  (Dict.mem c (clients w) = false -> handle_help_request c now w = w) /\
  (forall info,
     Dict.get c (clients w) = Some info ->
     let w' := handle_help_request c now w in
     (exists info',
        Dict.get c (clients w') = Some info' /\
        help_requested info' = true) /\
     Dict.get c (help_requests w') = Some (mk_help now "pending") /\
     exists l ok,
       emitted w w'
       = l ++ [Send (Client c) (c_socket info) Help_confirmed ok] /\
       sends l
       = to_all_technicians
           (New_help_request c (c_name info) (c_ip info) now) w).
Proof.
  split.
  { intros H. unfold handle_help_request. now rewrite H. }
  intros info Hc w'. subst w'. unfold handle_help_request.
  assert (Hm : Dict.mem c (clients w) = true) by (apply mem_true; eauto).
  rewrite Hm. cbn [negb].
  set (w2 := set_help_requests (Dict.set c (mk_help now "pending"))
               (set_clients (Dict.update c (with_help_requested true)) w)).
  set (info1 := with_help_requested true info).
  assert (Hc2 : Dict.get c (clients w2) = Some info1).
  { unfold w2. cbn [clients set_clients set_help_requests].
    now rewrite get_update_eq, Hc. }
  rewrite Hc2.
  set (p := New_help_request c (c_name info1) (c_ip info1) now).
  destruct (broadcast_keeps _ (Cascade0 := client_kept_cascade c info1)
              p None w2) as (info' & Hg & Hi); [eauto|].
  rewrite Hg.
  assert (Hs : c_socket info' = c_socket info)
    by (destruct Hi as [->| ->]; reflexivity).
  assert (Hh : help_requests (broadcast_to_technicians p None w2)
               = help_requests w2).
  { apply (broadcast_keeps _
             (Cascade0 := help_requests_cascade (help_requests w2))).
    reflexivity. }
  destruct (broadcast_to_all p w2) as (l & El & Sl).
  split; [|split].
  - exists info'. split; [exact Hg|]. destruct Hi as [->| ->]; reflexivity.
  - cbn [help_requests send snd]. rewrite Hh. unfold w2.
    cbn [help_requests set_help_requests]. apply get_set_eq.
  - exists l. eexists. split; [|exact Sl].
    apply emitted_app. cbn [wire send snd]. rewrite El, Hs.
    rewrite <- app_assoc. reflexivity.
Qed.

(** Alice asks for help while Bob and Carol are registered. *)
Lemma help_request_is_announced_witness :
  let w := run [alice_joins; bob_joins; carol_joins] (init []) in
  Dict.get alice (help_requests (handle_help_request alice "09:00:30" w))
  = Some (mk_help "09:00:30" "pending").
Proof.
  cbv zeta.
  refine (proj1 (proj2 (proj2 (help_request_is_announced alice "09:00:30" _)
                          (mk_client 10 "10.0.0.1"
                             (Some "Client-10.0.0.1") false
                             None "09:00:00") _))).
  vm_compute. reflexivity.
Defined.

(** [handle_cancel_help] for a registered client: the client stays
    registered with [help_requested] cleared, its help request is gone, and
    every registered technician is sent one [help_cancelled]; nothing is
    sent to the client.  For an id that is not registered nothing
    happens. *)
Theorem cancel_help_is_announced c w :
  (Dict.mem c (clients w) = false -> handle_cancel_help c w = w) /\
  (forall info,
     Dict.get c (clients w) = Some info ->
     let w' := handle_cancel_help c w in
     (exists info',
        Dict.get c (clients w') = Some info' /\
        help_requested info' = false) /\
     Dict.get c (help_requests w') = None /\
     sends (emitted w w') = to_all_technicians (Help_cancelled c) w).
Proof.
  split.
  { intros H. unfold handle_cancel_help. now rewrite H. }
  intros info Hc w'. subst w'. unfold handle_cancel_help.
  assert (Hm : Dict.mem c (clients w) = true) by (apply mem_true; eauto).
  rewrite Hm. cbn [negb].
  set (w1 := set_clients (Dict.update c (with_help_requested false)) w).
  set (w2 := if Dict.mem c (help_requests w1)
             then set_help_requests (Dict.del c) w1 else w1).
  set (info1 := with_help_requested false info).
  assert (E2 : clients w2 = clients w1 /\ technicians w2 = technicians w
               /\ wire w2 = wire w /\ Dict.get c (help_requests w2) = None).
  { unfold w2. destruct (Dict.mem c (help_requests w1)) eqn:E.
    - repeat split; try reflexivity. apply get_del_eq.
    - repeat split; try reflexivity. now apply mem_false. }
  destruct E2 as (Ec & Et & Ew & Eh).
  assert (Hc2 : Dict.get c (clients w2) = Some info1).
  { rewrite Ec. unfold w1. cbn [clients set_clients].
    now rewrite get_update_eq, Hc. }
  destruct (broadcast_keeps _ (Cascade0 := client_kept_cascade c info1)
              (Help_cancelled c) None w2) as (info' & Hg & Hi); [eauto|].
  destruct (broadcast_to_all (Help_cancelled c) w2) as (l & El & Sl).
  split; [|split].
  - exists info'. split; [exact Hg|]. destruct Hi as [->| ->]; reflexivity.
  - rewrite (broadcast_keeps _
               (Cascade0 := help_requests_cascade (help_requests w2))
               (Help_cancelled c) None w2 eq_refl). exact Eh.
  - rewrite Ew in El. rewrite (emitted_app _ _ _ El), Sl.
    unfold to_all_technicians. now rewrite Et.
Qed.

(** Alice asks for help and thinks better of it. *)
Lemma cancel_help_is_announced_witness :
  let w := run [alice_joins; bob_joins; alice_asks_help] (init []) in
  Dict.get alice (help_requests (handle_cancel_help alice w)) = None.
Proof.
  cbv zeta.
  refine (proj1 (proj2 (proj2 (cancel_help_is_announced alice _)
                          (mk_client 10 "10.0.0.1" (Some "Client-10.0.0.1") true
                             None "09:00:00") _))).
  vm_compute. reflexivity.
Defined.

(** *** Invariants that a disconnect breaks on its way *)

(** The maps [disconnect_client] hands to its broadcast. *)
Lemma disconnect_client_maps c w info :
  Dict.get c (clients w) = Some info ->
  exists w4,
    disconnect_client c w
    = broadcast_to_technicians (Client_disconnected c) None w4 /\
    clients w4 = Dict.del c (clients w) /\
    help_requests w4 = Dict.del c (help_requests w) /\
    technicians w4 = technicians w /\
    wire w4 = wire w ++ [Close (c_socket info)].
Proof.
  intros Hc. unfold disconnect_client. rewrite Hc.
  eexists. split; [reflexivity|].
  cbn [technicians clients help_requests wire set_clients close].
  assert (H1 : forall w1,
            clients w1 = clients w -> help_requests w1 = help_requests w ->
            technicians w1 = technicians w -> wire w1 = wire w ->
            let w2 := if Dict.mem c (help_requests w1)
                      then set_help_requests (Dict.del c) w1 else w1 in
            Dict.del c (clients w2) = Dict.del c (clients w) /\
            help_requests w2 = Dict.del c (help_requests w) /\
            technicians w2 = technicians w /\
            wire w2 ++ [Close (c_socket info)]
            = wire w ++ [Close (c_socket info)]).
  { intros w1 E1 E2 E3 E4. cbv zeta.
    destruct (Dict.mem c (help_requests w1)) eqn:Em;
      cbn [clients help_requests technicians wire set_help_requests];
      rewrite ?E1, ?E2, ?E3, ?E4; repeat split; auto.
    symmetry. apply del_absent. rewrite <- E2. now apply mem_false. }
  apply H1; destruct (session_id info) as [s|]; try reflexivity;
    (destruct (truthy (Some s) && Dict.mem s (active_sessions w));
     [|reflexivity]);
    cbn [active_sessions set_active_sessions]; rewrite get_del_eq;
    reflexivity.
Qed.

(** A step keeps what the cascade and each handler keep. *)
Section Orderly.
Context (P : world -> Prop) `{!Cascade P}.
Hypothesis keeps_disconnect_client :
  forall c w, P w -> P (disconnect_client c w).
Hypothesis keeps_end_session :
  forall t m w, P w -> P (handle_end_session t m w).
Hypothesis keeps_new_client :
  forall rnd s ip n now w,
    P w ->
    P (set_clients
         (Dict.set (uuid8 rnd) (mk_client s ip n false None now)) w).
Hypothesis keeps_new_technician :
  forall rnd s ip n now w,
    P w ->
    P (set_technicians (Dict.set (uuid8 rnd) (mk_tech s ip n None now)) w).
Hypothesis keeps_stop :
  forall r l,
    P (mk_world Dict.empty Dict.empty Dict.empty Dict.empty r l).
Hypothesis keeps_help_request :
  forall c now w, P w -> P (handle_help_request c now w).
Hypothesis keeps_cancel_help :
  forall c w, P w -> P (handle_cancel_help c w).
Hypothesis keeps_control_response :
  forall c m rnd now w, P w -> P (handle_control_response c m rnd now w).

Lemma orderly_timeout_client c w :
  P w -> P (step (Client_timeout c) w).
Proof.
  intros HP. cbn [step]. destruct (Dict.get c (clients w)); auto.
  destruct (send (Client c) (c_socket c0) Heartbeat w) as [ok w1] eqn:E.
  pose proof (send_snd _ _ _ _ _ _ E) as ->.
  destruct ok; [|apply keeps_disconnect_client]; now apply cl_send.
Qed.

Lemma orderly_timeout_technician t w :
  P w -> P (step (Technician_timeout t) w).
Proof.
  intros HP. cbn [step].
  destruct (Dict.get t (technicians w));
    [|now apply disconnect_technician_keeps].
  destruct (send (Technician t) (t_socket t0) Heartbeat w) as [ok w1] eqn:E.
  pose proof (send_snd _ _ _ _ _ _ E) as ->.
  destruct ok; [|apply disconnect_technician_keeps; [assumption|]];
    now apply cl_send.
Qed.

Lemma orderly_step o w : P w -> P (step o w).
Proof.
  intros HP.
  destruct o as [sock ip m rnd now|c m rnd now|c|c|t m|t|t| |].
  - cbn [step]. unfold handle_connection.
    destruct (msg_type m) as [ty|]; [|now apply cl_close].
    destruct (String.eqb ty "client_connect").
    + unfold handle_client_connection.
      destruct (send _ _ _ _) as [ok w1] eqn:E.
      pose proof (send_snd _ _ _ _ _ _ E) as ->.
      destruct ok; [|apply keeps_disconnect_client]; apply cl_send; auto.
    + destruct (String.eqb ty "technician_connect"); [|now apply cl_close].
      unfold handle_technician_connection.
      destruct (send _ _ _ _) as [ok w1] eqn:E.
      pose proof (send_snd _ _ _ _ _ _ E) as ->.
      destruct ok; [|apply disconnect_technician_keeps; [assumption|]];
        apply cl_send; auto.
  - cbn [step]. destruct (Dict.mem c (clients w)); auto.
    unfold process_client_message.
    destruct (msg_type m) as [ty|]; auto.
    destruct (String.eqb ty "help_request"); auto.
    destruct (String.eqb ty "cancel_help"); auto.
    destruct (String.eqb ty "control_response"); auto.
    destruct (String.eqb ty "heartbeat_response"); auto.
  - now apply orderly_timeout_client.
  - cbn [step]. auto.
  - cbn [step]. destruct (Dict.mem t (technicians w));
      [|now apply disconnect_technician_keeps].
    unfold process_technician_message.
    destruct (msg_type m) as [ty|]; auto.
    destruct (String.eqb ty "request_control").
    { unfold handle_control_request.
      destruct (msg_client_id m) as [c|]; auto.
      destruct (Dict.get c (clients w)); auto.
      destruct (Dict.get t (technicians w)); auto. now apply cl_send. }
    destruct (String.eqb ty "end_session"); auto.
    destruct (String.eqb ty "heartbeat_response"); auto.
  - now apply orderly_timeout_technician.
  - cbn [step]. now apply disconnect_technician_keeps.
  - cbn [step]. unfold heartbeat_checker.
    apply fold_left_keeps.
    { intros w0 t H0. apply (orderly_timeout_technician t w0 H0). }
    apply fold_left_keeps; [|assumption].
    intros w0 c H0. apply (orderly_timeout_client c w0 H0).
  - cbn [step]. unfold stop_server. apply keeps_stop.
Qed.

Lemma orderly_reachable w : reachable w -> P w.
Proof.
  induction 1 as [r|w o Hr IH _]; [apply keeps_stop|].
  now apply orderly_step.
Qed.

End Orderly.

(** *** A raised flag has its help request *)

Lemma pending_ext w w' :
  clients w' = clients w -> help_requests w' = help_requests w ->
  pending_recorded w -> pending_recorded w'.
Proof. unfold pending_recorded. intros -> ->. auto. Qed.

(** Changing entries of [clients] without raising a flag, and entries of
    [help_requests] only for clients whose flag is down afterwards. *)
Lemma pending_change w w' :
  (forall c info',
     Dict.get c (clients w') = Some info' -> help_requested info' = true ->
     (exists info, Dict.get c (clients w) = Some info /\
                   help_requested info = true) /\
     Dict.get c (help_requests w') = Dict.get c (help_requests w)) ->
  pending_recorded w -> pending_recorded w'.
Proof.
  intros H HP c info' Hg Hh.
  destruct (H c info' Hg Hh) as ((info & Hg0 & Hh0) & ->). eauto.
Qed.

Lemma pending_cascade : Cascade pending_recorded.
Proof.
  constructor; intros; try (eapply pending_ext; [| |eassumption]; reflexivity).
  eapply pending_change; [|eassumption].
  intros c0 info' Hg Hh. cbn [clients set_clients] in Hg.
  apply get_update_some in Hg as (v0 & Hv0 & [->|[_ ->]]); eauto.
Qed.

Lemma pending_disconnect_client c w :
  pending_recorded w -> pending_recorded (disconnect_client c w).
Proof.
  intros HP. destruct (Dict.get c (clients w)) as [info|] eqn:Hc.
  - destruct (disconnect_client_maps c w info Hc)
      as (w4 & -> & Ec & Eh & _).
    apply (broadcast_keeps _ (Cascade0 := pending_cascade)).
    eapply pending_change; [|exact HP].
    intros c0 info' Hg Hh. rewrite Ec in Hg. rewrite Eh.
    apply get_del_some in Hg as [Hne Hg].
    split; [eauto|]. now apply get_del_ne.
  - unfold disconnect_client. now rewrite Hc.
Qed.

Lemma pending_end_session t m w :
  pending_recorded w -> pending_recorded (handle_end_session t m w).
Proof.
  intros HP. unfold handle_end_session.
  destruct (msg_session_id m) as [sid|]; auto.
  destruct (Dict.get sid (active_sessions w)) as [a|]; auto.
  assert (H2 : pending_recorded
                 (if Dict.mem (client_id a)
                       (clients (set_active_sessions (Dict.del sid) w))
                  then set_clients
                         (Dict.update (client_id a) (with_session_id None))
                         (set_active_sessions (Dict.del sid) w)
                  else set_active_sessions (Dict.del sid) w)).
  { destruct (Dict.mem _ _);
      [apply (cl_clear_session_id (Cascade := pending_cascade))|];
      now apply (cl_del_session (Cascade := pending_cascade)). }
  destruct (Dict.mem t _); [|exact H2].
  eapply pending_ext; [| |exact H2]; reflexivity.
Qed.

Lemma pending_help_request c now w :
  pending_recorded w -> pending_recorded (handle_help_request c now w).
Proof.
  intros HP. unfold handle_help_request.
  destruct (Dict.mem c (clients w)); cbn [negb]; auto.
  set (w2 := set_help_requests (Dict.set c (mk_help now "pending"))
               (set_clients (Dict.update c (with_help_requested true)) w)).
  assert (H2 : pending_recorded w2).
  { intros c0 info' Hg Hh. unfold w2 in *.
    cbn [clients help_requests set_clients set_help_requests] in *.
    destruct (String.eqb_spec c c0) as [<-|Hne].
    - rewrite get_set_eq. eauto.
    - rewrite get_update_ne in Hg by assumption.
      rewrite get_set_ne by assumption. eauto. }
  destruct (Dict.get c (clients w2)); auto.
  assert (H3 := broadcast_keeps _ (Cascade0 := pending_cascade)
                  (New_help_request c (c_name c0) (c_ip c0) now) None w2 H2).
  destruct (Dict.get c _); [|exact H3].
  now apply (cl_send (Cascade := pending_cascade)).
Qed.

Lemma pending_cancel_help c w :
  pending_recorded w -> pending_recorded (handle_cancel_help c w).
Proof.
  intros HP. unfold handle_cancel_help.
  destruct (Dict.mem c (clients w)); cbn [negb]; auto.
  apply (broadcast_keeps _ (Cascade0 := pending_cascade)).
  eapply pending_change; [|exact HP].
  intros c0 info' Hg Hh.
  assert (Hg' : Dict.get c0
                  (Dict.update c (with_help_requested false) (clients w))
                = Some info') by (now destruct (Dict.mem c _)).
  destruct (String.eqb_spec c c0) as [<-|Hne].
  - rewrite get_update_eq in Hg'.
    destruct (Dict.get c (clients w)); [|discriminate].
    injection Hg' as <-. discriminate.
  - rewrite get_update_ne in Hg' by assumption. split; [eauto|].
    destruct (Dict.mem c _); [|reflexivity]. now apply get_del_ne.
Qed.

Lemma pending_start_session c t sid now w :
  pending_recorded w -> pending_recorded (start_session c t sid now w).
Proof.
  intros HP. eapply pending_change; [|exact HP].
  intros c0 info' Hg Hh. rewrite start_session_clients in Hg.
  destruct (String.eqb_spec c c0) as [<-|Hne].
  - rewrite !get_update_eq in Hg.
    destruct (Dict.get c (clients w)); [|discriminate].
    injection Hg as <-. discriminate.
  - rewrite !get_update_ne in Hg by assumption. split; [eauto|].
    unfold start_session. destruct (Dict.mem c _); [|reflexivity].
    now apply get_del_ne.
Qed.

Lemma pending_control_response c m rnd now w :
  pending_recorded w ->
  pending_recorded (handle_control_response c m rnd now w).
Proof.
  intros HP. unfold handle_control_response.
  destruct (msg_tech_id m) as [t|]; auto.
  destruct (Dict.get t (technicians w)) as [tech|]; auto.
  destruct (Dict.get c (clients w)) as [info|]; auto.
  destruct (msg_approved m);
    [|now apply (cl_send (Cascade := pending_cascade))].
  apply (broadcast_keeps _ (Cascade0 := pending_cascade)).
  apply (cl_send (Cascade := pending_cascade)).
  now apply pending_start_session.
Qed.

Lemma reachable_pending_recorded w : reachable w -> pending_recorded w.
Proof.
  apply (orderly_reachable _ (Cascade0 := pending_cascade)).
  - apply pending_disconnect_client.
  - apply pending_end_session.
  - intros rnd s ip n now w0 HP. eapply pending_change; [|exact HP].
    intros c0 info' Hg Hh. cbn [clients set_clients] in Hg.
    destruct (String.eqb_spec (uuid8 rnd) c0) as [E|Hne].
    + subst c0. rewrite get_set_eq in Hg. injection Hg as <-. discriminate.
    + rewrite get_set_ne in Hg by assumption. eauto.
  - intros rnd s ip n now w0 HP.
    eapply pending_ext; [| |exact HP]; reflexivity.
  - intros r l c0 info Hg. discriminate.
  - apply pending_help_request.
  - apply pending_cancel_help.
  - apply pending_control_response.
Qed.

(** In every state the broker reaches, a registered client whose
    [help_requested] is set has an entry in [help_requests], with status
    [pending]. *)
Theorem flagged_client_has_pending_request w c info :
  reachable w ->
  Dict.get c (clients w) = Some info -> help_requested info = true ->
  exists h, Dict.get c (help_requests w) = Some h /\ status h = "pending".
Proof.
  intros Hr. apply (reachable_pending_recorded w Hr).
Qed.

(** Alice has asked for help. *)
Lemma flagged_client_has_pending_request_witness :
  exists h,
    Dict.get alice
      (help_requests (run [alice_joins; alice_asks_help] (init [])))
    = Some h /\ status h = "pending".
Proof.
  apply (flagged_client_has_pending_request _ alice
           (mk_client 10 "10.0.0.1" (Some "Client-10.0.0.1") true None
              "09:00:00")
           (reachable_run _ _)); vm_compute; reflexivity.
Defined.

(** *** The welcome of a technician *)

Lemma nodup_update {V} k (f : V -> V) (d : Dict.t V) :
  NoDup (Dict.keys d) -> NoDup (Dict.keys (Dict.update k f d)).
Proof.
  intros H. unfold Dict.update. destruct (Dict.get k d); [|assumption].
  now apply nodup_set.
Qed.

Lemma clients_wf_stable : Stable clients_wf.
Proof.
  constructor; [constructor; [constructor|..]|..]; intros; auto;
    unfold clients_wf in *; cbn [clients set_clients init];
    try (now apply nodup_update); try (now apply nodup_del);
    try (now apply nodup_set); try constructor.
Qed.

Lemma reachable_clients_wf w : reachable w -> clients_wf w.
Proof.
  apply (reachable_by_keeps _ (Stable0 := clients_wf_stable)).
  - intros w0 c m rnd now H _ _ _. unfold clients_wf in *.
    cbn [clients set_clients]. now apply nodup_update.
  - intros w0 c m rnd now t H _ _ _ _ _ _. unfold clients_wf.
    rewrite start_session_clients. now do 2 apply nodup_update.
Qed.

(** A technician that connects to a broker in a reachable state is sent a
    welcome with its id and the list of open help requests: the list holds
    exactly the registered clients with [help_requested] set and no
    session, each with its name, its ip and the timestamp of its recorded
    help request (the default, the empty timestamp, is never used). *)
Theorem welcome_lists_open_requests sock ip m rnd now w :
  reachable w ->
  let w' := handle_technician_connection sock ip m rnd now w in
  exists ok l,
    emitted w w'
    = Send (Technician (uuid8 rnd)) sock
        (Welcome_technician (uuid8 rnd) (help_list_of w)) ok :: l /\
    forall e,
      In e (help_list_of w) <->
      exists info h,
        Dict.get (he_client_id e) (clients w) = Some info /\
        help_requested info = true /\
        truthy (session_id info) = false /\
        Dict.get (he_client_id e) (help_requests w) = Some h /\
        e = mk_help_entry (he_client_id e) (c_name info) (c_ip info)
              (timestamp h).
Proof.
  intros Hr w'. subst w'.
  pose proof (reachable_clients_wf w Hr) as Hwf.
  pose proof (reachable_pending_recorded w Hr) as Hp.
  unfold handle_technician_connection.
  set (t := uuid8 rnd).
  set (w1 := set_technicians (Dict.set t _) w).
  change (help_list_of w1) with (help_list_of w).
  destruct (send (Technician t) sock
              (Welcome_technician t (help_list_of w)) w1) as [ok w2] eqn:E.
  pose proof (send_snd _ _ _ _ _ _ E) as ->.
  assert (Hok : ok = negb (hd false (raises w1)))
    by (unfold send in E; now injection E as <-).
  exists ok.
  assert (Hl : exists l,
            emitted w
              (if ok then
                 snd (send (Technician t) sock
                        (Welcome_technician t (help_list_of w)) w1)
               else
                 disconnect_technician t
                   (snd (send (Technician t) sock
                           (Welcome_technician t (help_list_of w)) w1)))
            = Send (Technician t) sock
                (Welcome_technician t (help_list_of w)) ok :: l).
  { destruct ok; eexists; apply emitted_app.
    + cbn [wire send snd]. change (wire w1) with (wire w).
      rewrite <- Hok. reflexivity.
    + rewrite wire_disconnect_technician. cbn [wire send snd technicians].
      change (wire w1) with (wire w). rewrite <- Hok, <- app_assoc.
      reflexivity. }
  destruct Hl as (l & Hl). exists l. split; [exact Hl|].
  clear Hl E Hok. intros e. unfold help_list_of. rewrite in_flat_map. split.
    + intros ([c info] & Hin & He).
      apply (nodup_in_get _ _ _ Hwf) in Hin.
      destruct (help_requested info) eqn:Hh; [|destruct He].
      destruct (truthy (session_id info)) eqn:Hs; [destruct He|].
      destruct He as [<-|[]]. cbn [he_client_id].
      destruct (Hp c info Hin Hh) as (h & Hg & _).
      exists info, h. rewrite Hg. auto.
    + intros (info & h & Hg & Hh & Hs & Hq & He).
      exists (he_client_id e, info). split; [now apply get_in|].
      rewrite Hh, Hs, Hq. cbn [andb negb]. left. symmetry. exact He.
Qed.

(** Bob joins after Alice has asked for help. *)
Lemma welcome_lists_open_requests_witness :
  exists ok l,
    emitted (run [alice_joins; alice_asks_help] (init []))
      (step bob_joins (run [alice_joins; alice_asks_help] (init [])))
    = Send (Technician bob) 20
        (Welcome_technician bob
           [mk_help_entry alice (Some "Client-10.0.0.1") "10.0.0.1" "09:00:30"])
        ok :: l.
Proof.
  destruct (welcome_lists_open_requests 20 "10.0.0.2"
              (plain "technician_connect") (uuid_of 2) "09:00:01"
              (run [alice_joins; alice_asks_help] (init []))
              (reachable_run _ _)) as (ok & l & E & _).
  exists ok, l. exact E.
Defined.

(** *** Where sessions come from *)

Lemma sessions_from_stable (d0 : Dict.t active_session)
  (Q : string -> active_session -> Prop) :
  Cleanup (fun w => forall s a,
             Dict.get s (active_sessions w) = Some a ->
             Dict.get s d0 = Some a \/ Q s a).
Proof.
  constructor; [constructor|..]; intros; auto.
  cbn [active_sessions set_active_sessions] in *.
  match goal with H : Dict.get _ (Dict.del _ _) = _ |- _ =>
    apply get_del_some in H as [_ H] end.
  auto.
Qed.

(** No step gives the broker an active session but the approval of a
    control request: a session found after a step was there before it, or
    the step is an approved [control_response] of a client [c] for a
    technician [t] and the session is the one of [c] and [t], under the id
    drawn in the step. *)
Theorem sessions_come_from_approvals o w s a :
  Dict.get s (active_sessions (step o w)) = Some a ->
  Dict.get s (active_sessions w) = Some a \/
  exists c m rnd now t,
    o = Client_recv c m rnd now /\
    msg_type m = Some "control_response" /\ msg_approved m = true /\
    msg_tech_id m = Some t /\
    s = uuid8 rnd /\ a = mk_session c t now.
Proof.
  set (Q := fun s a =>
              exists c m rnd now t,
                o = Client_recv c m rnd now /\
                msg_type m = Some "control_response" /\
                msg_approved m = true /\ msg_tech_id m = Some t /\
                s = uuid8 rnd /\ a = mk_session c t now).
  set (P := fun w' => forall s a,
              Dict.get s (active_sessions w') = Some a ->
              Dict.get s (active_sessions w) = Some a \/ Q s a).
  assert (HS : Stable P).
  { constructor; [apply sessions_from_stable|..]; unfold P; intros;
      try discriminate; auto. }
  revert s a. change (P (step o w)).
  apply (step_keeps P); unfold P; auto.
  intros c m rnd now t -> Hty Ht Hap _ _ s a Hg.
  rewrite start_session_sessions in Hg.
  destruct (String.eqb_spec (uuid8 rnd) s) as [E|Hne].
  - subst s. rewrite get_set_eq in Hg. injection Hg as <-.
    right. exists c, m, rnd, now, t. auto 10.
  - rewrite get_set_ne in Hg by assumption. auto.
Qed.

(** The session of Alice and Bob comes from Alice's approval. *)
Lemma sessions_come_from_approvals_witness :
  let w :=
    run [alice_joins; bob_joins; alice_asks_help; bob_asks_alice] (init []) in
  Dict.get "00000005" (active_sessions w)
  = Some (mk_session alice bob "09:01:00") \/
  exists c m rnd now t,
    alice_approves_bob = Client_recv c m rnd now /\
    msg_type m = Some "control_response" /\ msg_approved m = true /\
    msg_tech_id m = Some t /\
    "00000005" = uuid8 rnd /\
    mk_session alice bob "09:01:00" = mk_session c t now.
Proof.
  cbv zeta. apply sessions_come_from_approvals. vm_compute. reflexivity.
Defined.

(** *** Disconnects, registration, stop *)

(** [disconnect_technician] for a registered technician: the technician
    leaves the registry, its socket is closed and nothing is sent to
    anybody; no help request changes.  If its assigned client is registered
    and a session of the technician exists, the first such session is
    removed and the assigned client's [session_id] is cleared; if the
    assigned client is unset or not registered, or the technician has no
    session, sessions and clients stay as they are. *)
Theorem technician_disconnect_ends_session t w tech :
  Dict.get t (technicians w) = Some tech ->
  let w' := disconnect_technician t w in
  Dict.mem t (technicians w') = false /\
  help_requests w' = help_requests w /\
  emitted w w' = [Close (t_socket tech)] /\
  (forall c sid a,
     assigned_client tech = Some c -> c <> "" ->
     Dict.mem c (clients w) = true ->
     session_of_tech t (active_sessions w) = Some (sid, a) ->
     active_sessions w' = Dict.del sid (active_sessions w) /\
     clients w' = Dict.update c (with_session_id None) (clients w)) /\
  (mem_opt (assigned_client tech) (clients w) = false \/
   session_of_tech t (active_sessions w) = None ->
   active_sessions w' = active_sessions w /\ clients w' = clients w).
Proof.
  intros Ht w'. subst w'.
  split; [|split; [|split; [|split]]].
  - rewrite disconnect_technician_technicians. apply mem_del_eq.
  - apply disconnect_technician_cases.
  - apply emitted_app. rewrite wire_disconnect_technician. now rewrite Ht.
  - intros c sid a Ha Hne Hm Hs. unfold disconnect_technician.
    rewrite Ht, Ha, Hs. cbn [truthy mem_opt]. rewrite Hm.
    destruct (String.eqb_spec c ""); [contradiction|]. cbn. auto.
  - intros H. unfold disconnect_technician. rewrite Ht.
    destruct (assigned_client tech) as [c|]; cbn [mem_opt truthy] in *.
    + destruct H as [-> | ->]; [rewrite andb_false_r; auto|].
      destruct (_ && _); auto.
    + cbn. auto.
Qed.

(** Bob, in session with Alice, loses his connection. *)
Lemma technician_disconnect_ends_session_witness :
  let w := run session_of_alice_and_bob (init []) in
  Dict.mem bob (technicians (disconnect_technician bob w)) = false.
Proof.
  cbv zeta.
  refine (proj1 (technician_disconnect_ends_session bob _
                   (mk_tech 20 "10.0.0.2" (Some "Tech-10.0.0.2") (Some alice)
                      "09:00:01") _)).
  vm_compute. reflexivity.
Defined.

(** [disconnect_client] for a registered client: the client leaves the
    registry and its help request is removed, its socket is closed, and
    every registered technician is then sent one [client_disconnected]. *)
Theorem client_disconnect_is_announced c w info :
  Dict.get c (clients w) = Some info ->
  let w' := disconnect_client c w in
  Dict.mem c (clients w') = false /\
  Dict.get c (help_requests w') = None /\
  exists l,
    emitted w w' = Close (c_socket info) :: l /\
    sends l = to_all_technicians (Client_disconnected c) w.
Proof.
  intros Hc w'. subst w'.
  destruct (disconnect_client_maps c w info Hc)
    as (w4 & -> & Ec & Eh & Et & Ew).
  split; [|split].
  - apply (broadcast_keeps _ (Cascade0 := client_absent_cascade c)).
    rewrite Ec. apply mem_del_eq.
  - rewrite (broadcast_keeps _
               (Cascade0 := help_requests_cascade (help_requests w4))
               (Client_disconnected c) None w4 eq_refl).
    rewrite Eh. apply get_del_eq.
  - destruct (broadcast_to_all (Client_disconnected c) w4) as (l & El & Sl).
    exists l. split.
    + apply emitted_app. rewrite El, Ew, <- app_assoc. reflexivity.
    + rewrite Sl. unfold to_all_technicians. now rewrite Et.
Qed.

(** Alice, who had asked for help, loses her connection. *)
Lemma client_disconnect_is_announced_witness :
  let w := run [alice_joins; bob_joins; alice_asks_help] (init []) in
  Dict.mem alice (clients (disconnect_client alice w)) = false.
Proof.
  cbv zeta.
  refine (proj1 (client_disconnect_is_announced alice _
                   (mk_client 10 "10.0.0.1" (Some "Client-10.0.0.1") true None
                      "09:00:00") _)).
  vm_compute. reflexivity.
Defined.

Lemma fold_close {A} (f : A -> nat) (l : list A) : forall w,
  let w' := fold_left (fun w x => close (f x) w) l w in
  registries w' = registries w /\ raises w' = raises w /\
  wire w' = wire w ++ map (fun x => Close (f x)) l.
Proof.
  induction l as [|x l IH]; intros w; cbn [fold_left map].
  - now rewrite app_nil_r.
  - destruct (IH (close (f x) w)) as (E1 & E2 & E3).
    cbv zeta. rewrite E1, E2, E3. cbn [wire close].
    now rewrite <- app_assoc.
Qed.

(** [stop_server] closes the socket of every registered client, then the
    socket of every registered technician, sends nothing, and leaves the
    four registries empty. *)
Theorem stop_server_clears_everything w :
  let w' := stop_server w in
  registries w' = (Dict.empty, Dict.empty, Dict.empty, Dict.empty) /\
  emitted w w'
  = map (fun kv : string * client_info => Close (c_socket (snd kv)))
        (Dict.items (clients w))
    ++ map (fun kv : string * tech_info => Close (t_socket (snd kv)))
         (Dict.items (technicians w)).
Proof.
  cbv zeta. split; [reflexivity|]. apply emitted_app.
  unfold stop_server. cbn [wire].
  set (w1 := fold_left _ (Dict.items (clients w)) w).
  destruct (fold_close (fun kv : string * client_info => c_socket (snd kv))
              (Dict.items (clients w)) w) as (R1 & _ & W1).
  fold w1 in R1, W1.
  destruct (fold_close (fun kv : string * tech_info => t_socket (snd kv))
              (Dict.items (technicians w1)) w1) as (_ & _ & W2).
  rewrite W2, W1, <- app_assoc.
  assert (Et : technicians w1 = technicians w)
    by (unfold registries in R1; congruence).
  now rewrite Et.
Qed.

(** The first message of a connection.  With [client_connect], when the
    welcome is sent the client is registered under the id drawn, with its
    socket and address, no help requested and no session, and nothing else
    changes; its name is the [name] of the message, be it a string or
    [null], and [Client-] followed by the address only when the message has
    no [name];
    when the welcome raises the id is not registered afterwards, the socket
    is closed and every registered technician is sent
    [client_disconnected] for it.  With a type that is neither
    [client_connect] nor [technician_connect] the socket is closed and no
    registry changes. *)
Theorem first_message_registers sock ip m rnd now w :
  let c := uuid8 rnd in
  let name :=
    match msg_name m with
    | Some n => n
    | None => Some (String.append "Client-" ip)
    end in
  let w' := handle_connection sock ip m rnd now w in
  (msg_type m = Some "client_connect" -> hd false (raises w) = false ->
   registries w'
   = (Dict.set c (mk_client sock ip name false None now) (clients w),
      technicians w, help_requests w, active_sessions w) /\
   emitted w w' = [Send (Client c) sock (Welcome_client c) true]) /\
  (msg_type m = Some "client_connect" -> hd false (raises w) = true ->
   Dict.mem c (clients w') = false /\
   exists l,
     emitted w w'
     = Send (Client c) sock (Welcome_client c) false :: Close sock :: l /\
     sends l = to_all_technicians (Client_disconnected c) w) /\
  (forall ty,
     msg_type m = Some ty ->
     ty <> "client_connect" -> ty <> "technician_connect" ->
     registries w' = registries w /\ emitted w w' = [Close sock]).
Proof.
  cbv zeta. split; [|split].
  - intros Hty Hr. unfold handle_connection, handle_client_connection.
    rewrite Hty. cbn [String.eqb Ascii.eqb Bool.eqb andb].
    unfold send. cbn [raises set_clients]. rewrite Hr. cbn [negb].
    split; [reflexivity|]. now apply emitted_app.
  - intros Hty Hr. unfold handle_connection, handle_client_connection.
    rewrite Hty. cbn [String.eqb Ascii.eqb Bool.eqb andb].
    set (info := mk_client sock ip _ false None now).
    set (w1 := set_clients (Dict.set (uuid8 rnd) info) w).
    unfold send. cbn [raises]. change (raises w1) with (raises w).
    rewrite Hr. cbn [negb].
    set (w2 := mk_world _ _ _ _ _ _).
    assert (Hc : Dict.get (uuid8 rnd) (clients w2) = Some info)
      by apply get_set_eq.
    destruct (disconnect_client_maps _ w2 info Hc)
      as (w4 & -> & Ec & _ & Et & Ew).
    split.
    { apply (broadcast_keeps _
               (Cascade0 := client_absent_cascade (uuid8 rnd))).
      rewrite Ec. apply mem_del_eq. }
    destruct (broadcast_to_all (Client_disconnected (uuid8 rnd)) w4)
      as (l & El & Sl).
    exists l. split.
    + apply emitted_app. rewrite El, Ew. unfold w2. cbn [wire c_socket info].
      change (wire w1) with (wire w). rewrite <- !app_assoc. reflexivity.
    + rewrite Sl. unfold to_all_technicians. now rewrite Et.
  - intros ty Hty H1 H2. unfold handle_connection. rewrite Hty.
    destruct (String.eqb_spec ty "client_connect"); [contradiction|].
    destruct (String.eqb_spec ty "technician_connect"); [contradiction|].
    split; [reflexivity|]. now apply emitted_app.
Qed.

(** Alice joins with a [null] name while Bob is registered, and her
    welcome is sent: she is registered with a null name. *)
Lemma first_message_registers_witness :
  let m :=
    mk_message (Some "client_connect") (Some None) None None None false in
  let w := run [bob_joins] (init []) in
  option_map c_name
    (Dict.get alice
       (clients (handle_connection 10 "10.0.0.1" m (uuid_of 1) "09:00:00" w)))
  = Some None.
Proof.
  cbv zeta.
  destruct (proj1 (first_message_registers 10 "10.0.0.1"
                     (mk_message (Some "client_connect") (Some None) None
                        None None false)
                     (uuid_of 1) "09:00:00" (run [bob_joins] (init [])))
              eq_refl eq_refl) as [R _].
  assert (Rc := f_equal (fun r => fst (fst (fst r))) R).
  cbn [registries fst] in Rc. rewrite Rc.
  vm_compute. reflexivity.
Defined.

(** *** A round of heartbeats with every peer alive *)

Lemma quiet_heartbeat_clients keys d : forall w,
  raises w = [] -> clients w = d ->
  let w' := fold_left heartbeat_client keys w in
  registries w' = registries w /\ raises w' = [] /\
  wire w'
  = wire w
    ++ flat_map
         (fun c => match Dict.get c d with
                   | Some info =>
                       [Send (Client c) (c_socket info) Heartbeat true]
                   | None => []
                   end) keys.
Proof.
  induction keys as [|c keys IH]; intros w Hr Hd; cbv zeta;
    cbn [fold_left flat_map].
  - now rewrite app_nil_r.
  - destruct (Dict.get c d) as [info|] eqn:Hc.
    + set (w1 := mk_world (clients w) (technicians w) (help_requests w)
                   (active_sessions w) []
                   (wire w ++ [Send (Client c) (c_socket info) Heartbeat
                                 true])).
      assert (Hs : heartbeat_client w c = w1).
      { pose proof Hc as Hc'. rewrite <- Hd in Hc'.
        unfold heartbeat_client, send. rewrite Hc', Hr. reflexivity. }
      rewrite Hs. destruct (IH w1 eq_refl Hd) as (E1 & E2 & E3).
      rewrite E1, E2, E3. unfold w1. cbn [wire].
      now rewrite <- app_assoc.
    + assert (Hs : heartbeat_client w c = w).
      { pose proof Hc as Hc'. rewrite <- Hd in Hc'.
        unfold heartbeat_client. rewrite Hc'. apply disconnect_client_absent.
        now apply mem_false. }
      rewrite Hs. apply (IH w Hr Hd).
Qed.

Lemma quiet_heartbeat_technicians keys d : forall w,
  raises w = [] -> technicians w = d ->
  let w' := fold_left heartbeat_technician keys w in
  registries w' = registries w /\ raises w' = [] /\
  wire w'
  = wire w
    ++ flat_map
         (fun t => match Dict.get t d with
                   | Some tech =>
                       [Send (Technician t) (t_socket tech) Heartbeat true]
                   | None => []
                   end) keys.
Proof.
  induction keys as [|t keys IH]; intros w Hr Hd; cbv zeta;
    cbn [fold_left flat_map].
  - now rewrite app_nil_r.
  - destruct (Dict.get t d) as [tech|] eqn:Hc.
    + set (w1 := mk_world (clients w) (technicians w) (help_requests w)
                   (active_sessions w) []
                   (wire w ++ [Send (Technician t) (t_socket tech) Heartbeat
                                 true])).
      assert (Hs : heartbeat_technician w t = w1).
      { pose proof Hc as Hc'. rewrite <- Hd in Hc'.
        unfold heartbeat_technician, send. rewrite Hc', Hr. reflexivity. }
      rewrite Hs. destruct (IH w1 eq_refl Hd) as (E1 & E2 & E3).
      rewrite E1, E2, E3. unfold w1. cbn [wire].
      now rewrite <- app_assoc.
    + assert (Hs : heartbeat_technician w t = w).
      { pose proof Hc as Hc'. rewrite <- Hd in Hc'.
        unfold heartbeat_technician. rewrite Hc'.
        apply disconnect_technician_absent.
        now apply mem_false. }
      rewrite Hs. apply (IH w Hr Hd).
Qed.

(** A round of [heartbeat_checker] in which no send raises: each
    registered client, then each registered technician, is sent one
    heartbeat on its socket, in the order of the registries, and the
    four registries are left as they were. *)
Theorem quiet_heartbeat_round w :
  raises w = [] ->
  let w' := heartbeat_checker w in
  registries w' = registries w /\ emitted w w' = heartbeats_of w.
Proof.
  intros Hr. cbv zeta. unfold heartbeat_checker.
  set (w1 := fold_left heartbeat_client (Dict.keys (clients w)) w).
  destruct (quiet_heartbeat_clients (Dict.keys (clients w)) (clients w) w
              Hr eq_refl) as (R1 & Q1 & W1).
  fold w1 in R1, Q1, W1.
  assert (Et : technicians w1 = technicians w)
    by (unfold registries in R1; congruence).
  destruct (quiet_heartbeat_technicians (Dict.keys (technicians w1))
              (technicians w) w1 Q1 Et) as (R2 & _ & W2).
  split; [now rewrite R2|].
  apply emitted_app. rewrite W2, W1, <- app_assoc, Et. reflexivity.
Qed.

(** Alice and Bob, both alive. *)
Lemma quiet_heartbeat_round_witness :
  let w := run [alice_joins; bob_joins] (init []) in
  emitted w (heartbeat_checker w)
  = [Send (Client alice) 10 Heartbeat true;
     Send (Technician bob) 20 Heartbeat true].
Proof.
  cbv zeta.
  refine (eq_trans (proj2 (quiet_heartbeat_round _ _)) _);
    vm_compute; reflexivity.
Defined.

End MediatorMore.

(* ================================================================== *)
(** ** Further properties of the screen-frame protocol *)

Module FramingMore.
Import Framing FramingFacts.
Local Open Scope nat_scope.
Local Open Scope list_scope.

Lemma recv_all_loop_exact turns : forall n data s d s',
  recv_all_loop turns n data s = (Returned (Some d), s') ->
  List.length data <= n ->
  List.length d = n /\ d ++ pending s' = data ++ pending s.
Proof.
  induction turns as [|turns IH]; intros n data s d s' H Hle;
    cbn [recv_all_loop] in H;
    destruct (List.length data <? n) eqn:E;
    try discriminate;
    try (apply Nat.ltb_ge in E; injection H as <- <-; split; [lia|auto]).
  apply Nat.ltb_lt in E.
  destruct s as [|[chunk| |] rest]; cbn [recv] in H; try discriminate.
  destruct (List.length chunk <=? n - List.length data) eqn:Ec.
  - destruct chunk as [|b chunk]; [discriminate|].
    apply Nat.leb_le in Ec. apply IH in H as [H1 H2].
    + split; [exact H1|]. rewrite H2. cbn [pending flat_map].
      now rewrite <- app_assoc.
    + rewrite length_app. lia.
  - apply Nat.leb_gt in Ec.
    destruct (firstn (n - List.length data) chunk) as [|b p] eqn:Ef.
    { apply (f_equal (@List.length _)) in Ef. rewrite length_firstn in Ef.
      simpl in Ef. lia. }
    rewrite <- Ef in H. apply IH in H as [H1 H2].
    + split; [exact H1|]. rewrite H2. cbn [pending flat_map].
      rewrite <- app_assoc. f_equal.
      rewrite app_assoc, firstn_skipn. reflexivity.
    + rewrite length_app, length_firstn. lia.
Qed.

(** When [_recv_all n] returns bytes, whatever the socket delivers, it
    returns [n] of them, neither more nor fewer, and they are the first [n]
    bytes that were to come: followed by what is still to come they are what
    was to come before the call. *)
Theorem recv_all_returns_exactly n s d s' :
  recv_all n s = (Returned (Some d), s') ->
  List.length d = n /\ d ++ pending s' = pending s.
Proof.
  intros H. apply recv_all_loop_exact in H; [|simpl; lia]. exact H.
Qed.

(** Five bytes come in chunks of two, one and two; three are asked for. *)
Lemma recv_all_returns_exactly_witness :
  List.length [x01; x02; x03]%byte = 3 /\
  [x01; x02; x03]%byte ++ pending [Data [x04; x05]%byte]
  = pending [Data [x01; x02]%byte; Data [x03]%byte; Data [x04; x05]%byte].
Proof.
  apply (recv_all_returns_exactly 3
           [Data [x01; x02]%byte; Data [x03]%byte; Data [x04; x05]%byte]).
  reflexivity.
Defined.

Lemma recv_all_loop_cut_short chunks :
  Forall (fun c => c <> []) chunks ->
  forall tail turns n data,
    (tail = [] \/
     exists x rest,
       tail = x :: rest /\ (x = Timed_out \/ x = Connection_lost)) ->
    List.length data + List.length (List.concat chunks) < n ->
    n - List.length data <= turns ->
    fst (recv_all_loop turns n data (map Data chunks ++ tail))
    = Returned None.
Proof.
  induction 1 as [|ch chs Hch Hchs IH]; intros tail turns n data Ht Hlt Hturns.
  - cbn [map app List.concat List.length] in *.
    destruct turns as [|turns]; [lia|]. cbn [recv_all_loop].
    assert (E : (List.length data <? n) = true) by (apply Nat.ltb_lt; lia).
    rewrite E.
    destruct Ht as [->|(x & rest & -> & [->| ->])]; reflexivity.
  - cbn [List.concat] in Hlt. rewrite length_app in Hlt.
    destruct turns as [|turns]; [lia|].
    cbn [map app]. rewrite recv_all_loop_step by (try assumption; lia).
    assert (E : (List.length ch <=? n - List.length data) = true)
      by (apply Nat.leb_le; lia).
    rewrite E. apply IH; auto.
    + rewrite length_app. lia.
    + rewrite length_app. destruct ch; [contradiction|]. simpl. lia.
Qed.

(** When fewer than [n] bytes come before the peer closes the connection,
    or before a timeout or a connection error, [_recv_all n] returns
    [None]: it never returns a part of what was asked, and the bytes it had
    read are lost. *)
Theorem recv_all_cut_short n chunks tail :
  Forall (fun c => c <> []) chunks ->
  (tail = [] \/
   exists x rest, tail = x :: rest /\ (x = Timed_out \/ x = Connection_lost)) ->
  List.length (List.concat chunks) < n ->
  fst (recv_all n (map Data chunks ++ tail)) = Returned None.
Proof.
  intros Hne Ht Hlt. unfold recv_all.
  apply recv_all_loop_cut_short; auto; simpl; lia.
Qed.

(** Two bytes, then a timeout, when four are asked for. *)
Lemma recv_all_cut_short_witness :
  fst (recv_all 4 (map Data [[x01; x02]%byte] ++ [Timed_out]))
  = Returned None.
Proof.
  apply recv_all_cut_short.
  - constructor; [discriminate|constructor].
  - right. exists Timed_out, []. auto.
  - simpl. lia.
Defined.

(** One frame read by [_receive_screenshots] from a delivery that goes on
    with the bytes [rest]. *)
Lemma receive_frame_then payload frame rest chunks :
  send_frame payload = Some frame ->
  delivery_of (frame ++ rest) chunks ->
  exists chunks',
    receive_frame (map Data chunks)
    = (Returned (match payload with [] => None | _ => Some payload end),
       map Data chunks') /\
    delivery_of rest chunks'.
Proof.
  intros Hsend [Hcat Hne]. unfold send_frame in Hsend.
  destruct (to_bytes4 (N.of_nat (List.length payload))) as [hdr|] eqn:Hh;
    [|discriminate].
  injection Hsend as <-.
  destruct (from_bytes_to_bytes4 _ _ Hh) as [Hfrom Hlen].
  rewrite <- app_assoc in Hcat.
  destruct (recv_all_loop_collects chunks Hne 4 4 [] hdr (payload ++ rest))
    as (cs & E1 & Hcs & Hne1); auto; try lia.
  destruct (recv_all_loop_collects cs Hne1 (List.length payload)
              (List.length payload) [] payload rest)
    as (cs' & E2 & Hcs' & Hne2); auto.
  exists cs'. split; [|split; assumption].
  unfold receive_frame, recv_all. rewrite E1. cbn [app].
  destruct hdr as [|h0 hdr]; [discriminate|].
  rewrite Hfrom, Nat2N.id. rewrite E2. cbn [app].
  now destruct payload.
Qed.




(** A frame whose packet is empty is taken by [_receive_screenshots] for
    the end of the connection: its four bytes of length are read and the
    loop breaks, whatever follows in the stream. *)
Theorem empty_packet_ends_reception frame rest chunks :
  send_frame [] = Some frame ->
  delivery_of (frame ++ rest) chunks ->
  fst (receive_frame (map Data chunks)) = Returned None /\
  forall displays count,
    receive_frames displays count (map Data chunks) = [].
Proof.
  intros Hf Hdel.
  destruct (receive_frame_then [] frame rest chunks Hf Hdel)
    as (cs & E & _).
  split; [now rewrite E|].
  intros displays [|count]; [reflexivity|].
  cbn [receive_frames]. now rewrite E.
Qed.

(** An empty packet followed by a packet of one byte. *)
Lemma empty_packet_ends_reception_witness :
  receive_frames (fun _ => true) 3
    (map Data
       (bytewise [x00; x00; x00; x00; x00; x00; x00; x01; x0c]%byte))
  = [].
Proof.
  apply (proj2 (empty_packet_ends_reception [x00; x00; x00; x00]%byte
                  [x00; x00; x00; x01; x0c]%byte _ eq_refl
                  (bytewise_delivery _)) (fun _ => true) 3).
Defined.

End FramingMore.

(* ================================================================== *)
(** ** Further properties of the client's control server *)

Module ClientAgentMore.
Import ClientAgent.
Local Open Scope nat_scope.
Local Open Scope list_scope.

Lemma leading_failures_app fs post :
  forallb is_failure fs = true ->
  List.length fs <= leading_failures (fs ++ post).
Proof.
  induction fs as [|x fs IH]; simpl; [lia|].
  intros H. apply andb_prop in H as [Hx Hfs]. rewrite Hx.
  apply IH in Hfs. lia.
Qed.

Lemma leading_failures_firstn k : forall l,
  k <= leading_failures l ->
  List.length (firstn k l) = k /\ forallb is_failure (firstn k l) = true.
Proof.
  induction k as [|k IH]; intros l H; [now split|].
  destruct l as [|x l]; simpl in H; [lia|].
  destruct (is_failure x) eqn:Ex; [|lia].
  destruct (IH l) as [H1 H2]; [lia|].
  simpl. rewrite Ex, H1, H2. now split.
Qed.

Lemma failures_in_a_row_from k l :
  failures_in_a_row k l <->
  exists before rest, l = before ++ rest /\ k <= leading_failures rest.
Proof.
  split.
  - intros (pre & fs & post & -> & <- & Hf).
    exists pre, (fs ++ post). split; [reflexivity|].
    now apply leading_failures_app.
  - intros (pre & rest & -> & Hk).
    destruct (leading_failures_firstn k rest Hk) as [H1 H2].
    exists pre, (firstn k rest), (skipn k rest).
    now rewrite firstn_skipn.
Qed.

Lemma failures_in_a_row_cons k x l :
  failures_in_a_row k (x :: l) <->
  k <= leading_failures (x :: l) \/ failures_in_a_row k l.
Proof.
  rewrite !failures_in_a_row_from. split.
  - intros ([|y pre] & rest & E & Hk).
    + left. simpl in E. now subst rest.
    + right. injection E as _ ->. eauto.
  - intros [Hk|(pre & rest & -> & Hk)].
    + now exists [], (x :: l).
    + now exists (x :: pre), rest.
Qed.

Lemma failures_in_a_row_leading k l :
  k <= leading_failures l -> failures_in_a_row k l.
Proof.
  intros H. apply failures_in_a_row_from. now exists [], l.
Qed.

Lemma send_screenshots_loop_running attempts : forall n turn,
  n < max_failures ->
  send_screenshots_loop n turn attempts = None <->
  ~ In Connection_error attempts /\
  ~ failures_in_a_row max_failures attempts /\
  n + leading_failures attempts < max_failures.
Proof.
  unfold max_failures.
  induction attempts as [|x rest IH]; intros n turn Hn.
  - simpl. split; [|reflexivity]. intros _.
    split; [tauto|]. split; [|lia].
    rewrite failures_in_a_row_from.
    intros (pre & post & E & Hk). symmetry in E.
    apply app_eq_nil in E as [_ ->]. simpl in Hk. lia.
  - rewrite failures_in_a_row_cons.
    destruct x; cbn [send_screenshots_loop leading_failures is_failure In].
    + rewrite (IH 0 (S turn)) by lia. split.
      * intros (H1 & H2 & H3).
        split; [intros [?|?]; [discriminate|tauto]|].
        split; [intros [?|?]; [lia|tauto]|lia].
      * intros (H1 & H2 & H3).
        split; [tauto|]. split; [tauto|].
        destruct (Nat.lt_ge_cases (leading_failures rest) 5) as [?|Hge];
          [lia|].
        exfalso. apply H2. right. now apply failures_in_a_row_leading.
    + split; [discriminate|]. intros [H _]. exfalso. apply H. now left.
    + unfold max_failures.
      destruct (5 <=? S n) eqn:E.
      * apply Nat.leb_le in E. split; [discriminate|]. lia.
      * apply Nat.leb_gt in E. rewrite (IH (S n) (S turn)) by lia. split.
        -- intros (H1 & H2 & H3).
           split; [intros [?|?]; [discriminate|tauto]|].
           split; [intros [?|?]; [lia|tauto]|lia].
        -- intros (H1 & H2 & H3). split; [tauto|]. split; [tauto|lia].
    + unfold max_failures.
      destruct (5 <=? S n) eqn:E.
      * apply Nat.leb_le in E. split; [discriminate|]. lia.
      * apply Nat.leb_gt in E. rewrite (IH (S n) (S turn)) by lia. split.
        -- intros (H1 & H2 & H3).
           split; [intros [?|?]; [discriminate|tauto]|].
           split; [intros [?|?]; [lia|tauto]|lia].
        -- intros (H1 & H2 & H3). split; [tauto|]. split; [tauto|lia].
Qed.

(** The sending loop of [send_screenshots] is still running after the
    turns [attempts] exactly when none of them raised [ConnectionError] and
    no five of them in a row ended in a timeout or another exception: one
    [ConnectionError] ends it, five failures in a row end it, and any
    number of failures is borne as long as a frame goes through before the
    fifth in a row. *)
Theorem screenshots_stop_after_five_failures attempts :
  send_screenshots_loop 0 0 attempts = None <->
  ~ In Connection_error attempts /\
  ~ failures_in_a_row max_failures attempts.
Proof.
  rewrite (send_screenshots_loop_running attempts 0 0)
    by (unfold max_failures; lia).
  split; [tauto|]. intros [H1 H2]. split; [exact H1|]. split; [exact H2|].
  destruct (Nat.lt_ge_cases (leading_failures attempts) max_failures)
    as [?|Hge]; [lia|].
  exfalso. apply H2. now apply failures_in_a_row_leading.
Qed.

(** Four failures, a frame, four failures: the loop goes on. *)
Lemma screenshots_stop_after_five_failures_witness :
  ~ In Connection_error
      [Send_timeout; Other_error; Send_timeout; Other_error; Frame_sent;
       Other_error; Send_timeout; Other_error; Send_timeout] /\
  ~ failures_in_a_row max_failures
      [Send_timeout; Other_error; Send_timeout; Other_error; Frame_sent;
       Other_error; Send_timeout; Other_error; Send_timeout].
Proof.
  apply (proj1 (screenshots_stop_after_five_failures
                  [Send_timeout; Other_error; Send_timeout; Other_error;
                   Frame_sent; Other_error; Send_timeout; Other_error;
                   Send_timeout])).
  reflexivity.
Defined.

(** When the loop of [send_screenshots] breaks, it breaks in the turn of
    the first [ConnectionError] or of the fifth failure in a row, not
    later: the turn it breaks in is one of the turns given. *)
Lemma send_screenshots_loop_turn attempts : forall n turn k,
  send_screenshots_loop n turn attempts = Some k ->
  turn <= k < turn + List.length attempts.
Proof.
  induction attempts as [|x rest IH]; intros n turn k H; [discriminate|].
  destruct x; cbn [send_screenshots_loop List.length] in *.
  - apply IH in H. lia.
  - injection H as <-. lia.
  - destruct (max_failures <=? S n); [injection H as <-; lia|].
    apply IH in H. lia.
  - destruct (max_failures <=? S n); [injection H as <-; lia|].
    apply IH in H. lia.
Qed.

(** In every state of the agent, a control server that is not running has
    no technician connected: [stop_control_server] disconnects the
    technician, and the accept loop takes none until the server is started
    again. *)
Theorem stopped_server_has_no_technician a :
  reachable a ->
  control_running a = false ->
  technician_socket a = None /\ technician_address a = None.
Proof.
  intros Hr.
  enough (H : (technician_socket a = None -> technician_address a = None) /\
              (control_running a = false -> technician_socket a = None))
    by (intros Hc; split; [|apply H]; now apply H).
  induction Hr as [|a o Hr [IHa IHs] Hnew]; [now split|].
  destruct o as [|x| |]; cbn [act].
  - unfold start_control_server.
    destruct (control_running a) eqn:E; cbn.
    + rewrite E. split; [exact IHa|discriminate].
    + split; [exact IHa|discriminate].
  - destruct (control_running a) eqn:E; [|split; auto].
    destruct x as [s addr|]; cbn [accept_one fst];
      [|split; [exact IHa|congruence]].
    cbn [technician_socket].
    destruct (technician_socket a) eqn:Et; cbn; rewrite ?E, ?Et;
      split; congruence.
  - unfold disconnect_technician.
    destruct (technician_socket a) eqn:E; [|split; auto].
    cbn. split; reflexivity.
  - unfold stop_control_server, disconnect_technician.
    cbn [technician_socket].
    destruct (technician_socket a) eqn:E; cbn; [now split|].
    rewrite ?E. split; auto.
Qed.

(** A technician is served, then the server is stopped. *)
Lemma stopped_server_has_no_technician_witness :
  technician_socket
    (act Stop_server
       (act (Accept (Connection 7 "10.0.0.5")) (act Start initial)))
  = None.
Proof.
  refine (proj1 (stopped_server_has_no_technician
                   (act Stop_server
                      (act (Accept (Connection 7 "10.0.0.5"))
                         (act Start initial))) _ eq_refl)).
  repeat (apply reach_act; [|intros s addr E; try discriminate E]).
  - apply reach_initial.
  - injection E as <- _. simpl. tauto.
Defined.

End ClientAgentMore.

(* ================================================================== *)
(** ** The technician's console, alone and with the broker *)

Module ConsoleFacts.
Import Mediator DictFacts MediatorFacts MediatorMore.
Local Open Scope list_scope.

Lemma mem_set (V : Type) k c (v : V) d :
  Dict.mem c (Dict.set k v d) = (String.eqb k c || Dict.mem c d)%bool.
Proof.
  unfold Dict.mem. destruct (String.eqb_spec k c) as [->|Hne].
  - now rewrite get_set_eq.
  - now rewrite get_set_ne.
Qed.

Lemma mem_del (V : Type) k c (d : Dict.t V) :
  Dict.mem c (Dict.del k d)
  = (negb (String.eqb k c) && Dict.mem c d)%bool.
Proof.
  unfold Dict.mem. destruct (String.eqb_spec k c) as [->|Hne].
  - now rewrite get_del_eq.
  - now rewrite get_del_ne.
Qed.

(** *** The list of help requests *)

Lemma fold_set_help_requests (g : help_entry -> Dict.t Console.request ->
                                  Dict.t Console.request) l : forall k,
  fold_left (fun k e => Console.set_help_requests (g e) k) l k
  = Console.set_help_requests (fun d => fold_left (fun d e => g e d) l d) k.
Proof.
  induction l as [|e l IH]; intros k; cbn [fold_left].
  - now destruct k.
  - rewrite IH. reflexivity.
Qed.

Lemma update_help_requests_eq l k :
  Console.update_help_requests l k
  = Console.set_help_requests
      (fun _ =>
         fold_left
           (fun d e =>
              Dict.set (he_client_id e)
                (Console.mk_request (he_name e) (he_ip e) (he_timestamp e))
                d) l Dict.empty) k.
Proof.
  unfold Console.update_help_requests.
  rewrite (fold_set_help_requests
             (fun e => Dict.set (he_client_id e)
                         (Console.mk_request (he_name e) (he_ip e)
                            (he_timestamp e)))).
  reflexivity.
Qed.

Lemma mem_fold_set c l : forall d : Dict.t Console.request,
  Dict.mem c
    (fold_left
       (fun d e =>
          Dict.set (he_client_id e)
            (Console.mk_request (he_name e) (he_ip e) (he_timestamp e)) d)
       l d)
  = (existsb (fun e => String.eqb (he_client_id e) c) l || Dict.mem c d)%bool.
Proof.
  induction l as [|e l IH]; intros d; cbn [fold_left existsb];
    [reflexivity|].
  rewrite IH, mem_set.
  destruct (String.eqb (he_client_id e) c), (existsb _ l); reflexivity.
Qed.

(** A console that joins and reads the welcome of a broker in a reachable
    state, whose list is [help_list_of], is connected under the id of the
    welcome, and its list of help requests holds exactly the clients that
    are registered at the broker with [help_requested] set and no session:
    what the console listed before is dropped. *)
Theorem console_lists_open_requests id w k :
  reachable w ->
  Console.mediator_connected k = false ->
  let k' := Console.connect_to_mediator id (help_list_of w) k in
  Console.mediator_connected k' = true /\
  Console.technician_id k' = Some id /\
  forall c,
    Dict.mem c (Console.help_requests k') = true <->
    exists info,
      Dict.get c (clients w) = Some info /\
      help_requested info = true /\
      truthy (session_id info) = false.
Proof.
  intros Hr Hk.
  pose proof (reachable_clients_wf w Hr) as Hwf.
  cbv zeta. unfold Console.connect_to_mediator. rewrite Hk.
  rewrite update_help_requests_eq. cbn.
  split; [reflexivity|]. split; [reflexivity|].
  intros c. rewrite mem_fold_set. cbn [Dict.mem Dict.get Dict.empty].
  rewrite Bool.orb_false_r, existsb_exists. unfold help_list_of. split.
  - intros (e & Hin & He). apply String.eqb_eq in He.
    apply in_flat_map in Hin as ([c' info] & Hin & Hc).
    destruct (help_requested info && negb (truthy (session_id info)))%bool
      eqn:E; [|contradiction].
    destruct Hc as [<-|[]]. cbn in He. subst c'.
    apply andb_prop in E as [E1 E2]. apply Bool.negb_true_iff in E2.
    exists info. split; [|now split]. now apply nodup_in_get.
  - intros (info & Hg & E1 & E2). apply get_in in Hg.
    eexists. split.
    + apply in_flat_map. exists (c, info). split; [exact Hg|].
      rewrite E1, E2. left. reflexivity.
    + cbn. apply String.eqb_refl.
Qed.

(** Alice has asked for help when the console joins; the console listed
    Carol before. *)
Lemma console_lists_open_requests_witness :
  let w := run [alice_joins; bob_joins; alice_asks_help] (init []) in
  let k :=
    Console.set_help_requests
      (Dict.set carol (Console.mk_request (Some "Carol") "10.0.0.3" "08:00:00"))
      (Console.initial []) in
  let k' := Console.connect_to_mediator bob (help_list_of w) k in
  Dict.mem alice (Console.help_requests k') = true /\
  Dict.mem carol (Console.help_requests k') = false.
Proof.
  cbv zeta.
  destruct (console_lists_open_requests bob
              (run [alice_joins; bob_joins; alice_asks_help] (init []))
              (Console.set_help_requests
                 (Dict.set carol
                    (Console.mk_request (Some "Carol") "10.0.0.3" "08:00:00"))
                 (Console.initial []))
              (reachable_run _ _) eq_refl) as (_ & _ & H).
  split.
  - apply H. eexists. split; [vm_compute; reflexivity|]. now split.
  - vm_compute. reflexivity.
Defined.

Lemma process_keeps_connected p k :
  Console.mediator_connected (Console.process_mediator_message p k)
  = Console.mediator_connected k.
Proof.
  destruct p; try reflexivity; cbn [Console.process_mediator_message];
    unfold Console.remove_help_request;
    now destruct (Dict.mem _ (Console.help_requests k)).
Qed.

Lemma process_help_list c p k :
  Dict.mem c (Console.help_requests (Console.process_mediator_message p k))
  = match Console.verdict c p with
    | Some b => b
    | None => Dict.mem c (Console.help_requests k)
    end.
Proof.
  assert (Hrem : forall c',
            Dict.mem c
              (Console.help_requests (Console.remove_help_request c' k))
            = if String.eqb c' c then false
              else Dict.mem c (Console.help_requests k)).
  { intros c'. unfold Console.remove_help_request.
    destruct (Dict.mem c' (Console.help_requests k)) eqn:E; cbn.
    - rewrite mem_del. now destruct (String.eqb c' c).
    - destruct (String.eqb_spec c' c) as [->|]; auto. }
  destruct p; try reflexivity;
    cbn [Console.process_mediator_message Console.verdict];
    rewrite ?Hrem; try (now destruct (String.eqb _ c)).
  unfold Console.add_help_request. cbn. rewrite mem_set.
  now destruct (String.eqb _ c).
Qed.

(** While the console is connected, its list of help requests follows the
    broker's messages: after it has processed the messages [ps], client
    [c] is listed exactly when the last message about [c] was
    [new_help_request], a message about [c] being also [help_cancelled],
    [client_disconnected] or [client_unavailable], which unlist it; with no
    message about [c] it is listed as it was.  No other message, and no
    message about another client, changes whether [c] is listed. *)
Theorem help_list_follows_last_message c ps : forall k,
  Console.mediator_connected k = true ->
  let k' := Console.run (map Console.Receive ps) k in
  Console.mediator_connected k' = true /\
  Dict.mem c (Console.help_requests k')
  = Console.last_verdict c ps (Dict.mem c (Console.help_requests k)).
Proof.
  induction ps as [|p ps IH]; intros k Hk; [now split|].
  cbn [map Console.run fold_left Console.act Console.last_verdict].
  rewrite Hk.
  destruct (IH (Console.process_mediator_message p k)) as [H1 H2].
  { now rewrite process_keeps_connected. }
  split; [exact H1|].
  unfold Console.run in H2. rewrite H2, process_help_list. reflexivity.
Qed.

(** Alice asks, cancels and asks again, while Carol is taken by another
    technician. *)
Lemma help_list_follows_last_message_witness :
  let k := Console.connect_to_mediator bob [] (Console.initial []) in
  let k' :=
    Console.run
      (map Console.Receive
         [New_help_request alice (Some "Alice") "10.0.0.1" "09:00:00";
          Help_cancelled alice;
          Heartbeat;
          New_help_request alice (Some "Alice") "10.0.0.1" "09:05:00";
          Client_unavailable carol]) k in
  Dict.mem alice (Console.help_requests k') = true.
Proof.
  cbv zeta.
  apply (proj2 (help_list_follows_last_message alice
                  [New_help_request alice (Some "Alice") "10.0.0.1" "09:00:00";
                   Help_cancelled alice;
                   Heartbeat;
                   New_help_request alice (Some "Alice") "10.0.0.1" "09:05:00";
                   Client_unavailable carol]
                  (Console.connect_to_mediator bob [] (Console.initial []))
                  eq_refl)).
Defined.

(** *** The sessions the console ends *)

Lemma ended_sessions_app l1 l2 :
  Console.ended_sessions (l1 ++ l2)
  = Console.ended_sessions l1 ++ Console.ended_sessions l2.
Proof. apply flat_map_app. Qed.

Lemma approved_sessions_app l1 l2 :
  Console.approved_sessions (l1 ++ l2)
  = Console.approved_sessions l1 ++ Console.approved_sessions l2.
Proof. apply flat_map_app. Qed.

Lemma send_to_mediator_quiet m k :
  Console.ended_sessions [m] = [] ->
  let k' := snd (Console.send_to_mediator m k) in
  Console.ended_sessions (Console.outbox k')
  = Console.ended_sessions (Console.outbox k) /\
  Console.current_session_id k' = Console.current_session_id k.
Proof.
  intros Hm. cbn. split; [|reflexivity].
  destruct (hd false (Console.send_raises k)); [reflexivity|].
  now rewrite ended_sessions_app, Hm, app_nil_r.
Qed.

(** What one action changes of the [end_session] messages sent and of the
    current session. *)
Lemma act_sessions o k :
  let k' := Console.act o k in
  (Console.ended_sessions (Console.outbox k')
   = Console.ended_sessions (Console.outbox k) /\
   (Console.current_session_id k' = Console.current_session_id k \/
    Console.current_session_id k' = None \/
    exists sid, Console.current_session_id k' = Some sid /\
                Console.approved_sessions [o] = [sid])) \/
  (exists sid,
     Console.current_session_id k = Some sid /\
     Console.current_session_id k' = None /\
     Console.ended_sessions (Console.outbox k')
     = Console.ended_sessions (Console.outbox k) ++ [sid]).
Proof.
  cbv zeta. destruct o as [id l|p|sel| | |]; cbn [Console.act].
  - left. unfold Console.connect_to_mediator.
    destruct (Console.mediator_connected k); [auto|].
    rewrite update_help_requests_eq. cbn. auto.
  - left. destruct (Console.mediator_connected k); [|cbn; auto].
    destruct p; cbn [Console.process_mediator_message]; auto;
      try (unfold Console.remove_help_request;
           destruct (Dict.mem _ (Console.help_requests k)); cbn; now auto).
    + cbn. split; [reflexivity|]. right. right. eauto.
    + destruct (send_to_mediator_quiet (plain "heartbeat_response") k
                  eq_refl) as [H1 H2].
      split; [exact H1|]. now left.
  - left. unfold Console.request_control. destruct sel as [c|]; [|auto].
    destruct (Console.mediator_connected k); cbn [negb]; [|auto].
    destruct (Dict.get c (Console.help_requests k)); [|auto].
    destruct (send_to_mediator_quiet (request_for c) k eq_refl)
      as [H1 H2].
    split; [exact H1|]. now left.
  - left. cbn. auto.
  - unfold Console.disconnect_from_client. cbn.
    destruct (Console.current_session_id k) as [sid|] eqn:E;
      [|left; cbn; auto].
    destruct (Console.mediator_connected k); cbn; [|left; auto].
    destruct (String.eqb sid ""); cbn; [left; auto|].
    destruct (hd false (Console.send_raises k)); [left; auto|].
    right. exists sid. split; [reflexivity|]. split; [reflexivity|].
    rewrite ended_sessions_app. reflexivity.
  - left. cbn. auto.
Qed.

Lemma subsequence_app l1 l1' l2 l2' :
  Console.subsequence l1 l1' -> Console.subsequence l2 l2' ->
  Console.subsequence (l1 ++ l2) (l1' ++ l2').
Proof.
  intros H1 H2. induction H1 as [l'|x l l' H IH|x l l' H IH]; cbn.
  - induction l' as [|y l' IH]; [exact H2|].
    cbn. now apply Console.sub_skip.
  - now apply Console.sub_skip.
  - now apply Console.sub_take.
Qed.

Lemma subsequence_last x l :
  Console.subsequence [x] (l ++ [x]).
Proof.
  induction l as [|y l IH]; cbn.
  - apply Console.sub_take, Console.sub_nil.
  - now apply Console.sub_skip.
Qed.

Lemma subsequence_length l l' :
  Console.subsequence l l' -> List.length l <= List.length l'.
Proof. induction 1; cbn; lia. Qed.

Lemma subsequence_in l l' :
  Console.subsequence l l' -> forall x, In x l -> In x l'.
Proof.
  induction 1 as [l'|x l l' H IH|x l l' H IH]; intros y Hy; cbn in *;
    [contradiction|auto|].
  destruct Hy as [->|Hy]; auto.
Qed.

Lemma act_sessions_matched o k done :
  Console.sessions_matched k done ->
  Console.sessions_matched (Console.act o k) (done ++ [o]).
Proof.
  intros (a1 & a2 & Ea & Hs & Hc). unfold Console.sessions_matched.
  rewrite approved_sessions_app, Ea.
  destruct (act_sessions o k) as [[He Hk]|(sid & Hk & Hk' & He)];
    cbv zeta in *.
  - exists a1, (a2 ++ Console.approved_sessions [o]).
    rewrite He, app_assoc. split; [reflexivity|]. split; [exact Hs|].
    intros sid Hsid. apply in_app_iff.
    destruct Hk as [Hk|[Hk|(sid' & Hk & Ho)]].
    + left. apply Hc. congruence.
    + congruence.
    + right. rewrite Ho. left. congruence.
  - destruct (in_split _ _ (Hc sid Hk)) as (x & y & ->).
    exists (a1 ++ x ++ [sid]), (y ++ Console.approved_sessions [o]).
    rewrite He. split; [|split].
    + rewrite <- !app_assoc. reflexivity.
    + apply subsequence_app; [exact Hs|]. apply subsequence_last.
    + intros sid'. rewrite Hk'. discriminate.
Qed.

Lemma run_sessions_matched ops : forall k done,
  Console.sessions_matched k done ->
  Console.sessions_matched (Console.run ops k) (done ++ ops).
Proof.
  induction ops as [|o ops IH]; intros k done H.
  - now rewrite app_nil_r.
  - cbn [Console.run fold_left].
    replace (done ++ o :: ops) with ((done ++ [o]) ++ ops)
      by now rewrite <- app_assoc.
    apply IH. now apply act_sessions_matched.
Qed.

(** Whatever happens at a console that starts disconnected, the
    [end_session] messages it writes to the broker name, in order, sessions
    of the [control_approved] messages it was given, each approval serving
    for one [end_session] at most: the ids sent are a subsequence of the
    ids approved.  So no session is ended twice by the console, none is
    ended that was not approved, and there are no more ends than
    approvals. *)
Theorem console_ends_each_session_once ops r :
  let k := Console.run ops (Console.initial r) in
  Console.subsequence (Console.ended_sessions (Console.outbox k))
    (Console.approved_sessions ops) /\
  List.length (Console.ended_sessions (Console.outbox k))
  <= List.length (Console.approved_sessions ops) /\
  forall sid,
    In sid (Console.ended_sessions (Console.outbox k)) ->
    In sid (Console.approved_sessions ops).
Proof.
  cbv zeta.
  assert (H : Console.subsequence
                (Console.ended_sessions
                   (Console.outbox (Console.run ops (Console.initial r))))
                (Console.approved_sessions ops)).
  { destruct (run_sessions_matched ops (Console.initial r) [])
      as (a1 & a2 & Ea & Hs & _).
    - exists [], []. split; [reflexivity|]. split; [constructor|].
      intros sid. discriminate.
    - cbn [app] in Ea. rewrite Ea.
      rewrite <- (app_nil_r (Console.ended_sessions _)).
      apply subsequence_app; [exact Hs|constructor]. }
  split; [exact H|]. split.
  - now apply subsequence_length.
  - now apply subsequence_in.
Qed.

(** The console is approved for one session and leaves the client
    twice. *)
Lemma console_ends_each_session_once_witness :
  List.length
    (Console.ended_sessions
       (Console.outbox
          (Console.run
             [Console.Join bob [];
              Console.Receive
                (Control_approved alice "10.0.0.1" (Some "Alice")
                   "00000005");
              Console.Leave_client; Console.Leave_client]
             (Console.initial []))))
  <= 1.
Proof.
  apply (proj1 (proj2 (console_ends_each_session_once
                         [Console.Join bob [];
                          Console.Receive
                            (Control_approved alice "10.0.0.1" (Some "Alice")
                               "00000005");
                          Console.Leave_client; Console.Leave_client]
                         []))).
Defined.

(** *** A session from its approval to its end *)

(** A client approves a registered technician at a broker in a reachable
    state, and the broker's send of [control_approved] to the technician
    does not raise.  The technician's console, connected to the broker,
    reads that message and leaves the client as its next action, and its
    send to the broker does not raise.  The broker handles the message the
    console wrote as its next step after the approval, nothing coming in
    between.  Under these three conditions the console has written one
    message, [end_session] with the id the broker drew, and has forgotten
    the session; and after that step the session is gone from the broker,
    the technician is registered with no assigned client, and the client
    is registered with no session and [help_requested] false, whichever
    technicians the broadcast of the approval has disconnected. *)
Theorem approved_session_is_ended_by_console c t m rnd now w info tech k :
  reachable w ->
  Dict.get c (clients w) = Some info ->
  Dict.get t (technicians w) = Some tech ->
  msg_tech_id m = Some t -> msg_approved m = true ->
  hd false (raises w) = false ->
  Console.mediator_connected k = true ->
  hd false (Console.send_raises k) = false ->
  let sid := uuid8 rnd in
  let approved := Control_approved c (c_ip info) (c_name info) sid in
  let w1 := handle_control_response c m rnd now w in
  (exists l,
     emitted w w1 = Send (Technician t) (t_socket tech) approved true :: l) /\
  let k1 :=
    Console.run [Console.Receive approved; Console.Leave_client] k in
  Console.outbox k1 = Console.outbox k ++ [end_of sid] /\
  Console.current_session_id k1 = None /\
  let w2 := step (Technician_recv t (end_of sid)) w1 in
  Dict.get sid (active_sessions w2) = None /\
  Dict.get t (technicians w2) = Some (with_assigned_client None tech) /\
  exists info',
    Dict.get c (clients w2) = Some info' /\
    session_id info' = None /\ help_requested info' = false.
Proof.
  intros Hr Hc Ht Hm Ha Hok Hk Hsend sid approved w1.
  assert (Hne : t <> "").
  { apply (reachable_technician_ids w Hr). apply mem_true. eauto. }
  assert (Hwf := reachable_sessions_wf w Hr).
  subst w1. unfold handle_control_response. rewrite Hm, Ht, Hc, Ha.
  fold sid. fold approved.
  set (w1 := start_session c t sid now w).
  set (w2 := snd (send (Technician t) (t_socket tech) approved w1)).
  set (w3 := broadcast_to_technicians (Client_unavailable c) (Some t) w2).
  set (info1 := with_help_requested false (with_session_id (Some sid) info)).
  assert (Hs3 : Dict.get sid (active_sessions w3)
                = Some (mk_session c t now)).
  { apply broadcast_excluding_keeps_session; auto.
    - change (sessions_wf w1). unfold sessions_wf, w1.
      rewrite start_session_sessions. now apply nodup_set.
    - change (active_sessions w2) with (active_sessions w1). unfold w1.
      rewrite start_session_sessions. apply get_set_eq. }
  assert (Ht3 : Dict.get t (technicians w3)
                = Some (with_assigned_client (Some c) tech)).
  { unfold w3. rewrite broadcast_excluding_keeps_technician by assumption.
    change (technicians w2) with (technicians w1). unfold w1.
    rewrite start_session_technicians, get_update_eq, Ht. reflexivity. }
  assert (Hc3 : exists info',
             Dict.get c (clients w3) = Some info' /\
             (info' = info1 \/ info' = with_session_id None info1)).
  { apply (broadcast_keeps _ (Cascade0 := client_kept_cascade c info1)).
    exists info1. split; [|now left].
    change (clients w2) with (clients w1). unfold w1.
    rewrite start_session_clients, !get_update_eq, Hc. reflexivity. }
  split; [|split; [|split]].
  - destruct (broadcast_fold_sends (Client_unavailable c) (Some t)
                (Dict.items (technicians w2)) w2) as (lb & Eb & _).
    fold (broadcast_to_technicians (Client_unavailable c) (Some t) w2)
      in Eb.
    exists lb. apply emitted_app. unfold w3. rewrite Eb.
    unfold w2. cbn [wire send snd]. unfold w1.
    rewrite start_session_wire, <- app_assoc.
    change (raises (start_session c t sid now w)) with (raises w1).
    replace (raises w1) with (raises w)
      by (unfold w1, start_session; now destruct (Dict.mem c _)).
    rewrite Hok. reflexivity.
  - cbn [Console.run fold_left Console.act]. rewrite Hk.
    unfold approved. cbn [Console.process_mediator_message].
    unfold Console.disconnect_from_client, Console.handle_control_approved.
    cbn. rewrite Hk. cbn.
    destruct (String.eqb_spec sid "") as [E|_];
      [now apply uuid8_nonempty in E|].
    cbn. rewrite Hsend. reflexivity.
  - cbn [Console.run fold_left Console.act]. rewrite Hk.
    unfold approved. reflexivity.
  - cbv zeta. cbn [step].
    assert (Hmem : Dict.mem t (technicians w3) = true)
      by (apply mem_true; eauto).
    rewrite Hmem.
    change (process_technician_message t (end_of sid) w3)
      with (handle_end_session t (end_of sid) w3).
    destruct (handle_end_session_known t (end_of sid) w3 sid
                (mk_session c t now) eq_refl Hs3) as (H1 & H2 & H3 & _).
    split; [exact H1|]. split.
    + rewrite H3, Ht3. reflexivity.
    + cbn [client_id] in H2. destruct Hc3 as (info' & Hg & Hi).
      rewrite Hg in H2. eexists. split; [exact H2|].
      destruct Hi as [->| ->]; now split.
Qed.

(** Alice approves Bob, whose console then leaves her. *)
Lemma approved_session_is_ended_by_console_witness :
  let w :=
    run [alice_joins; bob_joins; carol_joins; alice_asks_help;
         bob_asks_alice]
        (init []) in
  let k := Console.connect_to_mediator bob [] (Console.initial []) in
  let w1 :=
    handle_control_response alice (approval bob) (uuid_of 5) "09:01:00" w in
  let approved :=
    Control_approved alice "10.0.0.1" (Some "Client-10.0.0.1") "00000005" in
  let k1 :=
    Console.run [Console.Receive approved; Console.Leave_client] k in
  Console.outbox k1 = [end_of "00000005"] /\
  Dict.get "00000005"
    (active_sessions
       (step (Technician_recv bob (end_of "00000005")) w1)) = None.
Proof.
  cbv zeta.
  assert (H := approved_session_is_ended_by_console alice bob
                 (approval bob) (uuid_of 5) "09:01:00"
                 (run [alice_joins; bob_joins; carol_joins; alice_asks_help;
                       bob_asks_alice] (init []))
                 (mk_client 10 "10.0.0.1" (Some "Client-10.0.0.1") true None
                    "09:00:00")
                 (mk_tech 20 "10.0.0.2" (Some "Tech-10.0.0.2") None "09:00:01")
                 (Console.connect_to_mediator bob [] (Console.initial []))
                 (reachable_run _ _) eq_refl eq_refl eq_refl eq_refl
                 eq_refl eq_refl eq_refl).
  cbv zeta in H. destruct H as (_ & Ho & _ & Hs & _).
  split; [exact Ho|exact Hs].
Defined.

End ConsoleFacts.

(* ================================================================== *)
(** ** The client program's signaling *)

Module DeskFacts.
Import Mediator DictFacts MediatorFacts.
Local Open Scope list_scope.

Lemma desk_send_quiet m d :
  Console.ended_sessions [m] = [] ->
  let d' := snd (Desk.send_to_mediator m d) in
  Console.ended_sessions (Desk.outbox d')
  = Console.ended_sessions (Desk.outbox d) /\
  Desk.current_session_id d' = Desk.current_session_id d.
Proof.
  intros Hm. cbn. split; [|reflexivity].
  destruct (hd false (Desk.send_raises d)); [reflexivity|].
  unfold Console.ended_sessions in *.
  now rewrite flat_map_app, Hm, app_nil_r.
Qed.

Lemma act_never_ends o d :
  Desk.current_session_id d = None ->
  Desk.current_session_id (Desk.act o d) = None /\
  Console.ended_sessions (Desk.outbox (Desk.act o d))
  = Console.ended_sessions (Desk.outbox d).
Proof.
  intros Hd.
  assert (Hsend : forall m (f : bool -> bool) b,
            Console.ended_sessions [m] = [] ->
            let d' :=
              let (ok, d1) := Desk.send_to_mediator m d in
              if f ok then Desk.set_help_requested b d1 else d1 in
            Desk.current_session_id d' = None /\
            Console.ended_sessions (Desk.outbox d')
            = Console.ended_sessions (Desk.outbox d)).
  { intros m f b Hm.
    destruct (desk_send_quiet m d Hm) as [H1 H2]. cbv zeta in *.
    destruct (Desk.send_to_mediator m d) as [ok d1]. cbn [snd] in *.
    destruct (f ok); cbn; rewrite ?H1, ?H2; auto. }
  destruct o as [id|p result| | |s| |result|]; cbn [Desk.act].
  - unfold Desk.connect_to_mediator.
    destruct (Desk.mediator_connected d); cbn; auto.
  - destruct (Desk.mediator_connected d); [|cbn; auto].
    destruct p; cbn [Desk.process_mediator_message]; auto.
    + apply (Hsend _ (fun ok => ok && result)%bool false).
      now destruct result.
    + destruct (desk_send_quiet (plain "heartbeat_response") d eq_refl)
        as [H1 H2].
      split; [congruence|exact H1].
  - unfold Desk.request_help.
    destruct (negb _ || _)%bool; [auto|].
    now apply (Hsend _ (fun ok => ok) true).
  - unfold Desk.cancel_help.
    destruct (negb _ || _)%bool; [auto|].
    now apply (Hsend _ (fun ok => ok) false).
  - unfold Desk.technician_arrives.
    destruct (Desk.technician_socket d); cbn; auto.
  - cbn. auto.
  - unfold Desk.end_session.
    destruct (Desk.technician_socket d); [|auto].
    destruct result; [|auto]. rewrite Hd. cbn. auto.
  - cbn. auto.
Qed.

(** The client program never tells the broker that a session has ended:
    its [current_session_id] is null in every state, no function of the
    program giving it another value, so the send in [end_session] is never
    reached and no [end_session] message is among those it writes,
    whatever the user does and whatever the broker sends. *)
Theorem client_never_sends_end_session ops r :
  let d := Desk.run ops (Desk.initial r) in
  Desk.current_session_id d = None /\
  Console.ended_sessions (Desk.outbox d) = [].
Proof.
  cbv zeta. unfold Desk.run.
  enough (H : forall d,
            Desk.current_session_id d = None ->
            Console.ended_sessions (Desk.outbox d) = [] ->
            Desk.current_session_id
              (fold_left (fun d o => Desk.act o d) ops d) = None /\
            Console.ended_sessions
              (Desk.outbox (fold_left (fun d o => Desk.act o d) ops d))
            = []) by now apply H.
  induction ops as [|o ops IH]; intros d H1 H2; [now split|].
  cbn [fold_left]. destruct (act_never_ends o d H1) as [H3 H4].
  apply IH; congruence.
Qed.

Lemma asked_app ms1 : forall ms2 b,
  Desk.asked (ms1 ++ ms2) b = Desk.asked ms2 (Desk.asked ms1 b).
Proof.
  induction ms1 as [|m ms1 IH]; intros ms2 b; cbn; [reflexivity|].
  apply IH.
Qed.

(** What one action, that neither joins nor leaves the broker, writes and
    leaves of the help flag. *)
Lemma act_asks o d :
  Desk.stays o = true ->
  Desk.mediator_connected d = true ->
  let d' := Desk.act o d in
  Desk.mediator_connected d' = true /\
  exists ms,
    Desk.outbox d' = Desk.outbox d ++ ms /\
    Desk.help_requested d' = Desk.asked ms (Desk.help_requested d).
Proof.
  intros Ho Hd. cbv zeta.
  assert (Hsend : forall m (f : bool -> bool) b,
            (forall ok, f ok = true -> ok = true /\ Desk.asks m = Some b) ->
            (f true = false -> Desk.asks m = None) ->
            let d' :=
              let (ok, d1) := Desk.send_to_mediator m d in
              if f ok then Desk.set_help_requested b d1 else d1 in
            Desk.mediator_connected d' = true /\
            exists ms,
              Desk.outbox d' = Desk.outbox d ++ ms /\
              Desk.help_requested d'
              = Desk.asked ms (Desk.help_requested d)).
  { intros m f b Hf Hn. unfold Desk.send_to_mediator.
    destruct (hd false (Desk.send_raises d)); cbn [negb].
    - destruct (f false) eqn:E; [now apply Hf in E as [? _]|].
      cbn. split; [exact Hd|]. exists []. now rewrite app_nil_r.
    - destruct (f true) eqn:E; cbn; (split; [exact Hd|]); exists [m];
        (split; [reflexivity|]); cbn.
      + apply Hf in E as [_ ->]. reflexivity.
      + now rewrite (Hn eq_refl). }
  assert (Hsame : Desk.mediator_connected d = true /\
                  exists ms,
                    Desk.outbox d = Desk.outbox d ++ ms /\
                    Desk.help_requested d
                    = Desk.asked ms (Desk.help_requested d)).
  { split; [exact Hd|]. exists []. now rewrite app_nil_r. }
  destruct o as [id|p result| | |s| |result|]; cbn [Desk.act];
    try discriminate Ho.
  - rewrite Hd.
    destruct p; cbn [Desk.process_mediator_message]; auto.
    + apply (Hsend _ (fun ok => ok && result)%bool false).
      * intros ok H. apply andb_prop in H as [-> ->]. now split.
      * cbn. now intros ->.
    + apply (Hsend _ (fun _ => false) false); [discriminate|reflexivity].
  - unfold Desk.request_help. rewrite Hd. cbn [negb orb].
    destruct (Desk.help_requested d) eqn:E; [rewrite E; exact Hsame|].
    apply (Hsend _ (fun ok => ok) true); [now intros ok ->|discriminate].
  - unfold Desk.cancel_help. rewrite Hd. cbn [negb orb].
    destruct (Desk.help_requested d) eqn:E; cbn [negb];
      [|rewrite E; exact Hsame].
    apply (Hsend _ (fun ok => ok) false); [now intros ok ->|discriminate].
  - unfold Desk.technician_arrives.
    destruct (Desk.technician_socket d); [exact Hsame|].
    cbn. split; [exact Hd|]. exists []. now rewrite app_nil_r.
  - cbn. split; [exact Hd|]. exists []. now rewrite app_nil_r.
  - unfold Desk.end_session.
    destruct (Desk.technician_socket d); [|exact Hsame].
    destruct result; [|exact Hsame].
    destruct (Desk.current_session_id d) as [sid|]; cbn;
      [|split; [exact Hd|]; exists []; now rewrite app_nil_r].
    rewrite Hd. cbn.
    destruct (String.eqb sid ""); cbn; rewrite ?Hd;
      [split; [reflexivity|]; exists []; now rewrite app_nil_r|].
    destruct (hd false (Desk.send_raises d));
      (split; [reflexivity|]);
      [exists []; now rewrite app_nil_r|exists [end_of sid]; now split].
Qed.

(** While the client program stays connected to the broker, its
    [help_requested] flag is what the messages it has written leave open:
    set when the last of them that bears on it is [help_request], cleared
    when it is [cancel_help] or an approving [control_response], and as it
    was when it wrote none.  A send that raises writes nothing and leaves
    the flag as it was, so the flag never runs ahead of what was sent. *)
Theorem help_flag_follows_messages ops : forall d,
  forallb Desk.stays ops = true ->
  Desk.mediator_connected d = true ->
  let d' := Desk.run ops d in
  Desk.mediator_connected d' = true /\
  exists ms,
    Desk.outbox d' = Desk.outbox d ++ ms /\
    Desk.help_requested d' = Desk.asked ms (Desk.help_requested d).
Proof.
  induction ops as [|o ops IH]; intros d Hs Hd.
  - split; [exact Hd|]. exists []. now rewrite app_nil_r.
  - cbn [forallb] in Hs. apply andb_prop in Hs as [Ho Hs].
    destruct (act_asks o d Ho Hd) as (Hd1 & ms1 & E1 & F1).
    destruct (IH (Desk.act o d) Hs Hd1) as (Hd2 & ms2 & E2 & F2).
    cbv zeta in *. cbn [Desk.run fold_left].
    split; [exact Hd2|]. exists (ms1 ++ ms2).
    unfold Desk.run in *. rewrite E2, E1, F2, F1, asked_app.
    now rewrite app_assoc.
Qed.

(** The user asks for help twice, the first send raising, and approves a
    technician. *)
Lemma help_flag_follows_messages_witness :
  let d := Desk.connect_to_mediator alice (Desk.initial [true]) in
  let d' :=
    Desk.run [Desk.Ask_help; Desk.Ask_help;
              Desk.Receive (Control_request (Some "Bob") "10.0.0.2" bob)
                true] d in
  exists ms,
    Desk.outbox d' = Desk.outbox d ++ ms /\
    Desk.help_requested d' = Desk.asked ms (Desk.help_requested d).
Proof.
  cbv zeta.
  apply (proj2 (help_flag_follows_messages
                  [Desk.Ask_help; Desk.Ask_help;
                   Desk.Receive
                     (Control_request (Some "Bob") "10.0.0.2" bob) true]
                  (Desk.connect_to_mediator alice (Desk.initial [true]))
                  eq_refl eq_refl)).
Defined.

(** *** The broker's view of the same messages *)

Lemma broadcast_fold_quiet p ex entries : forall w,
  raises w = [] ->
  raises (fold_left (broadcast_one p ex) entries w) = [] /\
  registries (fold_left (broadcast_one p ex) entries w) = registries w.
Proof.
  induction entries as [|[t tech] entries IH]; intros w Hw;
    cbn [fold_left]; [now split|].
  assert (H : raises (broadcast_one p ex w (t, tech)) = [] /\
              registries (broadcast_one p ex w (t, tech)) = registries w).
  { unfold broadcast_one. destruct (excluded ex t); [now split|].
    unfold send. rewrite Hw. cbn. now split. }
  destruct H as [H1 H2]. destruct (IH _ H1) as [H3 H4].
  split; [exact H3|]. now rewrite H4.
Qed.

Lemma broadcast_quiet p ex w :
  raises w = [] ->
  let w' := broadcast_to_technicians p ex w in
  raises w' = [] /\ clients w' = clients w /\
  technicians w' = technicians w.
Proof.
  intros Hw.
  destruct (broadcast_fold_quiet p ex (Dict.items (technicians w)) w Hw)
    as [H1 H2].
  cbv zeta. unfold broadcast_to_technicians. split; [exact H1|].
  unfold registries in H2. now injection H2 as -> -> _ _.
Qed.

(** What one message of a registered client leaves of its help flag at the
    broker, no send failing. *)
Lemma client_message_flag c m rnd now w info :
  raises w = [] ->
  Dict.get c (clients w) = Some info ->
  (msg_type m = Some "control_response" -> msg_approved m = true ->
   exists t, msg_tech_id m = Some t /\ Dict.mem t (technicians w) = true) ->
  let w' := step (Client_recv c m rnd now) w in
  raises w' = [] /\
  (forall t, Dict.mem t (technicians w') = Dict.mem t (technicians w)) /\
  exists info',
    Dict.get c (clients w') = Some info' /\
    help_requested info'
    = match Desk.asks m with
      | Some b => b
      | None => help_requested info
      end.
Proof.
  intros Hw Hc Happ. cbv zeta. cbn [step].
  assert (Hmem : Dict.mem c (clients w) = true) by (apply mem_true; eauto).
  rewrite Hmem. unfold process_client_message, Desk.asks.
  assert (Hsame : raises w = [] /\
                  (forall t, Dict.mem t (technicians w)
                             = Dict.mem t (technicians w)) /\
                  exists info',
                    Dict.get c (clients w) = Some info' /\
                    help_requested info' = help_requested info)
    by (split; [|split]; eauto).
  destruct (msg_type m) as [ty|] eqn:Hty; [|exact Hsame].
  destruct (String.eqb ty "help_request") eqn:E1.
  { unfold handle_help_request. rewrite Hmem. cbn [negb].
    set (w1 := set_clients _ w).
    set (w2 := set_help_requests _ w1).
    assert (Hc2 : Dict.get c (clients w2)
                  = Some (with_help_requested true info)).
    { cbn. now rewrite get_update_eq, Hc. }
    rewrite Hc2.
    set (p := New_help_request _ _ _ _).
    destruct (broadcast_quiet p None w2 Hw) as (H1 & H2 & H3).
    cbv zeta in *. rewrite H2, Hc2. cbn [send snd raises technicians clients].
    rewrite H1, H2, H3, Hc2. split; [reflexivity|]. split; [reflexivity|].
    eexists. split; reflexivity. }
  destruct (String.eqb ty "cancel_help") eqn:E2.
  { unfold handle_cancel_help. rewrite Hmem. cbn [negb].
    set (w1 := set_clients _ w).
    set (w2 := if Dict.mem c (help_requests w1) then _ else _).
    assert (Hw2 : raises w2 = [] /\ clients w2 = clients w1 /\
                  technicians w2 = technicians w).
    { unfold w2. destruct (Dict.mem c (help_requests w1)); now split. }
    destruct Hw2 as (R2 & C2 & T2).
    destruct (broadcast_quiet (Help_cancelled c) None w2 R2)
      as (H1 & H2 & H3).
    cbv zeta in *. rewrite H1, H2, H3, C2, T2. cbn.
    split; [reflexivity|]. split; [reflexivity|].
    rewrite get_update_eq, Hc. eexists. split; reflexivity. }
  destruct (String.eqb_spec ty "control_response") as [->|_].
  2: { destruct (String.eqb ty "heartbeat_response"); exact Hsame. }
  unfold handle_control_response.
  destruct (msg_approved m) eqn:Ha.
  - destruct (Happ eq_refl eq_refl) as (t & Ht & Hmt).
    apply mem_true in Hmt as (tech & Hg). rewrite Ht, Hg, Hc.
    set (w1 := start_session c t (uuid8 rnd) now w).
    set (w2 := snd (send _ _ _ w1)).
    assert (R2 : raises w2 = []).
    { assert (R1 : raises w1 = raises w)
        by (unfold w1, start_session;
            match goal with
            | |- raises (if ?b then _ else _) = _ => now destruct b
            end).
      unfold w2. cbn [send snd raises]. now rewrite R1, Hw. }
    destruct (broadcast_quiet (Client_unavailable c) (Some t) w2 R2)
      as (H1 & H2 & H3).
    cbv zeta in *. rewrite H1, H2, H3.
    change (clients w2) with (clients w1).
    change (technicians w2) with (technicians w1). unfold w1.
    rewrite start_session_clients, start_session_technicians.
    split; [reflexivity|]. split; [intros t'; apply mem_update|].
    rewrite !get_update_eq, Hc. eexists. split; reflexivity.
  - destruct (msg_tech_id m) as [t|]; [|exact Hsame].
    destruct (Dict.get t (technicians w)) as [tech|]; [|exact Hsame].
    rewrite Hc. cbn. rewrite Hw. split; [reflexivity|].
    split; [reflexivity|]. eauto.
Qed.

(** The broker keeps, for a registered client, the flag the client program
    keeps for itself: when no send of the broker fails and every approval
    names a technician that is registered, then after the broker has
    handled the client's messages the client's [help_requested] at the
    broker is set when the last message that bears on it is
    [help_request] and cleared when it is [cancel_help] or an approval,
    the rule of [Desk.asked] that the client's own flag follows. *)
Theorem broker_help_flag_follows_messages c xs : forall w info,
  raises w = [] ->
  Dict.get c (clients w) = Some info ->
  Forall
    (fun x : message * N * string =>
       let m := fst (fst x) in
       msg_type m = Some "control_response" -> msg_approved m = true ->
       exists t, msg_tech_id m = Some t /\
                 Dict.mem t (technicians w) = true) xs ->
  let w' :=
    run (map (fun x : message * N * string =>
                Client_recv c (fst (fst x)) (snd (fst x)) (snd x)) xs) w in
  exists info',
    Dict.get c (clients w') = Some info' /\
    help_requested info'
    = Desk.asked (map (fun x => fst (fst x)) xs) (help_requested info).
Proof.
  induction xs as [|[[m rnd] now] xs IH]; intros w info Hw Hc Hall.
  - cbn. eauto.
  - inversion Hall as [|? ? Hm Hxs]; subst. cbn [fst snd] in Hm.
    destruct (client_message_flag c m rnd now w info Hw Hc Hm)
      as (R & T & info1 & Hc1 & F1).
    cbv zeta in *. cbn [map run fold_left fst snd Desk.asked].
    destruct (IH (step (Client_recv c m rnd now) w) info1 R Hc1)
      as (info' & Hg & F).
    + eapply Forall_impl; [|exact Hxs]. cbn. intros x Hx H1 H2.
      destruct (Hx H1 H2) as (t & E & Mt). exists t. now rewrite T.
    + exists info'. split; [exact Hg|]. unfold run in F. now rewrite F, F1.
Qed.

(** Alice asks for help, cancels, asks again and approves Bob. *)
Lemma broker_help_flag_follows_messages_witness :
  let w := run [alice_joins; bob_joins] (init []) in
  let xs :=
    [(plain "help_request", uuid_of 3, "09:00:10");
     (plain "cancel_help", uuid_of 3, "09:00:20");
     (plain "help_request", uuid_of 3, "09:00:30");
     (approval bob, uuid_of 5, "09:01:00")] in
  exists info',
    Dict.get alice
      (clients
         (run (map (fun x : message * N * string =>
                      Client_recv alice (fst (fst x)) (snd (fst x)) (snd x))
                 xs) w))
    = Some info' /\
    help_requested info' = false.
Proof.
  cbv zeta.
  apply (broker_help_flag_follows_messages alice
           [(plain "help_request", uuid_of 3, "09:00:10");
            (plain "cancel_help", uuid_of 3, "09:00:20");
            (plain "help_request", uuid_of 3, "09:00:30");
            (approval bob, uuid_of 5, "09:01:00")]
           (run [alice_joins; bob_joins] (init []))
           (mk_client 10 "10.0.0.1" (Some "Client-10.0.0.1") false None
              "09:00:00")).
  - reflexivity.
  - vm_compute. reflexivity.
  - repeat constructor; cbn; try discriminate.
    intros _ _. exists bob. split; [reflexivity|]. vm_compute. reflexivity.
Defined.

End DeskFacts.
